(** * Ink-Memo: image-to-device pipeline and chunked BLE transfer

    A shallow embedding of [dithering.ts] (palettes, colour quantizer,
    ditherers, bit packer and unpacker) and of the transfer half of
    [bluetooth/bluetooth.ts] ([write], [writeImage], [convertUC8159],
    [sendimg]), followed by the properties established about them.  The
    second part adds the hexadecimal helpers and the small commands of
    [bluetooth.ts] ([hex2bytes], [bytes2hex], [intToHex], [sendcmd],
    [syncTime], [clearScreen], [setDriver]) and the two entry points of
    [bluetooth/canvas.ts] that run the pipeline ([applyDither],
    [convertDithering]).

    Numbers.  A JavaScript [number] is an IEEE-754 binary64 value, which is
    what Rocq's primitive [float] is: [+], [-], [*], [/], [Math.sqrt] and the
    comparisons are the same correctly rounded operations, and a decimal
    literal denotes the nearest binary64 value in both languages.  Only
    [Math.pow] has no primitive counterpart (ECMAScript leaves its precision
    to the implementation), so it is a parameter [Math_pow] of every function
    that reaches the Lab search.  Array indices, widths and heights are
    small non-negative integers and are kept in [nat]; the contents of
    [Uint8Array] and [Uint8ClampedArray] buffers are bytes kept in [Z].

    Effects.  The ditherers and [adjustContrast] overwrite [imageData.data]
    in place and return the same object; here they return the updated
    record.  The connection state of [bluetooth.ts] (module-level
    variables) is a [Session] threaded through [write], [writeImage] and
    [sendimg], together with the outcomes the link will give and a log of
    every call of [write].  Logging, status text, button states and the
    progress callback do not influence control flow and are left out. *)

From Stdlib Require Import ZArith Lia Floats String Bool.
From stdpp Require Import base list.

#[local] Set Warnings "-inexact-float".

Local Open Scope Z_scope.
Local Open Scope nat_scope.

(** ** JavaScript numeric primitives *)

Module JS.

(** [undefined] used as a number is [NaN]; an out-of-range read of a typed
    array yields [undefined]. *)
Definition NaN : float := PrimFloat.nan.
Definition Infinity : float := PrimFloat.infinity.

(** A byte read back as a number. *)
Definition of_byte (z : Z) : float := PrimFloat.of_uint63 (Uint63.of_Z z).

(** An integer of magnitude below 2^63 as a number. *)
Definition of_int (z : Z) : float :=
  if (z <? 0)%Z then PrimFloat.opp (PrimFloat.of_uint63 (Uint63.of_Z (- z)))
  else PrimFloat.of_uint63 (Uint63.of_Z z).

(** [Math.max(a, b)] and [Math.min(a, b)]: NaN is contagious, and -0 is
    below +0. *)
Definition Math_max (a b : float) : float :=
  if PrimFloat.is_nan a || PrimFloat.is_nan b then NaN
  else if (a <? b)%float then b
  else if (b <? a)%float then a
  else if PrimFloat.get_sign a then b else a.

Definition Math_min (a b : float) : float :=
  if PrimFloat.is_nan a || PrimFloat.is_nan b then NaN
  else if (a <? b)%float then a
  else if (b <? a)%float then b
  else if PrimFloat.get_sign a then a else b.

(** [Math.round(x)]: the nearest integer, a tie going towards +Infinity.
    A finite float is [± m * 2^e]; with [e >= 0] it is already integral. *)
Definition Math_round (x : float) : float :=
  match Prim2SF x with
  | S754_finite sg m e =>
      if (0 <=? e)%Z then x
      else
        let sm := if sg then Z.neg m else Z.pos m in
        let n := ((sm + 2 ^ (- e - 1)) / 2 ^ (- e))%Z in
        if (n =? 0)%Z && sg then PrimFloat.opp PrimFloat.zero else of_int n
  | _ => x
  end.

(** Conversion performed by a store into a [Uint8ClampedArray]
    (ToUint8Clamp): NaN gives 0, the value is clamped to [0, 255] and
    rounded to the nearest integer, a tie going to the even one. *)
Definition ToUint8Clamp (x : float) : Z :=
  match Prim2SF x with
  | S754_nan => 0
  | S754_zero _ => 0
  | S754_infinity sg => if sg then 0 else 255
  | S754_finite sg m e =>
      if sg then 0
      else if (0 <=? e)%Z then Z.min 255 (Z.pos m * 2 ^ e)
      else
        let d := (2 ^ (- e))%Z in
        let q := (Z.pos m / d)%Z in
        let rm := (Z.pos m mod d)%Z in
        let half := (2 ^ (- e - 1))%Z in
        Z.min 255
          (if (rm <? half)%Z then q
           else if (half <? rm)%Z then q + 1
           else if Z.even q then q else q + 1)
  end%Z.

(** Conversion performed by a store into a [Uint8Array] (ToUint8) of an
    integer. *)
Definition ToUint8 (z : Z) : Z := (z mod 256)%Z.

(** [Math.ceil(a / b)] for non-negative integers [a] and positive [b]. *)
Definition ceil_div (a b : nat) : nat := (a + (b - 1)) / b.

End JS.

Import JS.

(** ** types.ts *)

Inductive DitherMode : Type :=
| blackWhiteColor
| threeColor
| fourColor
| sixColor.

Inductive DitherAlgorithm : Type :=
| floydSteinberg
| atkinson
| bayer
| stucki
| jarvis
| none.

Record ColorPaletteItem : Type := mkColor {
  name : string;
  r : float;
  g : float;
  b : float;
  value : Z
}.

(** The channel projections under names that a local [r], [g] or [b] does
    not hide. *)
Abbreviation item_r := r (only parsing).
Abbreviation item_g := g (only parsing).
Abbreviation item_b := b (only parsing).
Abbreviation item_value := value (only parsing).

(** [ImageData]: [data] is a [Uint8ClampedArray] of RGBA bytes, row-major. *)
Record ImageData : Type := mkImageData {
  width : nat;
  height : nat;
  data : list Z
}.

Definition DitherMode_eqb (m1 m2 : DitherMode) : bool :=
  match m1, m2 with
  | blackWhiteColor, blackWhiteColor
  | threeColor, threeColor
  | fourColor, fourColor
  | sixColor, sixColor => true
  | _, _ => false
  end.

(** Device command opcodes. *)
Module EpdCmd.
Definition SET_PINS : Z := 0x00.
Definition INIT : Z := 0x01.
Definition CLEAR : Z := 0x02.
Definition SEND_CMD : Z := 0x03.
Definition SEND_DATA : Z := 0x04.
Definition REFRESH : Z := 0x05.
Definition SLEEP : Z := 0x06.
Definition SET_TIME : Z := 0x20.
Definition WRITE_IMG : Z := 0x30.
Definition SET_CONFIG : Z := 0x90.
Definition SYS_RESET : Z := 0x91.
Definition SYS_SLEEP : Z := 0x92.
Definition CFG_ERASE : Z := 0x99.
End EpdCmd.

(** ** dithering.ts: palettes *)

Definition rgbPalette : list ColorPaletteItem :=
  [ mkColor "黄色" 255 255 0 0xe2;
    mkColor "绿色" 41 204 20 0x96;
    mkColor "蓝色" 0 0 255 0x1d;
    mkColor "红色" 255 0 0 0x4c;
    mkColor "黑色" 0 0 0 0x00;
    mkColor "白色" 255 255 255 0xff ].

Definition fourColorPalette : list ColorPaletteItem :=
  [ mkColor "黑色" 0 0 0 0x00;
    mkColor "白色" 255 255 255 0x01;
    mkColor "红色" 255 0 0 0x03;
    mkColor "黄色" 255 255 0 0x02 ].

Definition threeColorPalette : list ColorPaletteItem :=
  [ mkColor "黑色" 0 0 0 0x00;
    mkColor "白色" 255 255 255 0x01;
    mkColor "红色" 255 0 0 0x02 ].

(** [palette[i]] of a palette constant; the index is always in range in the
    source, the fallback entry stands for [undefined]. *)
Definition item_at (palette : list ColorPaletteItem) (i : nat) : ColorPaletteItem :=
  nth i palette (mkColor EmptyString NaN NaN NaN 0).

(** ** dithering.ts: colour quantizer *)

Record Lab : Type := mkLab { lab_l : float; lab_a : float; lab_b : float }.

Section Quantizer.

Local Open Scope float_scope.

(** The host's [Math.pow]. *)
Variable Math_pow : float -> float -> float.

Definition rgbToLab (r g b : float) : Lab :=
  let r := r / 255 in
  let g := g / 255 in
  let b := b / 255 in
  let r := if 0.04045 <? r then Math_pow ((r + 0.055) / 1.055) 2.4 else r / 12.92 in
  let g := if 0.04045 <? g then Math_pow ((g + 0.055) / 1.055) 2.4 else g / 12.92 in
  let b := if 0.04045 <? b then Math_pow ((b + 0.055) / 1.055) 2.4 else b / 12.92 in
  let r := r * 100 in
  let g := g * 100 in
  let b := b * 100 in
  let x := r * 0.4124 + g * 0.3576 + b * 0.1805 in
  let y := r * 0.2126 + g * 0.7152 + b * 0.0722 in
  let z := r * 0.0193 + g * 0.1192 + b * 0.9505 in
  let x := x / 95.047 in
  let y := y / 100.0 in
  let z := z / 108.883 in
  let x := if 0.008856 <? x then Math_pow x (1 / 3) else (7.787 * x) + (16 / 116) in
  let y := if 0.008856 <? y then Math_pow y (1 / 3) else (7.787 * y) + (16 / 116) in
  let z := if 0.008856 <? z then Math_pow z (1 / 3) else (7.787 * z) + (16 / 116) in
  let l := (116 * y) - 16 in
  let a := 500 * (x - y) in
  let bLab := 200 * (y - z) in
  mkLab l a bLab.

Definition labDistance (lab1 lab2 : Lab) : float :=
  let dl := lab_l lab1 - lab_l lab2 in
  let da := lab_a lab1 - lab_a lab2 in
  let db := lab_b lab1 - lab_b lab2 in
  PrimFloat.sqrt (0.2 * dl * dl + 3 * da * da + 3 * db * db).

(** One iteration of the [for (const color of palette)] loop; the state is
    [(minDistance, closestColor)]. *)
Definition closest_step (inputLab : Lab) (st : float * ColorPaletteItem)
    (color : ColorPaletteItem) : float * ColorPaletteItem :=
  let distance := labDistance inputLab (rgbToLab (r color) (g color) (b color)) in
  if distance <? fst st then (distance, color) else st.

Definition findClosestColor (r g b : float) (mode : DitherMode) : ColorPaletteItem :=
  let palette :=
    match mode with
    | fourColor => fourColorPalette
    | threeColor => threeColorPalette
    | _ => rgbPalette
    end in
  if negb (DitherMode_eqb mode fourColor) && negb (DitherMode_eqb mode threeColor)
     && (r <? 50) && (g <? 150) && (100 <? b)
  then item_at rgbPalette 2
  else if DitherMode_eqb mode threeColor then
    if (120 <? r) && (g * 1.5 <? r) && (b * 1.5 <? r) then item_at threeColorPalette 2
    else
      let luminance := 0.299 * r + 0.587 * g + 0.114 * b in
      if luminance <? 128 then item_at threeColorPalette 0 else item_at threeColorPalette 1
  else
    let inputLab := rgbToLab r g b in
    snd (fold_left (closest_step inputLab) palette (Infinity, item_at palette 0)).

End Quantizer.

(** ** dithering.ts: typed-array access *)

(** [d[i]] read as a number: the byte, or [undefined] (NaN in arithmetic and
    comparisons) when [i] is out of range. *)
Definition read (d : list Z) (i : nat) : float :=
  match d !! i with
  | Some z => of_byte z
  | None => NaN
  end.

(** [d[i] = v] on a [Uint8ClampedArray]; an out-of-range store is ignored. *)
Definition store_clamped (d : list Z) (i : nat) (v : float) : list Z :=
  <[i := ToUint8Clamp v]> d.

(** [d[i]] of a [Uint8Array] used as an operand of a bitwise operator:
    [undefined] converts to 0. *)
Definition read_u8 (d : list Z) (i : nat) : Z :=
  match d !! i with
  | Some z => z
  | None => 0%Z
  end.

(** [d[i] = v], [d[i] |= v] and [d[i] &= v] on a [Uint8Array]. *)
Definition store_u8 (d : list Z) (i : nat) (v : Z) : list Z :=
  <[i := ToUint8 v]> d.

Definition or_assign (d : list Z) (i : nat) (v : Z) : list Z :=
  store_u8 d i (Z.lor (read_u8 d i) v).

Definition and_assign (d : list Z) (i : nat) (v : Z) : list Z :=
  store_u8 d i (Z.land (read_u8 d i) v).

(** [new Uint8Array(n)] and [new Uint8ClampedArray(n)]: zero-filled. *)
Definition new_array (n : nat) : list Z := replicate n 0%Z.

(** [for (y = 0; y < height; y++) for (x = 0; x < width; x++) body]. *)
Definition for_yx {St : Type} (width height : nat) (body : nat -> nat -> St -> St) (s : St) : St :=
  fold_left (fun s y => fold_left (fun s x => body y x s) (seq 0 width) s) (seq 0 height) s.

(** The clamp [Math.min(255, Math.max(0, v))] applied before every store. *)
Definition clamp255 (v : float) : float := Math_min 255 (Math_max 0 v).

(** ** dithering.ts: contrast *)

Definition adjustContrast_step (factor : float) (data : list Z) (i : nat) : list Z :=
  let data := store_clamped data i (clamp255 ((read data i - 128) * factor + 128)%float) in
  let data := store_clamped data (i + 1) (clamp255 ((read data (i + 1) - 128) * factor + 128)%float) in
  let data := store_clamped data (i + 2) (clamp255 ((read data (i + 2) - 128) * factor + 128)%float) in
  data.

(** [for (i = 0; i < data.length; i += 4)]: [i] runs over the multiples of 4
    below [data.length]. *)
Definition adjustContrast (imageData : ImageData) (factor : float) : ImageData :=
  let data := data imageData in
  mkImageData (width imageData) (height imageData)
    (fold_left (adjustContrast_step factor)
       (map (fun k => 4 * k) (seq 0 (ceil_div (length data) 4))) data).

(** ** dithering.ts: ditherers *)

(** The three stores every diffusion target receives:
    [tempData[i + c] = Math.min(255, Math.max(0, tempData[i + c] + d_c))]. *)
Definition diffuse (tempData : list Z) (i : nat) (dR dG dB : float) : list Z :=
  let tempData := store_clamped tempData i (clamp255 (read tempData i + dR)%float) in
  let tempData := store_clamped tempData (i + 1) (clamp255 (read tempData (i + 1) + dG)%float) in
  let tempData := store_clamped tempData (i + 2) (clamp255 (read tempData (i + 2) + dB)%float) in
  tempData.

(** [data[idx] = closest.r; data[idx + 1] = closest.g; data[idx + 2] = closest.b]. *)
Definition write_rgb (data : list Z) (idx : nat) (closest : ColorPaletteItem) : list Z :=
  let data := store_clamped data idx (r closest) in
  let data := store_clamped data (idx + 1) (g closest) in
  let data := store_clamped data (idx + 2) (b closest) in
  data.

Definition bayerMatrix : list (list float) :=
  [ [0; 32; 8; 40; 2; 34; 10; 42];
    [48; 16; 56; 24; 50; 18; 58; 26];
    [12; 44; 4; 36; 14; 46; 6; 38];
    [60; 28; 52; 20; 62; 30; 54; 22];
    [3; 35; 11; 43; 1; 33; 9; 41];
    [51; 19; 59; 27; 49; 17; 57; 25];
    [15; 47; 7; 39; 13; 45; 5; 37];
    [63; 31; 55; 23; 61; 29; 53; 21] ]%float.

Section Ditherers.

Local Open Scope float_scope.

Variable Math_pow : float -> float -> float.

(** The second pass of the two-pass ditherers: re-quantize [tempData]
    into [data]. *)
Definition requantize_pass (width height : nat) (mode : DitherMode)
    (tempData data : list Z) : list Z :=
  for_yx width height (fun y x data =>
    let idx := ((y * width + x) * 4)%nat in
    let r := read tempData idx in
    let g := read tempData (idx + 1) in
    let b := read tempData (idx + 2) in
    let closest := findClosestColor Math_pow r g b mode in
    write_rgb data idx closest) data.

Definition floydSteinberg_body (width height : nat) (strength : float) (mode : DitherMode)
    (y x : nat) (tempData : list Z) : list Z :=
  let idx := ((y * width + x) * 4)%nat in
  let r := read tempData idx in
  let g := read tempData (idx + 1) in
  let b := read tempData (idx + 2) in
  let closest := findClosestColor Math_pow r g b mode in
  let errR := (r - item_r closest) * strength in
  let errG := (g - item_g closest) * strength in
  let errB := (b - item_b closest) * strength in
  let tempData :=
    if (x + 1 <? width)%nat
    then diffuse tempData (idx + 4) (errR * 7 / 16) (errG * 7 / 16) (errB * 7 / 16)
    else tempData in
  if (y + 1 <? height)%nat then
    let tempData :=
      if (0 <? x)%nat
      then diffuse tempData (idx + width * 4 - 4) (errR * 3 / 16) (errG * 3 / 16) (errB * 3 / 16)
      else tempData in
    let tempData :=
      diffuse tempData (idx + width * 4) (errR * 5 / 16) (errG * 5 / 16) (errB * 5 / 16) in
    if (x + 1 <? width)%nat
    then diffuse tempData (idx + width * 4 + 4) (errR * 1 / 16) (errG * 1 / 16) (errB * 1 / 16)
    else tempData
  else tempData.

Definition floydSteinbergDither (imageData : ImageData) (strength : float) (mode : DitherMode)
    : ImageData :=
  let width := width imageData in
  let height := height imageData in
  let data := data imageData in
  let tempData := data in
  let tempData := for_yx width height (floydSteinberg_body width height strength mode) tempData in
  mkImageData width height (requantize_pass width height mode tempData data).

(** Atkinson: the quantized colour is written at once, and an eighth of
    the error goes to each of six neighbours.  The state is
    [(tempData, data)]. *)
Definition atkinson_body (width height : nat) (strength : float) (mode : DitherMode)
    (y x : nat) (st : list Z * list Z) : list Z * list Z :=
  let '(tempData, data) := st in
  let idx := ((y * width + x) * 4)%nat in
  let r := read tempData idx in
  let g := read tempData (idx + 1) in
  let b := read tempData (idx + 2) in
  let closest := findClosestColor Math_pow r g b mode in
  let data := write_rgb data idx closest in
  let errR := (r - item_r closest) * strength in
  let errG := (g - item_g closest) * strength in
  let errB := (b - item_b closest) * strength in
  let fraction := 1 / 8 in
  let spread t i := diffuse t i (errR * fraction) (errG * fraction) (errB * fraction) in
  let tempData := if (x + 1 <? width)%nat then spread tempData (idx + 4)%nat else tempData in
  let tempData := if (x + 2 <? width)%nat then spread tempData (idx + 8)%nat else tempData in
  let tempData :=
    if (y + 1 <? height)%nat then
      let tempData := if (0 <? x)%nat then spread tempData (idx + width * 4 - 4)%nat else tempData in
      let tempData := spread tempData (idx + width * 4)%nat in
      if (x + 1 <? width)%nat then spread tempData (idx + width * 4 + 4)%nat else tempData
    else tempData in
  let tempData := if (y + 2 <? height)%nat then spread tempData (idx + width * 8)%nat else tempData in
  (tempData, data).

Definition atkinsonDither (imageData : ImageData) (strength : float) (mode : DitherMode)
    : ImageData :=
  let width := width imageData in
  let height := height imageData in
  let data := data imageData in
  let tempData := data in
  mkImageData width height
    (snd (for_yx width height (atkinson_body width height strength mode) (tempData, data))).

(** The twelve-neighbour diffusion that [stuckiDither] and [jarvisDither]
    both spell out: two neighbours to the right, five on the next row and
    five on the row after, each guarded by the image bounds exactly as in
    the source.  [w] lists the weights in source order. *)
Definition diffuse12 (width height : nat) (y x idx : nat) (errR errG errB : float)
    (w : list float) (divisor : float) (tempData : list Z) : list Z :=
  let wt k := nth k w NaN in
  let spread t i k :=
    diffuse t i (errR * wt k / divisor) (errG * wt k / divisor) (errB * wt k / divisor) in
  let tempData := if (x + 1 <? width)%nat then spread tempData (idx + 4)%nat 0%nat else tempData in
  let tempData := if (x + 2 <? width)%nat then spread tempData (idx + 8)%nat 1%nat else tempData in
  let tempData :=
    if (y + 1 <? height)%nat then
      let tempData := if (1 <? x)%nat then spread tempData (idx + width * 4 - 8)%nat 2%nat else tempData in
      let tempData := if (0 <? x)%nat then spread tempData (idx + width * 4 - 4)%nat 3%nat else tempData in
      let tempData := spread tempData (idx + width * 4)%nat 4%nat in
      let tempData := if (x + 1 <? width)%nat then spread tempData (idx + width * 4 + 4)%nat 5%nat else tempData in
      if (x + 2 <? width)%nat then spread tempData (idx + width * 4 + 8)%nat 6%nat else tempData
    else tempData in
  if (y + 2 <? height)%nat then
    let tempData := if (1 <? x)%nat then spread tempData (idx + width * 8 - 8)%nat 7%nat else tempData in
    let tempData := if (0 <? x)%nat then spread tempData (idx + width * 8 - 4)%nat 8%nat else tempData in
    let tempData := spread tempData (idx + width * 8)%nat 9%nat in
    let tempData := if (x + 1 <? width)%nat then spread tempData (idx + width * 8 + 4)%nat 10%nat else tempData in
    if (x + 2 <? width)%nat then spread tempData (idx + width * 8 + 8)%nat 11%nat else tempData
  else tempData.

Definition stucki_weights : list float := [8; 4; 2; 4; 8; 4; 2; 1; 2; 4; 2; 1].
Definition jarvis_weights : list float := [7; 5; 3; 5; 7; 5; 3; 1; 3; 5; 3; 1].

(** Stucki: divisor 42, two passes. *)
Definition stucki_body (width height : nat) (strength : float) (mode : DitherMode)
    (y x : nat) (tempData : list Z) : list Z :=
  let idx := ((y * width + x) * 4)%nat in
  let r := read tempData idx in
  let g := read tempData (idx + 1) in
  let b := read tempData (idx + 2) in
  let closest := findClosestColor Math_pow r g b mode in
  let errR := (r - item_r closest) * strength in
  let errG := (g - item_g closest) * strength in
  let errB := (b - item_b closest) * strength in
  let divisor := 42 in
  diffuse12 width height y x idx errR errG errB stucki_weights divisor tempData.

Definition stuckiDither (imageData : ImageData) (strength : float) (mode : DitherMode)
    : ImageData :=
  let width := width imageData in
  let height := height imageData in
  let data := data imageData in
  let tempData := data in
  let tempData := for_yx width height (stucki_body width height strength mode) tempData in
  mkImageData width height (requantize_pass width height mode tempData data).

(** Jarvis: divisor 48, the quantized colour is written at once. *)
Definition jarvis_body (width height : nat) (strength : float) (mode : DitherMode)
    (y x : nat) (st : list Z * list Z) : list Z * list Z :=
  let '(tempData, data) := st in
  let idx := ((y * width + x) * 4)%nat in
  let r := read tempData idx in
  let g := read tempData (idx + 1) in
  let b := read tempData (idx + 2) in
  let closest := findClosestColor Math_pow r g b mode in
  let data := write_rgb data idx closest in
  let errR := (r - item_r closest) * strength in
  let errG := (g - item_g closest) * strength in
  let errB := (b - item_b closest) * strength in
  let divisor := 48 in
  (diffuse12 width height y x idx errR errG errB jarvis_weights divisor tempData, data).

Definition jarvisDither (imageData : ImageData) (strength : float) (mode : DitherMode)
    : ImageData :=
  let width := width imageData in
  let height := height imageData in
  let data := data imageData in
  let tempData := data in
  mkImageData width height
    (snd (for_yx width height (jarvis_body width height strength mode) (tempData, data))).

(** Bayer: ordered dithering, no error propagation. *)
Definition bayer_body (width : nat) (strength : float) (mode : DitherMode)
    (y x : nat) (data : list Z) : list Z :=
  let matrixSize := 8%nat in
  let maxThreshold := 64 in
  let idx := ((y * width + x) * 4)%nat in
  let r := read data idx in
  let g := read data (idx + 1) in
  let b := read data (idx + 2) in
  let matrixX := (x mod matrixSize)%nat in
  let matrixY := (y mod matrixSize)%nat in
  let threshold := (nth matrixX (nth matrixY bayerMatrix []) NaN / maxThreshold) * 255 in
  let adjustedR := r + (threshold - 127.5) * strength in
  let adjustedG := g + (threshold - 127.5) * strength in
  let adjustedB := b + (threshold - 127.5) * strength in
  let clampedR := Math_min 255 (Math_max 0 adjustedR) in
  let clampedG := Math_min 255 (Math_max 0 adjustedG) in
  let clampedB := Math_min 255 (Math_max 0 adjustedB) in
  let closest := findClosestColor Math_pow clampedR clampedG clampedB mode in
  write_rgb data idx closest.

Definition bayerDither (imageData : ImageData) (strength : float) (mode : DitherMode)
    : ImageData :=
  let width := width imageData in
  let height := height imageData in
  let data := data imageData in
  mkImageData width height (for_yx width height (bayer_body width strength mode) data).

Definition ditherImage (imageData : ImageData) (alg : DitherAlgorithm) (strength : float)
    (mode : DitherMode) : ImageData :=
  match alg with
  | floydSteinberg => floydSteinbergDither imageData strength mode
  | atkinson => atkinsonDither imageData strength mode
  | stucki => stuckiDither imageData strength mode
  | jarvis => jarvisDither imageData strength mode
  | bayer => bayerDither imageData strength mode
  | none => imageData
  end.

End Ditherers.

(** ** dithering.ts: unpacking *)

(** [new ImageData(width, height)]: transparent black; the constructor
    throws (here [None]) when a dimension is zero. *)
Definition new_ImageData (width height : nat) : option ImageData :=
  if ((width =? 0) || (height =? 0))%nat then None
  else Some (mkImageData width height (new_array (width * height * 4))).

(** The four stores of one decoded pixel. *)
Definition write_rgba (data : list Z) (index : nat) (r g b a : float) : list Z :=
  let data := store_clamped data index r in
  let data := store_clamped data (index + 1) g in
  let data := store_clamped data (index + 2) b in
  let data := store_clamped data (index + 3) a in
  data.

(** The local table [fourColorValues] of [decodeProcessedData]:
    [(value, (r, g, b))]. *)
Definition fourColorValues : list (Z * (float * float * float)) :=
  [ (0x00%Z, (0, 0, 0)%float);
    (0x01%Z, (255, 255, 255)%float);
    (0x03%Z, (255, 0, 0)%float);
    (0x02%Z, (255, 255, 0)%float) ].

(** [processedData.slice(start)] and [processedData.slice(0, end)] for
    non-negative bounds. *)
Definition slice_from (d : list Z) (start : nat) : list Z := drop start d.
Definition slice_to (d : list Z) (stop : nat) : list Z := take stop d.

Definition decode_sixColor (processedData : list Z) (width height : nat) (y x : nat)
    (data : list Z) : list Z :=
  let newIndex := ((x * height) + (height - 1 - y))%nat in
  let color :=
    match processedData !! newIndex with
    | Some value =>
        match List.find (fun c => (item_value c =? value)%Z) rgbPalette with
        | Some c => c
        | None => item_at rgbPalette 5
        end
    | None => item_at rgbPalette 5
    end in
  let index := ((y * width + x) * 4)%nat in
  write_rgba data index (item_r color) (item_g color) (item_b color) 255.

Definition decode_fourColor (processedData : list Z) (width : nat) (y x : nat)
    (data : list Z) : list Z :=
  let newIndex := ((y * width + x) / 4)%nat in
  let shift := (6 - ((x mod 4) * 2))%nat in
  let value := Z.land (Z.shiftr (read_u8 processedData newIndex) (Z.of_nat shift)) 0x03 in
  let color :=
    match List.find (fun c => (fst c =? value)%Z) fourColorValues with
    | Some c => snd c
    | None => snd (nth 1 fourColorValues (0%Z, (NaN, NaN, NaN)))
    end in
  let index := ((y * width + x) * 4)%nat in
  let '(cr, cg, cb) := color in
  write_rgba data index cr cg cb 255.

Definition decode_blackWhite (processedData : list Z) (width : nat) (y x : nat)
    (data : list Z) : list Z :=
  let byteWidth := ceil_div width 8 in
  let byteIndex := (y * byteWidth + x / 8)%nat in
  let bitIndex := (7 - (x mod 8))%nat in
  let bit := Z.land (Z.shiftr (read_u8 processedData byteIndex) (Z.of_nat bitIndex)) 1 in
  let index := ((y * width + x) * 4)%nat in
  let v := if (bit =? 0)%Z then 0%float else 255%float in
  write_rgba data index v v v 255.

Definition decode_threeColor (blackWhiteData redWhiteData : list Z) (width : nat) (y x : nat)
    (data : list Z) : list Z :=
  let byteWidth := ceil_div width 8 in
  let byteIndex := (y * byteWidth + x / 8)%nat in
  let bitIndex := (7 - (x mod 8))%nat in
  let blackWhiteBit := Z.land (Z.shiftr (read_u8 blackWhiteData byteIndex) (Z.of_nat bitIndex)) 1 in
  let redWhiteBit := Z.land (Z.shiftr (read_u8 redWhiteData byteIndex) (Z.of_nat bitIndex)) 1 in
  let index := ((y * width + x) * 4)%nat in
  let data :=
    if (redWhiteBit =? 0)%Z then
      let data := store_clamped data index 255 in
      let data := store_clamped data (index + 1) 0 in
      store_clamped data (index + 2) 0
    else
      let v := if (blackWhiteBit =? 0)%Z then 0%float else 255%float in
      let data := store_clamped data index v in
      let data := store_clamped data (index + 1) v in
      store_clamped data (index + 2) v in
  store_clamped data (index + 3) 255.

Definition decodeProcessedData (processedData : list Z) (width height : nat) (mode : DitherMode)
    : option ImageData :=
  match new_ImageData width height with
  | None => None
  | Some imageData =>
      let data := data imageData in
      let data :=
        match mode with
        | sixColor => for_yx width height (decode_sixColor processedData width height) data
        | fourColor => for_yx width height (decode_fourColor processedData width) data
        | blackWhiteColor => for_yx width height (decode_blackWhite processedData width) data
        | threeColor =>
            let byteWidth := ceil_div width 8 in
            let blackWhiteData := slice_to processedData (byteWidth * height) in
            let redWhiteData := slice_from processedData (byteWidth * height) in
            for_yx width height (decode_threeColor blackWhiteData redWhiteData width) data
        end in
      Some (mkImageData width height data)
  end.

(** ** dithering.ts: packing *)

(** [Math.round(0.299 * r + 0.587 * g + 0.114 * b)]. *)
Definition grayscale_of (r g b : float) : float :=
  Math_round (0.299 * r + 0.587 * g + 0.114 * b)%float.

Section Packer.

Variable Math_pow : float -> float -> float.

Definition pack_sixColor (width height : nat) (data : list Z) (y x : nat)
    (processedData : list Z) : list Z :=
  let index := ((y * width + x) * 4)%nat in
  let r := read data index in
  let g := read data (index + 1) in
  let b := read data (index + 2) in
  let closest := findClosestColor Math_pow r g b sixColor in
  let newIndex := ((x * height) + (height - 1 - y))%nat in
  store_u8 processedData newIndex (item_value closest).

Definition pack_fourColor (width : nat) (data : list Z) (y x : nat)
    (processedData : list Z) : list Z :=
  let index := ((y * width + x) * 4)%nat in
  let r := read data index in
  let g := read data (index + 1) in
  let b := read data (index + 2) in
  let closest := findClosestColor Math_pow r g b fourColor in
  let colorValue := item_value closest in
  let newIndex := ((y * width + x) / 4)%nat in
  let shift := (6 - ((x mod 4) * 2))%nat in
  or_assign processedData newIndex (Z.shiftl colorValue (Z.of_nat shift)).

Definition pack_blackWhite (width : nat) (data : list Z) (y x : nat)
    (processedData : list Z) : list Z :=
  let byteWidth := ceil_div width 8 in
  let threshold := 140%float in
  let index := ((y * width + x) * 4)%nat in
  let r := read data index in
  let g := read data (index + 1) in
  let b := read data (index + 2) in
  let grayscale := grayscale_of r g b in
  let bit := if (threshold <=? grayscale)%float then 1%Z else 0%Z in
  let byteIndex := (y * byteWidth + x / 8)%nat in
  let bitIndex := (7 - (x mod 8))%nat in
  or_assign processedData byteIndex (Z.shiftl bit (Z.of_nat bitIndex)).

(** The state is [(blackWhiteData, redWhiteData)]. *)
Definition pack_threeColor (width : nat) (data : list Z) (y x : nat)
    (st : list Z * list Z) : list Z * list Z :=
  let '(blackWhiteData, redWhiteData) := st in
  let byteWidth := ceil_div width 8 in
  let blackWhiteThreshold := 140%float in
  let redThreshold := 160%float in
  let index := ((y * width + x) * 4)%nat in
  let r := read data index in
  let g := read data (index + 1) in
  let b := read data (index + 2) in
  let grayscale := grayscale_of r g b in
  let blackWhiteBit := (blackWhiteThreshold <=? grayscale)%float in
  let blackWhiteByteIndex := (y * byteWidth + x / 8)%nat in
  let blackWhiteBitIndex := (7 - (x mod 8))%nat in
  let blackWhiteData :=
    if blackWhiteBit
    then or_assign blackWhiteData blackWhiteByteIndex (Z.shiftl 0x01 (Z.of_nat blackWhiteBitIndex))
    else and_assign blackWhiteData blackWhiteByteIndex
           (Z.lnot (Z.shiftl 0x01 (Z.of_nat blackWhiteBitIndex))) in
  let redWhiteBit := negb ((redThreshold <? r) && (g <? r) && (b <? r))%float in
  let redWhiteByteIndex := (y * byteWidth + x / 8)%nat in
  let redWhiteBitIndex := (7 - (x mod 8))%nat in
  let redWhiteData :=
    if redWhiteBit
    then or_assign redWhiteData redWhiteByteIndex (Z.shiftl 0x01 (Z.of_nat redWhiteBitIndex))
    else and_assign redWhiteData redWhiteByteIndex
           (Z.lnot (Z.shiftl 0x01 (Z.of_nat redWhiteBitIndex))) in
  (blackWhiteData, redWhiteData).

Definition processImageData (imageData : ImageData) (mode : DitherMode) : list Z :=
  let width := width imageData in
  let height := height imageData in
  let data := data imageData in
  match mode with
  | sixColor =>
      for_yx width height (pack_sixColor width height data) (new_array (width * height))
  | fourColor =>
      for_yx width height (pack_fourColor width data) (new_array (ceil_div (width * height) 4))
  | blackWhiteColor =>
      let byteWidth := ceil_div width 8 in
      for_yx width height (pack_blackWhite width data) (new_array (byteWidth * height))
  | threeColor =>
      let byteWidth := ceil_div width 8 in
      let '(blackWhiteData, redWhiteData) :=
        for_yx width height (pack_threeColor width data)
          (new_array (height * byteWidth), new_array (height * byteWidth)) in
      blackWhiteData ++ redWhiteData
  end.

End Packer.

(** ** bluetooth.ts: the link *)

(** What the GATT characteristic does with one write handed to it: it
    resolves, it rejects while the link stays up (a transient transport
    error), or it rejects because the link dropped, in which case the
    [gattserverdisconnected] handler runs [resetVariables]. *)
Inductive Outcome : Type :=
| Delivered
| Rejected
| LinkLost.

(** How one call of [write] ended: handed to the characteristic and
    resolved, handed over and rejected, or refused by the connection checks
    before anything reached the characteristic. *)
Inductive WriteStatus : Type :=
| Sent
| Failed
| NotAttempted.

Record WriteRecord : Type := mkWrite {
  w_cmd : Z;
  w_data : list Z;
  w_withResponse : bool;
  w_status : WriteStatus
}.

(** The module-level connection state, the outcomes the link will give to
    the coming writes (an exhausted script means delivery), and the log of
    every call of [write] so far, oldest first. *)
Record Session : Type := mkSession {
  epdCharacteristic : bool;
  gattServer : option bool;
  link : list Outcome;
  wire : list WriteRecord
}.

Definition connected (s : Session) : bool :=
  match gattServer s with
  | Some c => c
  | None => false
  end.

Definition logged (s : Session) (rec : WriteRecord) : Session :=
  mkSession (epdCharacteristic s) (gattServer s) (link s) (wire s ++ [rec]).

(** [write(cmd, data, withResponse)]; the payload on the wire is
    [cmd :: data]. *)
Definition write (cmd : Z) (data : list Z) (withResponse : bool) (s : Session)
    : Session * bool :=
  if negb (epdCharacteristic s) then
    (logged s (mkWrite cmd data withResponse NotAttempted), false)
  else if negb (connected s) then
    (logged s (mkWrite cmd data withResponse NotAttempted), false)
  else
    match link s with
    | [] | Delivered :: _ =>
        (mkSession (epdCharacteristic s) (gattServer s) (tail (link s))
           (wire s ++ [mkWrite cmd data withResponse Sent]), true)
    | Rejected :: rest =>
        (mkSession (epdCharacteristic s) (gattServer s) rest
           (wire s ++ [mkWrite cmd data withResponse Failed]), false)
    | LinkLost :: rest =>
        (mkSession false None rest
           (wire s ++ [mkWrite cmd data withResponse Failed]), false)
    end.

(** ** bluetooth.ts: chunked image transfer *)

(** The two form fields [writeImage] parses with [parseInt]. *)
Record TransferConfig : Type := mkConfig {
  mtusize : Z;
  interleavedcount : Z
}.

Inductive Step : Type :=
| bw
| color
| red.

(** [data.slice(start, stop)] with JavaScript's treatment of negative and
    oversized bounds. *)
Definition js_slice (d : list Z) (start stop : Z) : list Z :=
  let len := Z.of_nat (length d) in
  let rel k := if (k <? 0)%Z then Z.max (len + k) 0 else Z.min k len in
  let from := rel start in
  let final := rel stop in
  take (Z.to_nat (final - from)) (drop (Z.to_nat from) d).

Definition chunk_header (step : Step) (i : Z) : Z :=
  Z.lor (match step with bw => 0x0F | _ => 0x00 end) (if (i =? 0)%Z then 0x00 else 0xF0).

(** The [for (i = 0; i < data.length; i += chunkSize)] loop.  [fuel] bounds
    the number of iterations; [None] means the bound was hit. *)
Fixpoint writeImage_loop (fuel : nat) (data : list Z) (step : Step)
    (chunkSize interleavedCount : Z) (i noReplyCount : Z) (s : Session) : option Session :=
  if (Z.of_nat (length data) <=? i)%Z then Some s
  else
    match fuel with
    | O => None
    | S fuel =>
        let payload := chunk_header step i :: js_slice data i (i + chunkSize) in
        if (0 <? noReplyCount)%Z then
          let '(s, _) := write EpdCmd.WRITE_IMG payload false s in
          writeImage_loop fuel data step chunkSize interleavedCount
            (i + chunkSize)%Z (noReplyCount - 1)%Z s
        else
          let '(s, _) := write EpdCmd.WRITE_IMG payload true s in
          writeImage_loop fuel data step chunkSize interleavedCount
            (i + chunkSize)%Z interleavedCount s
    end.

(** [writeImage(data, step)].  With a positive chunk size the loop makes at
    most [data.length] iterations; with [chunkSize <= 0] and a non-empty
    payload the source never leaves the loop, and the result is [None]. *)
Definition writeImage (cfg : TransferConfig) (data : list Z) (step : Step) (s : Session)
    : option Session :=
  let chunkSize := (mtusize cfg - 2)%Z in
  let interleavedCount := interleavedcount cfg in
  writeImage_loop (length data) data step chunkSize interleavedCount 0%Z interleavedCount s.

(** ** bluetooth.ts: UC8159 conversion *)

Definition uc8159_code (black_data color_data : Z) : Z :=
  if (Z.land color_data 0x80 =? 0x00)%Z then 0x04%Z
  else if (Z.land black_data 0x80 =? 0x00)%Z then 0x00%Z
  else 0x03%Z.

(** One pass of the inner loop body (it advances [j] twice): two pixels
    become one output byte.  The state is
    [(black_data, color_data, payloadData, payloadIdx)]. *)
Definition uc8159_inner (st : Z * Z * list Z * nat) (j : nat) : Z * Z * list Z * nat :=
  let '(black_data, color_data, payloadData, payloadIdx) := st in
  let data := uc8159_code black_data color_data in
  let data := Z.land (Z.shiftl data 4) 0xFF in
  let black_data := Z.land (Z.shiftl black_data 1) 0xFF in
  let color_data := Z.land (Z.shiftl color_data 1) 0xFF in
  let data := Z.lor data (uc8159_code black_data color_data) in
  let black_data := Z.land (Z.shiftl black_data 1) 0xFF in
  let color_data := Z.land (Z.shiftl color_data 1) 0xFF in
  (black_data, color_data, store_u8 payloadData payloadIdx data, S payloadIdx).

Definition convertUC8159 (blackWhiteData redWhiteData : list Z) : list Z :=
  let halfLength := length blackWhiteData in
  let payloadData := new_array (halfLength * 4) in
  fst (fold_left
         (fun (st : list Z * nat) (i : nat) =>
            let '(payloadData, payloadIdx) := st in
            let black_data := read_u8 blackWhiteData i in
            let color_data := read_u8 redWhiteData i in
            let '(_, _, payloadData, payloadIdx) :=
              fold_left uc8159_inner [0; 2; 4; 6]
                (black_data, color_data, payloadData, payloadIdx) in
            (payloadData, payloadIdx))
         (seq 0 halfLength) (payloadData, 0)).

(** ** bluetooth.ts: sendimg *)

(** The canvas: whether [getContext('2d')] yields a context, and the pixels
    [getImageData(0, 0, canvas.width, canvas.height)] reads. *)
Record Canvas : Type := mkCanvas {
  context2d : bool;
  pixels : ImageData
}.

(** [epdDriverSelect && (value === '08' || value === '09')]; [None] is a
    page without the [epddriver] element. *)
Definition uses_UC8159 (epddriver : option string) : bool :=
  match epddriver with
  | Some v => String.eqb v "08" || String.eqb v "09"
  | None => false
  end.

Section SendImage.

Variable Math_pow : float -> float -> float.

(** The part of [sendimg] after INIT has been acknowledged: the image
    planes, then REFRESH.  [None]: a [writeImage] loop never ends. *)
Definition send_planes (cfg : TransferConfig) (epddriver : option string)
    (ditherMode : DitherMode) (processedData : list Z) (s : Session)
    : option (Session * bool) :=
  let refresh (s : Session) : Session * bool :=
    let '(s, ok) := write EpdCmd.REFRESH [] true s in
    if negb ok then (s, false) else (s, true) in
  match ditherMode with
  | fourColor =>
      s ← writeImage cfg processedData color s;
      Some (refresh s)
  | threeColor =>
      let halfLength := (length processedData / 2)%nat in
      let blackWhiteData := slice_to processedData halfLength in
      let redWhiteData := slice_from processedData halfLength in
      if uses_UC8159 epddriver then
        s ← writeImage cfg (convertUC8159 blackWhiteData redWhiteData) bw s;
        Some (refresh s)
      else
        s ← writeImage cfg blackWhiteData bw s;
        s ← writeImage cfg redWhiteData red s;
        Some (refresh s)
  | blackWhiteColor =>
      if uses_UC8159 epddriver then
        let emptyData := replicate (length processedData) 0xFF%Z in
        s ← writeImage cfg (convertUC8159 processedData emptyData) bw s;
        Some (refresh s)
      else
        s ← writeImage cfg processedData bw s;
        Some (refresh s)
  | sixColor => Some (s, false)
  end.

(** [sendimg(canvas, canvasState)] with [canvasState.colorPalette =
    ditherMode].  A [throw] inside the [try] lands in the [catch], which
    returns [false]. *)
Definition sendimg (cfg : TransferConfig) (epddriver : option string)
    (canvas : Canvas) (ditherMode : DitherMode) (s : Session) : option (Session * bool) :=
  if negb (connected s) || negb (epdCharacteristic s) then Some (s, false)
  else if negb (context2d canvas) then Some (s, false)
  else
    let imageData := pixels canvas in
    if ((width imageData =? 0) || (height imageData =? 0))%nat then Some (s, false)
    else
      let processedData := processImageData Math_pow imageData ditherMode in
      let '(s, ok) := write EpdCmd.INIT [] true s in
      if negb ok then Some (s, false)
      else send_planes cfg epddriver ditherMode processedData s.

End SendImage.

(** ** canvas.ts: applying the dithering *)

(** The fields of the canvas state [applyDither] reads. *)
Record CanvasState : Type := mkCanvasState {
  contrast : float;
  dithering : DitherAlgorithm;
  strength : float;
  colorPalette : DitherMode
}.

(** [new ImageData(new Uint8ClampedArray(data), width, height)]: a copy;
    the constructor throws (here [None]) unless [data] holds four bytes for
    each of [width * height > 0] pixels. *)
Definition copy_ImageData (data : list Z) (width height : nat) : option ImageData :=
  if ((width =? 0) || (height =? 0) || negb (length data =? width * height * 4))%nat then None
  else Some (mkImageData width height data).

Section ApplyDither.

Variable Math_pow : float -> float -> float.

(** [applyDither(canvas, canvasState)]: the canvas afterwards.  Without a
    context nothing happens; [getImageData] throws on an empty canvas
    ([None]); [processedData] is computed and dropped; [putImageData]
    replaces the pixels by the dithered ones.  ([pixels] afterwards is the
    image handed to [putImageData]; a browser gives exactly these bytes
    back for opaque pixels.) *)
Definition applyDither (canvas : Canvas) (canvasState : CanvasState) : option Canvas :=
  if negb (context2d canvas) then Some canvas
  else
    let currentImageData := pixels canvas in
    if ((width currentImageData =? 0) || (height currentImageData =? 0))%nat then None
    else
      imageData ← copy_ImageData (data currentImageData) (width currentImageData)
                    (height currentImageData);
      let imageData := adjustContrast imageData (contrast canvasState) in
      let ditheredImageData :=
        ditherImage Math_pow imageData (dithering canvasState) (strength canvasState)
          (colorPalette canvasState) in
      let processedData :=
        processImageData Math_pow ditheredImageData (colorPalette canvasState) in
      Some (mkCanvas (context2d canvas) ditheredImageData).

(** [convertDithering(canvas)]: the same with the built-in settings. *)
Definition convertDithering (canvas : Canvas) : option Canvas :=
  if negb (context2d canvas) then Some canvas
  else
    let contrast := 1.2%float in
    let alg := floydSteinberg in
    let strength := 1.0%float in
    let mode := blackWhiteColor in
    let currentImageData := pixels canvas in
    if ((width currentImageData =? 0) || (height currentImageData =? 0))%nat then None
    else
      imageData ← copy_ImageData (data currentImageData) (width currentImageData)
                    (height currentImageData);
      let imageData := adjustContrast imageData contrast in
      let ditheredImageData := ditherImage Math_pow imageData alg strength mode in
      let processedData := processImageData Math_pow ditheredImageData mode in
      Some (mkCanvas (context2d canvas) ditheredImageData).

End ApplyDither.

(** ** bluetooth.ts: hexadecimal text *)

(** A JavaScript string is kept as the list of its UTF-16 code units. *)
Definition JSString : Type := list Z.

(** The code units [parseInt] skips at the start (WhiteSpace and
    LineTerminator). *)
Definition is_whitespace (c : Z) : bool :=
  existsb (Z.eqb c)
    [0x9; 0xA; 0xB; 0xC; 0xD; 0x20; 0xA0; 0x1680; 0x2028; 0x2029; 0x202F; 0x205F; 0x3000; 0xFEFF]%Z
  || ((0x2000 <=? c) && (c <=? 0x200A))%Z.

Fixpoint trim_start (s : JSString) : JSString :=
  match s with
  | c :: rest => if is_whitespace c then trim_start rest else s
  | [] => []
  end.

(** The value of a code unit as a radix-16 digit. *)
Definition hex_digit (c : Z) : option Z :=
  if ((48 <=? c) && (c <=? 57))%Z then Some (c - 48)%Z
  else if ((97 <=? c) && (c <=? 102))%Z then Some (c - 87)%Z
  else if ((65 <=? c) && (c <=? 70))%Z then Some (c - 55)%Z
  else None.

(** The digits of the longest prefix made of radix-16 digits. *)
Fixpoint digit_prefix (s : JSString) : list Z :=
  match s with
  | c :: rest =>
      match hex_digit c with
      | Some d => d :: digit_prefix rest
      | None => []
      end
  | [] => []
  end.

(** [parseInt(s, 16)]; [None] is NaN.  The sign of a zero result is not
    kept, and the value is exact (the callers pass at most two code
    units). *)
Definition parseInt16 (s : JSString) : option Z :=
  let s := trim_start s in
  let '(sign, s) :=
    match s with
    | 45%Z :: rest => ((-1)%Z, rest)
    | 43%Z :: rest => (1%Z, rest)
    | _ => (1%Z, s)
    end in
  let s :=
    match s with
    | 48%Z :: 120%Z :: rest => rest
    | 48%Z :: 88%Z :: rest => rest
    | _ => s
    end in
  match digit_prefix s with
  | [] => None
  | ds => Some (sign * fold_left (fun acc d => 16 * acc + d) ds 0)%Z
  end.

(** A number stored into a [Uint8Array]: NaN becomes 0. *)
Definition store_parsed (v : option Z) : Z :=
  match v with
  | Some z => ToUint8 z
  | None => 0%Z
  end.

(** [hex2bytes(hex)]: [c] advances by two; [hex.substr(c, 2)] is one code
    unit at the end of a string of odd length. *)
Fixpoint hex2bytes (hex : JSString) : list Z :=
  match hex with
  | [] => []
  | [a] => [store_parsed (parseInt16 [a])]
  | a :: b :: rest => store_parsed (parseInt16 [a; b]) :: hex2bytes rest
  end.

(** The code unit of a digit below 16, lower case. *)
Definition digit_char (d : Z) : Z := if (d <? 10)%Z then (48 + d)%Z else (87 + d)%Z.

Fixpoint hex_digits (fuel : nat) (n : Z) (acc : JSString) : JSString :=
  match fuel with
  | O => acc
  | S fuel =>
      let acc := digit_char (n mod 16) :: acc in
      if (n / 16 =? 0)%Z then acc else hex_digits fuel (n / 16) acc
  end.

(** [n.toString(16)] for an integer [n]; a number below [2^k] has at most
    [k] digits. *)
Definition toString16 (n : Z) : JSString :=
  if (n <? 0)%Z then 45%Z :: hex_digits (S (Z.to_nat (Z.log2 (- n)))) (- n) []
  else hex_digits (S (Z.to_nat (Z.log2 n))) n [].

(** [bytes2hex(data)]: [new Uint8Array(data)] wraps every entry into a byte. *)
Definition bytes2hex (data : list Z) : JSString :=
  fold_left
    (fun memo i =>
       let padded := 48%Z :: toString16 i in
       memo ++ js_slice padded (-2) (Z.of_nat (length padded)))
    (map ToUint8 data) [].

(** [intToHex(intIn)] for an integer. *)
Definition intToHex (intIn : Z) : JSString :=
  let padded := [48; 48; 48; 48]%Z ++ toString16 intIn in
  let stringOut := js_slice padded (-4) (Z.of_nat (length padded)) in
  js_slice stringOut 2 4 ++ js_slice stringOut 0 2.

(** ** bluetooth.ts: commands *)

(** [sendcmd()] with the text of the [cmdTXT] field: the first byte is the
    opcode, the rest the data. *)
Definition sendcmd (cmdTXT : JSString) (s : Session) : Session :=
  if negb (connected s) || negb (epdCharacteristic s) then s
  else
    match cmdTXT with
    | [] => s
    | _ =>
        let bytes := hex2bytes cmdTXT in
        let cmd := read_u8 bytes 0 in
        let data := if (1 <? length bytes)%nat then js_slice bytes 1 (Z.of_nat (length bytes))
                    else [] in
        fst (write cmd data true s)
    end.

(** The integer part of a number; 0 for NaN and the infinities, as in
    ToInt32 and ToUint8. *)
Definition trunc (x : float) : Z :=
  match Prim2SF x with
  | S754_finite sg m e =>
      let magnitude := if (0 <=? e)%Z then (Z.pos m * 2 ^ e)%Z else (Z.pos m / 2 ^ (- e))%Z in
      if sg then (- magnitude)%Z else magnitude
  | _ => 0%Z
  end.

(** ToInt32, the conversion applied to the operands of [>>] and [&]. *)
Definition ToInt32 (x : float) : Z :=
  let n := (trunc x mod 2 ^ 32)%Z in
  if (2 ^ 31 <=? n)%Z then (n - 2 ^ 32)%Z else n.

(** [syncTime(mode)]: [confirmed] is the answer to the dialogue (asked in
    mode 2 only), [now] the value of [new Date().getTime()] and
    [timezoneOffset] that of [getTimezoneOffset()]. *)
Definition syncTime (mode : Z) (confirmed : bool) (now timezoneOffset : float) (s : Session)
    : Session :=
  if negb (connected s) || negb (epdCharacteristic s) then s
  else if (mode =? 2)%Z && negb confirmed then s
  else
    let timestamp := (now / 1000)%float in
    let data :=
      map ToUint8
        [ Z.land (Z.shiftr (ToInt32 timestamp) 24) 0xFF;
          Z.land (Z.shiftr (ToInt32 timestamp) 16) 0xFF;
          Z.land (Z.shiftr (ToInt32 timestamp) 8) 0xFF;
          Z.land (ToInt32 timestamp) 0xFF;
          trunc (- (timezoneOffset / 60))%float;
          mode ] in
    fst (write EpdCmd.SET_TIME data true s).

(** [clearScreen()]. *)
Definition clearScreen (confirmed : bool) (s : Session) : Session :=
  if negb (connected s) || negb (epdCharacteristic s) then s
  else if confirmed then fst (write EpdCmd.CLEAR [] true s)
  else s.

(** [setDriver()] with the texts of the [epdpins] and [epddriver] fields;
    [write] turns a string into bytes with [hex2bytes]. *)
Definition setDriver (epdpins epddriver : JSString) (s : Session) : Session :=
  let '(s, _) := write EpdCmd.SET_PINS (hex2bytes epdpins) true s in
  let '(s, _) := write EpdCmd.INIT (hex2bytes epddriver) true s in
  s.

(** ** Notions used to state the properties *)

(** The palette [findClosestColor] selects in its first statement. *)
Definition palette_of (mode : DitherMode) : list ColorPaletteItem :=
  match mode with
  | fourColor => fourColorPalette
  | threeColor => threeColorPalette
  | _ => rgbPalette
  end.

(** The guard of the blue special case of [findClosestColor]. *)
Definition blue_guard (r g b : float) (mode : DitherMode) : bool :=
  negb (DitherMode_eqb mode fourColor) && negb (DitherMode_eqb mode threeColor)
  && (r <? 50)%float && (g <? 150)%float && (100 <? b)%float.

(** The inputs for which [findClosestColor] reaches the Lab search. *)
Definition lab_search_reached (r g b : float) (mode : DitherMode) : bool :=
  negb (blue_guard r g b mode) && negb (DitherMode_eqb mode threeColor).

(** The distance the Lab search computes between the input and a palette
    entry. *)
Definition lab_dist (Math_pow : float -> float -> float) (r g b : float)
    (color : ColorPaletteItem) : float :=
  labDistance (rgbToLab Math_pow r g b)
    (rgbToLab Math_pow (item_r color) (item_g color) (item_b color)).

(** [Math_pow] is accurate enough on a palette when the Lab search tells its
    colours apart: an entry is at distance zero from itself and at a
    positive distance from every other entry. *)
Definition lab_separates (Math_pow : float -> float -> float)
    (palette : list ColorPaletteItem) : Prop :=
  forall c c', c ∈ palette -> c' ∈ palette ->
    (c = c' -> (lab_dist Math_pow (item_r c) (item_g c) (item_b c) c' =? 0)%float = true) /\
    (c <> c' -> (0 <? lab_dist Math_pow (item_r c) (item_g c) (item_b c) c')%float = true).

(** A reference [Math.pow] for the two exponents [rgbToLab] uses, by Newton
    iteration: [x^2.4 = x^2 * (x^2)^(1/5)] and [x^(1/3)]. *)
Fixpoint newton (step : float -> float) (n : nat) (t : float) : float :=
  match n with
  | O => t
  | S n => newton step n (step t)
  end.

Definition cbrt_ref (a : float) : float :=
  newton (fun t => (2 * t + a / (t * t)) / 3)%float 80 1%float.

Definition root5_ref (a : float) : float :=
  newton (fun t => (4 * t + a / (t * t * t * t)) / 5)%float 80 1%float.

Definition Math_pow_ref (x y : float) : float :=
  if (y =? 2.4)%float then ((x * x) * root5_ref (x * x))%float
  else if (y =? 1 / 3)%float then cbrt_ref x
  else NaN.

(** The colours a quantized image of each mode is made of.  The source
    declares no two-colour palette; black and white are the two colours
    [decodeProcessedData] produces in that mode. *)
Definition mode_colors (mode : DitherMode) : list ColorPaletteItem :=
  match mode with
  | blackWhiteColor => take 2 threeColorPalette
  | threeColor => threeColorPalette
  | fourColor => fourColorPalette
  | sixColor => rgbPalette
  end.

(** The RGBA bytes of the pixel in column [x] of row [y]. *)
Definition pixel (imageData : ImageData) (y x : nat) : option (Z * Z * Z * Z) :=
  let d := data imageData in
  let index := (y * width imageData + x) * 4 in
  r ← d !! index; g ← d !! (index + 1); b ← d !! (index + 2); a ← d !! (index + 3);
  Some (r, g, b, a).

(** An [ImageData] as the DOM builds it: no dimension is zero and [data]
    holds four bytes per pixel. *)
Definition ImageData_wf (imageData : ImageData) : Prop :=
  0 < width imageData /\ 0 < height imageData /\
  length (data imageData) = width imageData * height imageData * 4.

(** Every pixel is one of the colours of [mode], with the given alpha. *)
Definition quantized (mode : DitherMode) (alpha : Z) (imageData : ImageData) : Prop :=
  forall y x, y < height imageData -> x < width imageData ->
    exists c, c ∈ mode_colors mode /\
      pixel imageData y x =
        Some (ToUint8Clamp (item_r c), ToUint8Clamp (item_g c), ToUint8Clamp (item_b c), alpha).

(** The alpha bytes of two buffers agree, and so do their shapes. *)
Definition same_alpha (before after : ImageData) : Prop :=
  width after = width before /\ height after = height before /\
  length (data after) = length (data before) /\
  forall i, i mod 4 = 3 -> data after !! i = data before !! i.

(** The pixel coordinates [(y, x)] in the order the nested loops visit
    them. *)
Definition coords (width height : nat) : list (nat * nat) :=
  flat_map (fun y => map (fun x => (y, x)) (seq 0 width)) (seq 0 height).

(** The four bytes [write_rgba] stores. *)
Definition rgba_bytes (r g b a : float) : list Z :=
  [ToUint8Clamp r; ToUint8Clamp g; ToUint8Clamp b; ToUint8Clamp a].

(** Bit [t] (below 8) of byte [i] of a packed buffer; a cell is the pair
    [(i, t)]. *)
Definition bit_at (d : list Z) (c : nat * nat) : bool :=
  (snd c <? 8) && Z.testbit (read_u8 d (fst c)) (Z.of_nat (snd c)).

Definition bit_cell_ok (d : list Z) (c : nat * nat) : Prop :=
  fst c < length d /\ snd c < 8.

(** The bit [processImageData] computes for the black/white plane of pixel
    [(y, x)], and the one for the red/white plane. *)
Definition blackWhiteBit_of (data : list Z) (width y x : nat) : bool :=
  let index := (y * width + x) * 4 in
  (140 <=? grayscale_of (read data index) (read data (index + 1)) (read data (index + 2)))%float.

Definition redWhiteBit_of (data : list Z) (width y x : nat) : bool :=
  let index := (y * width + x) * 4 in
  negb ((160 <? read data index) && (read data (index + 1) <? read data index)
        && (read data (index + 2) <? read data index))%float.

(** The cell of pixel [(y, x)] in a one-bit-per-pixel plane. *)
Definition plane_cell (width y x : nat) : nat * nat :=
  (y * ceil_div width 8 + x / 8, 7 - x mod 8).

Definition plane_foot (width : nat) (p : nat * nat) (c : nat * nat) : bool :=
  (fst c =? fst (plane_cell width (fst p) (snd p)))
  && (snd c =? snd (plane_cell width (fst p) (snd p))).

(** The byte and the shift of pixel [(y, x)] in the two-bits-per-pixel
    layout, and the colour code packed for it. *)
Definition four_index (width y x : nat) : nat := (y * width + x) / 4.
Definition four_shift (x : nat) : nat := 6 - (x mod 4) * 2.

Definition four_foot (width : nat) (p : nat * nat) (c : nat * nat) : bool :=
  (fst c =? four_index width (fst p) (snd p))
  && ((snd c =? four_shift (snd p)) || (snd c =? four_shift (snd p) + 1)).

Definition four_value (Math_pow : float -> float -> float) (data : list Z)
    (width y x : nat) : Z :=
  let index := (y * width + x) * 4 in
  item_value (findClosestColor Math_pow (read data index) (read data (index + 1))
                (read data (index + 2)) fourColor).

(** A 3 x 2 image showing the six colours, and a 4 x 1 image showing the
    four colours of the four-colour mode. *)
Definition six_sample : ImageData :=
  mkImageData 3 2
    [ 255; 255; 0; 255;    41; 204; 20; 255;    0; 0; 255; 255;
      255; 0; 0; 255;      0; 0; 0; 255;        255; 255; 255; 255 ]%Z.

Definition four_sample : ImageData :=
  mkImageData 4 1
    [ 0; 0; 0; 255;    255; 255; 255; 255;    255; 0; 0; 255;    255; 255; 0; 255 ]%Z.

(** What [writeImage] hands to [write] for chunk number [k], counted from 0:
    the opcode, the header byte followed by the bytes of the chunk, and an
    acknowledgment request exactly when [k + 1] is a multiple of
    [interleavedCount + 1]. *)
Definition chunk_call (data : list Z) (step : Step) (chunkSize interleavedCount : Z)
    (k : nat) (rec : WriteRecord) : Prop :=
  w_cmd rec = EpdCmd.WRITE_IMG /\
  w_data rec = chunk_header step (Z.of_nat k * chunkSize)
                 :: js_slice data (Z.of_nat k * chunkSize) (Z.of_nat k * chunkSize + chunkSize) /\
  w_withResponse rec = ((Z.of_nat k + 1) mod (interleavedCount + 1) =? 0)%Z.

(** The image bytes carried by the calls [recs], in order. *)
Definition carried (recs : list WriteRecord) : list Z :=
  concat (map (fun rec => tail (w_data rec)) recs).

(** [keeps_alpha d0 d]: [d] has the length of [d0] and the same bytes at
    the alpha positions. *)
Definition keeps_alpha (d0 d : list Z) : Prop :=
  length d = length d0 /\ forall j, j mod 4 = 3 -> d !! j = d0 !! j.

(** The invariant of the Lab search loop after the entries [l]: nothing
    seen so far is below [minDistance], and either nothing has improved on
    [Infinity] or [closestColor] is the entry at some index [j] that every
    earlier entry is strictly farther than. *)
Definition search_inv (d : ColorPaletteItem -> float) (p0 : ColorPaletteItem)
    (l : list ColorPaletteItem) (st : float * ColorPaletteItem) : Prop :=
  (forall e, e ∈ l -> (d e <? fst st)%float = false) /\
  ((fst st = Infinity /\ snd st = p0) \/
   (exists j, l !! j = Some (snd st) /\ fst st = d (snd st) /\
      forall i e, i < j -> l !! i = Some e -> (d e <=? fst st)%float = false)).

(** ** Further notions: pixels of dithered images *)

(** The bytes of a palette entry's colour. *)
Definition color_bytes (c : ColorPaletteItem) : Z * Z * Z :=
  (ToUint8Clamp (item_r c), ToUint8Clamp (item_g c), ToUint8Clamp (item_b c)).

(** What [write_rgb] makes of a pixel: the colour of [closest], the old
    alpha. *)
Definition repaint (closest : ColorPaletteItem) (px : option (Z * Z * Z * Z))
    : option (Z * Z * Z * Z) :=
  match px with
  | Some (_, _, _, a) =>
      Some (ToUint8Clamp (item_r closest), ToUint8Clamp (item_g closest),
            ToUint8Clamp (item_b closest), a)
  | None => None
  end.

(** The pixel [bayerDither] computes from the pixel it reads at a position
    whose residues modulo 8 are [matrixY] and [matrixX]. *)
Definition bayer_pixel (Math_pow : float -> float -> float) (strength : float)
    (mode : DitherMode) (matrixY matrixX : nat) (px : Z * Z * Z * Z) : Z * Z * Z * Z :=
  let '(r, g, b, a) := px in
  let threshold := ((nth matrixX (nth matrixY bayerMatrix []) NaN / 64) * 255)%float in
  let adjust v := Math_min 255 (Math_max 0 (of_byte v + (threshold - 127.5) * strength)%float) in
  let closest := findClosestColor Math_pow (adjust r) (adjust g) (adjust b) mode in
  (ToUint8Clamp (item_r closest), ToUint8Clamp (item_g closest),
   ToUint8Clamp (item_b closest), a).

(** Whether the cell [(y, x)] is the pixel that the loop body of [p]
    writes: by linear index, so that cells outside the grid are covered. *)
Definition pixel_foot (width : nat) (p c : nat * nat) : bool :=
  fst c * width + snd c =? fst p * width + snd p.

(** A pixel with alpha byte [a], and one that moreover shows a colour of
    the palette [findClosestColor] searches in [mode]. *)
Definition has_alpha (a : Z) (px : option (Z * Z * Z * Z)) : Prop :=
  exists r g b, px = Some (r, g, b, a).

Definition painted (mode : DitherMode) (a : Z) (px : option (Z * Z * Z * Z)) : Prop :=
  exists c, c ∈ palette_of mode /\
    px = Some (ToUint8Clamp (item_r c), ToUint8Clamp (item_g c), ToUint8Clamp (item_b c), a).

(** The colour the panel shows for a pixel with channels [r], [g], [b]:
    what [processImageData] packs for it, as [decodeProcessedData] reads it
    back. *)
Definition shown_color (Math_pow : float -> float -> float) (mode : DitherMode)
    (r g b : float) : ColorPaletteItem :=
  match mode with
  | blackWhiteColor =>
      if (140 <=? grayscale_of r g b)%float
      then item_at threeColorPalette 1 else item_at threeColorPalette 0
  | threeColor =>
      if ((160 <? r) && (g <? r) && (b <? r))%float then item_at threeColorPalette 2
      else if (140 <=? grayscale_of r g b)%float
           then item_at threeColorPalette 1 else item_at threeColorPalette 0
  | fourColor => findClosestColor Math_pow r g b fourColor
  | sixColor => findClosestColor Math_pow r g b sixColor
  end.

(** Every pixel of the image has alpha 255. *)
Definition opaque (imageData : ImageData) : Prop :=
  forall y x, y < height imageData -> x < width imageData ->
    has_alpha 255 (pixel imageData y x).

(** The UC8159 code of the pixel [p] places from the left (0 to 7) of a
    pair of plane bytes: 4 where the colour plane has a 0 bit, otherwise 0
    where the black/white plane has a 0 bit, otherwise 3. *)
Definition uc8159_pixel (black_data color_data : Z) (p : nat) : Z :=
  if negb (Z.testbit color_data (Z.of_nat (7 - p))) then 4%Z
  else if negb (Z.testbit black_data (Z.of_nat (7 - p))) then 0%Z
  else 3%Z.

(** [j] rounds of [x = (x << 1) & 0xFF]. *)
Fixpoint shl_byte (j : nat) (z : Z) : Z :=
  match j with
  | O => z
  | S j => Z.land (Z.shiftl (shl_byte j z) 1) 255
  end.

(** How a write that passes the connection checks ends, given the outcomes
    the link has in store: an exhausted script delivers. *)
Definition status_on (link : list Outcome) : WriteStatus :=
  match link with
  | [] | Delivered :: _ => Sent
  | Rejected :: _ | LinkLost :: _ => Failed
  end.

(** A session on which every coming write is delivered. *)
Definition healthy (s : Session) : Prop :=
  epdCharacteristic s = true /\ connected s = true /\
  Forall (fun o => o = Delivered) (link s).

(** The bytes [sendimg] hands to [writeImage], all planes together. *)
Definition image_payload (Math_pow : float -> float -> float) (epddriver : option string)
    (imageData : ImageData) (mode : DitherMode) : list Z :=
  let processedData := processImageData Math_pow imageData mode in
  match mode with
  | threeColor =>
      if uses_UC8159 epddriver
      then convertUC8159 (slice_to processedData (length processedData / 2))
             (slice_from processedData (length processedData / 2))
      else processedData
  | blackWhiteColor =>
      if uses_UC8159 epddriver
      then convertUC8159 processedData (replicate (length processedData) 0xFF%Z)
      else processedData
  | _ => processedData
  end.

(** Every element is a byte, as in a [Uint8ClampedArray]. *)
Definition bytes_ok (d : list Z) : Prop := Forall (fun z => (0 <= z <= 255)%Z) d.

(** The 256 byte values. *)
Definition all_bytes : list Z := map Z.of_nat (seq 0 256).

(** A float that is [+0] or [-0]. *)
Definition pm_zero (e : float) : Prop := e = 0%float \/ e = (-0)%float.

(** The colour [requantize_pass] and the one-pass ditherers store for a
    pixel that reads [px]. *)
Definition nearest_pixel (Math_pow : float -> float -> float) (mode : DitherMode)
    (px : Z * Z * Z * Z) : Z * Z * Z * Z :=
  let '(r, g, b, a) := px in
  let closest := findClosestColor Math_pow (of_byte r) (of_byte g) (of_byte b) mode in
  (ToUint8Clamp (item_r closest), ToUint8Clamp (item_g closest),
   ToUint8Clamp (item_b closest), a).

(** Structural equality of two floats. *)
Definition same_float (a b : float) : bool :=
  match Prim2SF a, Prim2SF b with
  | S754_zero s, S754_zero s' => Bool.eqb s s'
  | S754_infinity s, S754_infinity s' => Bool.eqb s s'
  | S754_nan, S754_nan => true
  | S754_finite s m e, S754_finite s' m' e' => Bool.eqb s s' && (m =? m')%positive && (e =? e')%Z
  | _, _ => false
  end.

(** The index in [processedData] of the byte [decodeProcessedData] reads
    for pixel [(y, x)] (in the three-colour mode: of its red-plane byte),
    and the colour a pixel gets when that byte lies past the end. *)
Definition pixel_byte (mode : DitherMode) (w h y x : nat) : nat :=
  match mode with
  | sixColor => x * h + (h - 1 - y)
  | fourColor => (y * w + x) / 4
  | blackWhiteColor => y * ceil_div w 8 + x / 8
  | threeColor => ceil_div w 8 * h + (y * ceil_div w 8 + x / 8)
  end.

Definition missing_color (mode : DitherMode) : ColorPaletteItem :=
  match mode with
  | sixColor => item_at rgbPalette 5
  | fourColor => item_at fourColorPalette 0
  | blackWhiteColor => item_at threeColorPalette 0
  | threeColor => item_at threeColorPalette 2
  end.

(** * Properties *)

(** ** Order facts about binary64 comparisons *)

Section FloatOrder.

Local Open Scope float_scope.

Ltac sf_cases :=
  repeat match goal with
  | |- context [Z.compare ?a ?b] => destruct (Z.compare_spec a b); subst
  | |- context [Pos.compare_cont Eq ?a ?b] =>
      change (Pos.compare_cont Eq a b) with (Pos.compare a b);
      destruct (Pos.compare_spec a b); subst
  | H : context [Z.compare ?a ?b] |- _ => destruct (Z.compare_spec a b); subst
  | H : context [Pos.compare_cont Eq ?a ?b] |- _ =>
      change (Pos.compare_cont Eq a b) with (Pos.compare a b) in H;
      destruct (Pos.compare_spec a b); subst
  end; simpl in *; try congruence; try lia.

Lemma SF_leb_ltb_trans a b c :
  SFleb a b = true -> SFltb b c = true -> SFltb a c = true.
Proof.
  unfold SFleb, SFltb, SFcompare.
  destruct a as [sa|sa| |sa ma ea], b as [sb|sb| |sb mb eb], c as [sc|sc| |sc mc ec];
    try destruct sa; try destruct sb; try destruct sc; simpl; try congruence;
    intros H1 H2; sf_cases.
Qed.

Lemma float_leb_ltb_trans x y z :
  (x <=? y) = true -> (y <? z) = true -> (x <? z) = true.
Proof. rewrite FloatAxioms.leb_spec, !FloatAxioms.ltb_spec. apply SF_leb_ltb_trans. Qed.

Lemma float_ltb_leb x y : (x <? y) = true -> (x <=? y) = true.
Proof.
  rewrite FloatAxioms.leb_spec, FloatAxioms.ltb_spec. unfold SFleb, SFltb.
  destruct (SFcompare _ _) as [[]|]; congruence.
Qed.

Lemma float_eqb_leb x y : (x =? y) = true -> (x <=? y) = true.
Proof.
  rewrite FloatAxioms.leb_spec, FloatAxioms.eqb_spec. unfold SFleb, SFeqb.
  destruct (SFcompare _ _) as [[]|]; congruence.
Qed.

Lemma float_ltb_trans x y z :
  (x <? y) = true -> (y <? z) = true -> (x <? z) = true.
Proof. intros H. apply float_leb_ltb_trans, float_ltb_leb, H. Qed.

(** Two values that are not below [Infinity] are NaN or [Infinity], and
    neither is below the other. *)
Lemma float_not_below_Infinity x y :
  (x <? Infinity) = false -> (y <? Infinity) = false -> (y <? x) = false.
Proof.
  rewrite !FloatAxioms.ltb_spec. change (Prim2SF Infinity) with (S754_infinity false).
  unfold SFltb, SFcompare.
  destruct (Prim2SF x) as [sa|sa| |sa ma ea], (Prim2SF y) as [sb|sb| |sb mb eb];
    try destruct sa; try destruct sb; simpl; congruence.
Qed.


Lemma float_ltb_irrefl x : (x <? x) = false.
Proof.
  rewrite FloatAxioms.ltb_spec. unfold SFltb, SFcompare.
  destruct (Prim2SF x) as [s|s| |s m e]; try destruct s; simpl; try reflexivity.
  - rewrite Z.compare_refl. 
    change (Pos.compare_cont Eq m m) with (Pos.compare m m).
    rewrite Pos.compare_refl. reflexivity.
  - rewrite Z.compare_refl.
    change (Pos.compare_cont Eq m m) with (Pos.compare m m).
    rewrite Pos.compare_refl. reflexivity.
Qed.
Lemma float_eqb_ltb_trans x y z :
  (x =? y) = true -> (y <? z) = true -> (x <? z) = true.
Proof. intros H. apply float_leb_ltb_trans, float_eqb_leb, H. Qed.

End FloatOrder.

(** ** The colour quantizer *)


Section QuantizerFacts.
Local Open Scope float_scope.
Variable Math_pow : float -> float -> float.

Lemma findClosestColor_unfold r g b mode :
  findClosestColor Math_pow r g b mode =
    if blue_guard r g b mode then item_at rgbPalette 2
    else if DitherMode_eqb mode threeColor then
      if (120 <? r) && (g * 1.5 <? r) && (b * 1.5 <? r) then item_at threeColorPalette 2
      else if 0.299 * r + 0.587 * g + 0.114 * b <? 128
           then item_at threeColorPalette 0 else item_at threeColorPalette 1
    else snd (fold_left (closest_step Math_pow (rgbToLab Math_pow r g b))
                (palette_of mode) (Infinity, item_at (palette_of mode) 0)).
Proof. destruct mode; reflexivity. Qed.

Section LabSearch.
Variables r g b : float.
Let d := lab_dist Math_pow r g b.
Let step := closest_step Math_pow (rgbToLab Math_pow r g b).

Lemma closest_loop p0 l : search_inv d p0 l (fold_left step l (Infinity, p0)).
Proof.
  induction l as [|x l IH] using rev_ind.
  - split; [intros e He; inversion He | left; split; reflexivity].
  - rewrite fold_left_app. simpl.
    destruct IH as [Hmin Hcase].
    set (st := fold_left step l (Infinity, p0)) in *.
    change (step st x) with (if d x <? fst st then (d x, x) else st).
    destruct (d x <? fst st) eqn:Hlt.
    + split; simpl.
      * intros e He. apply elem_of_app in He as [He|He].
        -- destruct (d e <? d x) eqn:E; [|reflexivity].
           rewrite <- (Hmin e He). symmetry. apply (float_ltb_trans _ _ _ E Hlt).
        -- apply list_elem_of_singleton in He as ->. apply float_ltb_irrefl.
      * right. exists (length l). split; [|split].
        -- rewrite lookup_app_r by lia. rewrite Nat.sub_diag. reflexivity.
        -- reflexivity.
        -- intros i e Hi He. rewrite lookup_app_l in He by lia.
           destruct (d e <=? d x) eqn:E; [|reflexivity].
           rewrite <- (Hmin e); [symmetry; apply (float_leb_ltb_trans _ _ _ E Hlt)|].
           apply list_elem_of_lookup. eauto.
    + split.
      * intros e He. apply elem_of_app in He as [He|He]; [auto|].
        apply list_elem_of_singleton in He as ->. exact Hlt.
      * destruct Hcase as [H|(j & Hj & Hd & Hfirst)]; [left; exact H|right].
        exists j. split; [|split; [exact Hd|]].
        -- apply lookup_app_l_Some. exact Hj.
        -- intros i e Hi He. apply (Hfirst i e Hi).
           rewrite lookup_app_l in He; [exact He|].
           apply lookup_lt_Some in Hj. lia.
Qed.
End LabSearch.
End QuantizerFacts.

Section QuantizerClaims.
Local Open Scope float_scope.

Lemma palette_head mode : palette_of mode !! 0%nat = Some (item_at (palette_of mode) 0).
Proof. destruct mode; reflexivity. Qed.

Lemma blue_guard_palette r g b mode :
  blue_guard r g b mode = true -> palette_of mode = rgbPalette.
Proof. destruct mode; simpl; try reflexivity; unfold blue_guard; simpl; discriminate. Qed.

(** What the Lab search returns: an entry no other entry is strictly
    closer than, and which every earlier entry is strictly farther than. *)
Lemma lab_search_result (Math_pow : float -> float -> float) (r g b : float) (mode : DitherMode) :
  lab_search_reached r g b mode = true ->
  exists j, palette_of mode !! j = Some (findClosestColor Math_pow r g b mode) /\
    (forall e, e ∈ palette_of mode ->
       (lab_dist Math_pow r g b e <?
        lab_dist Math_pow r g b (findClosestColor Math_pow r g b mode)) = false) /\
    (forall i e, (i < j)%nat -> palette_of mode !! i = Some e ->
       (lab_dist Math_pow r g b e <=?
        lab_dist Math_pow r g b (findClosestColor Math_pow r g b mode)) = false).
Proof.
  intros Hreach. unfold lab_search_reached in Hreach.
  apply andb_true_iff in Hreach as [Hb H3].
  apply negb_true_iff in Hb, H3.
  rewrite findClosestColor_unfold, Hb, H3.
  destruct (closest_loop Math_pow r g b (item_at (palette_of mode) 0) (palette_of mode))
    as [Hmin [[Hinf Hp0]|(j & Hj & Hd & Hfirst)]].
  - exists 0%nat. rewrite Hp0. split; [apply palette_head|split].
    + intros e He. apply float_not_below_Infinity.
      * rewrite <- Hinf. apply Hmin. apply list_elem_of_lookup. exists 0%nat. apply palette_head.
      * rewrite <- Hinf. apply Hmin, He.
    + intros i e Hi. lia.
  - exists j. split; [exact Hj|split].
    + intros e He. rewrite <- Hd. apply Hmin, He.
    + intros i e Hi He. rewrite <- Hd. apply (Hfirst i e Hi He).
Qed.

Lemma findClosestColor_in_palette (Math_pow : float -> float -> float) (r g b : float)
    (mode : DitherMode) :
  findClosestColor Math_pow r g b mode ∈ palette_of mode.
Proof.
  destruct (lab_search_reached r g b mode) eqn:Hreach.
  - destruct (lab_search_result Math_pow r g b mode Hreach) as (j & Hj & _).
    apply list_elem_of_lookup. eauto.
  - rewrite findClosestColor_unfold.
    unfold lab_search_reached in Hreach.
    destruct (blue_guard r g b mode) eqn:Hb.
    + rewrite (blue_guard_palette _ _ _ _ Hb). apply list_elem_of_lookup. exists 2%nat. reflexivity.
    + simpl in Hreach. apply negb_false_iff in Hreach. rewrite Hreach.
      destruct mode; try discriminate. simpl.
      destruct (_ && _); [|destruct (_ <? _)]; apply list_elem_of_lookup;
        [exists 2%nat|exists 0%nat|exists 1%nat]; reflexivity.
Qed.

(** C2 (as amended): [findClosestColor] is a function of its arguments, so
    total and deterministic; its result is always an entry of the palette
    its first statement selects (the three-colour palette in
    [threeColor] mode, the four-colour palette in [fourColor] mode, the
    six-colour [rgbPalette] in both [sixColor] and [blackWhiteColor]
    modes); and whenever the Lab search is reached, the result is the first
    entry in declaration order of minimal distance: no entry is strictly
    closer, and no earlier entry is as close. *)
Theorem findClosestColor_member_first_minimal (Math_pow : float -> float -> float)
    (r g b : float) (mode : DitherMode) :
  let c := findClosestColor Math_pow r g b mode in
  let d := lab_dist Math_pow r g b in
  c ∈ palette_of mode /\
  (lab_search_reached r g b mode = true ->
     exists j, palette_of mode !! j = Some c /\
       (forall e, e ∈ palette_of mode -> (d e <? d c) = false) /\
       (forall i e, (i < j)%nat -> palette_of mode !! i = Some e -> (d e <=? d c) = false)).
Proof.
  intros c d. subst c d. split.
  - apply findClosestColor_in_palette.
  - apply lab_search_result.
Qed.

(** C2, counterexample: in two-colour mode the input (0, 0, 255) is
    answered with the blue entry of [rgbPalette], which is neither black
    nor white. *)
Lemma findClosestColor_two_color_not_black_white :
  exists r g b, forall Math_pow,
    findClosestColor Math_pow r g b blackWhiteColor = mkColor "蓝色" 0 0 255 0x1d /\
    findClosestColor Math_pow r g b blackWhiteColor ∉ mode_colors blackWhiteColor.
Proof.
  exists 0, 0, 255. intros Math_pow.
  assert (E : findClosestColor Math_pow 0 0 255 blackWhiteColor = mkColor "蓝色" 0 0 255 0x1d)
    by reflexivity.
  split; [exact E|]. rewrite E. simpl.
  intros H. repeat (apply elem_of_cons in H as [H|H]; [discriminate H|]).
  inversion H.
Qed.

Lemma blue_not_four_color : mkColor "蓝色" 0 0 255 0x1d ∉ fourColorPalette.
Proof.
  intros H. unfold fourColorPalette in H.
  repeat (apply elem_of_cons in H as [H|H]; [discriminate H|]).
  inversion H.
Qed.

(** C3 (as amended): in the two-colour and six-colour modes, every input
    with [r < 50], [g < 150] and [b > 100] is answered with the blue entry
    of the six-colour palette, whatever [Math.pow] does: the Lab search
    is not consulted. *)
Theorem blue_shortcut (Math_pow : float -> float -> float) (r g b : float)
    (mode : DitherMode) :
  mode = blackWhiteColor \/ mode = sixColor ->
  (r <? 50) = true -> (g <? 150) = true -> (100 <? b) = true ->
  findClosestColor Math_pow r g b mode = mkColor "蓝色" 0 0 255 0x1d.
Proof.
  intros Hmode Hr Hg Hb. rewrite findClosestColor_unfold.
  unfold blue_guard. rewrite Hr, Hg, Hb.
  destruct Hmode as [-> | ->]; reflexivity.
Qed.

(** C3, counterexample: in four-colour mode the shortcut is off; the
    input (0, 0, 255) satisfies the three tests, yet the answer is an
    entry of the four-colour palette, which has no blue. *)
Lemma blue_shortcut_off_in_fourColor :
  exists r g b,
    ((r <? 50) = true /\ (g <? 150) = true /\ (100 <? b) = true) /\
    forall Math_pow, findClosestColor Math_pow r g b fourColor <> mkColor "蓝色" 0 0 255 0x1d.
Proof.
  exists 0, 0, 255. split; [repeat split; reflexivity|].
  intros Math_pow E. apply blue_not_four_color. rewrite <- E.
  apply (findClosestColor_in_palette Math_pow 0 0 255 fourColor).
Qed.


End QuantizerClaims.

Lemma blue_shortcut_witness :
  (sixColor = blackWhiteColor \/ sixColor = sixColor) /\
  (0 <? 50)%float = true /\ (0 <? 150)%float = true /\ (100 <? 255)%float = true /\
  findClosestColor Math_pow_ref 0 0 255 sixColor = mkColor "蓝色" 0 0 255 0x1d.
Proof.
  split; [right; reflexivity|].
  split; [reflexivity|]. split; [reflexivity|]. split; [reflexivity|].
  apply (blue_shortcut Math_pow_ref 0 0 255 sixColor); [right|..]; reflexivity.
Defined.

(** The Lab search case of [findClosestColor_member_first_minimal] on a
    light grey in six-colour mode. *)
Lemma findClosestColor_member_first_minimal_witness :
  lab_search_reached 200 200 200 sixColor = true /\
  findClosestColor Math_pow_ref 200 200 200 sixColor ∈ palette_of sixColor /\
  exists j, palette_of sixColor !! j = Some (findClosestColor Math_pow_ref 200 200 200 sixColor) /\
    (forall e, e ∈ palette_of sixColor ->
       (lab_dist Math_pow_ref 200 200 200 e <?
        lab_dist Math_pow_ref 200 200 200
          (findClosestColor Math_pow_ref 200 200 200 sixColor))%float = false) /\
    (forall i e, i < j -> palette_of sixColor !! i = Some e ->
       (lab_dist Math_pow_ref 200 200 200 e <=?
        lab_dist Math_pow_ref 200 200 200
          (findClosestColor Math_pow_ref 200 200 200 sixColor))%float = false).
Proof.
  split; [reflexivity|].
  split.
  - exact (proj1 (findClosestColor_member_first_minimal Math_pow_ref 200 200 200 sixColor)).
  - exact (proj2 (findClosestColor_member_first_minimal Math_pow_ref 200 200 200 sixColor)
             eq_refl).
Defined.


(** ** Loops and buffers *)

Lemma for_yx_ind {St : Type} (P : St -> Prop) (width height : nat)
    (body : nat -> nat -> St -> St) (s : St) :
  (forall y x s, y < height -> x < width -> P s -> P (body y x s)) ->
  P s -> P (for_yx width height body s).
Proof.
  intros Hbody. unfold for_yx.
  assert (Hrow : forall y s, y < height -> P s ->
            P (fold_left (fun s x => body y x s) (seq 0 width) s)).
  { intros y s0 Hy.
    assert (G : forall l s, (forall x, x ∈ l -> x < width) -> P s ->
              P (fold_left (fun s x => body y x s) l s)).
    { induction l as [|x l IH]; intros s1 Hl Hs; simpl; [exact Hs|].
      apply IH.
      - intros x' Hx'. apply Hl. right. exact Hx'.
      - apply Hbody; [exact Hy| |exact Hs]. apply Hl. left. }
    apply G. intros x Hx. apply elem_of_seq in Hx. lia. }
  assert (G : forall l s, (forall y, y ∈ l -> y < height) -> P s ->
            P (fold_left (fun s y => fold_left (fun s x => body y x s) (seq 0 width) s) l s)).
  { induction l as [|y l IH]; intros s1 Hl Hs; simpl; [exact Hs|].
    apply IH.
    - intros y' Hy'. apply Hl. right. exact Hy'.
    - apply Hrow; [|exact Hs]. apply Hl. left. }
  apply G. intros y Hy. apply elem_of_seq in Hy. lia.
Qed.

Lemma length_store_clamped d i v : length (store_clamped d i v) = length d.
Proof. apply length_insert. Qed.

Lemma length_store_u8 d i v : length (store_u8 d i v) = length d.
Proof. apply length_insert. Qed.

Lemma length_or_assign d i v : length (or_assign d i v) = length d.
Proof. apply length_insert. Qed.

Lemma length_and_assign d i v : length (and_assign d i v) = length d.
Proof. apply length_insert. Qed.

Lemma length_new_array n : length (new_array n) = n.
Proof. apply length_replicate. Qed.

(** [ceil_div a b] is the ceiling of [a / b]: the least [n] with
    [a <= n * b]. *)
Lemma ceil_div_least a b :
  0 < b -> a <= ceil_div a b * b /\ forall n, a <= n * b -> ceil_div a b <= n.
Proof.
  intros Hb. unfold ceil_div. split.
  - pose proof (Nat.div_mod_eq (a + (b - 1)) b) as E.
    pose proof (Nat.mod_upper_bound (a + (b - 1)) b ltac:(lia)) as U.
    revert E U. generalize ((a + (b - 1)) / b), ((a + (b - 1)) mod b). intros q m E U. lia.
  - intros n Hn.
    pose proof (Nat.div_mod_eq (a + (b - 1)) b) as E.
    pose proof (Nat.mod_upper_bound (a + (b - 1)) b ltac:(lia)) as U.
    revert E U. generalize ((a + (b - 1)) / b), ((a + (b - 1)) mod b). intros q m E U. nia.
Qed.

(** ** Payload length *)

(** C7: the length of the payload [processImageData] builds is a function
    of the width, the height and the colour mode alone, whatever the pixel
    bytes (and whatever [Math.pow] answers): [width * height] bytes in
    six-colour mode, [ceil(width * height / 4)] in four-colour mode,
    [ceil(width / 8) * height] in two-colour mode and twice that in
    three-colour mode. *)
Theorem processImageData_length (Math_pow : float -> float -> float) (imageData : ImageData)
    (mode : DitherMode) :
  length (processImageData Math_pow imageData mode) =
    match mode with
    | sixColor => width imageData * height imageData
    | fourColor => ceil_div (width imageData * height imageData) 4
    | blackWhiteColor => ceil_div (width imageData) 8 * height imageData
    | threeColor => 2 * (ceil_div (width imageData) 8 * height imageData)
    end.
Proof.
  destruct imageData as [w h d]. unfold processImageData. simpl.
  destruct mode.
  - apply (for_yx_ind (fun p => length p = ceil_div w 8 * h)).
    + intros y x s _ _ Hs. unfold pack_blackWhite. rewrite length_or_assign. exact Hs.
    + apply length_new_array.
  - pose proof (for_yx_ind
      (fun st : list Z * list Z => length (fst st) = h * ceil_div w 8 /\
                                   length (snd st) = h * ceil_div w 8)
      w h (pack_threeColor w d) (new_array (h * ceil_div w 8), new_array (h * ceil_div w 8))) as H.
    destruct (for_yx w h (pack_threeColor w d) _) as [bwd rwd].
    rewrite length_app.
    destruct H as [H1 H2]; [| |simpl in *; lia].
    + intros y x [s1 s2] _ _ [Hs1 Hs2]. unfold pack_threeColor. simpl. split.
      * destruct (_ <=? _)%float; rewrite ?length_or_assign, ?length_and_assign; exact Hs1.
      * destruct (negb _); rewrite ?length_or_assign, ?length_and_assign; exact Hs2.
    + simpl. rewrite !length_new_array. split; reflexivity.
  - apply (for_yx_ind (fun p => length p = ceil_div (w * h) 4)).
    + intros y x s _ _ Hs. unfold pack_fourColor. rewrite length_or_assign. exact Hs.
    + apply length_new_array.
  - apply (for_yx_ind (fun p => length p = w * h)).
    + intros y x s _ _ Hs. unfold pack_sixColor. rewrite length_store_u8. exact Hs.
    + apply length_new_array.
Qed.

(** ** Dithering: what is written *)

Lemma idx_mod4 k c : c < 4 -> (k * 4 + c) mod 4 = c.
Proof.
  intros Hc. rewrite Nat.add_comm, Nat.Div0.mod_add. apply Nat.mod_small, Hc.
Qed.

Lemma keeps_alpha_refl d : keeps_alpha d d.
Proof. split; [reflexivity|]. intros; reflexivity. Qed.

Lemma keeps_alpha_store d0 d i v :
  i mod 4 <> 3 -> keeps_alpha d0 d -> keeps_alpha d0 (store_clamped d i v).
Proof.
  intros Hi [Hlen Ha]. split.
  - rewrite length_store_clamped. exact Hlen.
  - intros j Hj. unfold store_clamped. rewrite list_lookup_insert_ne by congruence.
    apply Ha, Hj.
Qed.

Lemma keeps_alpha_write_rgb d0 d k closest :
  keeps_alpha d0 d -> keeps_alpha d0 (write_rgb d (k * 4) closest).
Proof.
  intros H. unfold write_rgb.
  apply keeps_alpha_store; [rewrite (idx_mod4 k 2); lia|].
  apply keeps_alpha_store; [rewrite (idx_mod4 k 1); lia|].
  apply keeps_alpha_store; [|exact H].
  replace (k * 4) with (k * 4 + 0) by lia. rewrite (idx_mod4 k 0); lia.
Qed.

Lemma keeps_alpha_adjustContrast_step factor d0 d k :
  keeps_alpha d0 d -> keeps_alpha d0 (adjustContrast_step factor d (4 * k)).
Proof.
  intros H. unfold adjustContrast_step. replace (4 * k) with (k * 4) by lia.
  apply keeps_alpha_store; [rewrite (idx_mod4 k 2); lia|].
  apply keeps_alpha_store; [rewrite (idx_mod4 k 1); lia|].
  apply keeps_alpha_store; [|exact H].
  replace (k * 4) with (k * 4 + 0) by lia. rewrite (idx_mod4 k 0); lia.
Qed.

Lemma same_alpha_of_keeps (before : ImageData) (d : list Z) :
  keeps_alpha (data before) d ->
  same_alpha before (mkImageData (width before) (height before) d).
Proof. intros [Hlen Ha]. repeat split; simpl; assumption. Qed.

Lemma adjustContrast_same_alpha (imageData : ImageData) (factor : float) :
  same_alpha imageData (adjustContrast imageData factor).
Proof.
  unfold adjustContrast. apply same_alpha_of_keeps.
  generalize (seq 0 (ceil_div (length (data imageData)) 4)). intros l.
  assert (G : forall d, keeps_alpha (data imageData) d ->
            keeps_alpha (data imageData)
              (fold_left (adjustContrast_step factor) (map (fun k => 4 * k) l) d)).
  { induction l as [|k l IH]; intros d Hd; simpl; [exact Hd|].
    apply IH, keeps_alpha_adjustContrast_step, Hd. }
  apply G, keeps_alpha_refl.
Qed.

Section DitherFrame.

Variable Math_pow : float -> float -> float.

Lemma requantize_pass_keeps width height mode tempData d0 d :
  keeps_alpha d0 d -> keeps_alpha d0 (requantize_pass Math_pow width height mode tempData d).
Proof.
  intros H. unfold requantize_pass. apply for_yx_ind; [|exact H].
  intros y x s _ _ Hs. apply keeps_alpha_write_rgb, Hs.
Qed.

Lemma ditherImage_same_alpha (imageData : ImageData) (alg : DitherAlgorithm)
    (strength : float) (mode : DitherMode) :
  same_alpha imageData (ditherImage Math_pow imageData alg strength mode).
Proof.
  destruct alg; simpl.
  - apply same_alpha_of_keeps, requantize_pass_keeps, keeps_alpha_refl.
  - unfold atkinsonDither. apply same_alpha_of_keeps.
    apply (for_yx_ind (fun st : list Z * list Z => keeps_alpha (data imageData) (snd st)));
      [|apply keeps_alpha_refl].
    intros y x [t d] _ _ Hd. unfold atkinson_body. simpl.
    apply keeps_alpha_write_rgb, Hd.
  - unfold bayerDither. apply same_alpha_of_keeps.
    apply for_yx_ind; [|apply keeps_alpha_refl].
    intros y x d _ _ Hd. unfold bayer_body. apply keeps_alpha_write_rgb, Hd.
  - apply same_alpha_of_keeps, requantize_pass_keeps, keeps_alpha_refl.
  - unfold jarvisDither. apply same_alpha_of_keeps.
    apply (for_yx_ind (fun st : list Z * list Z => keeps_alpha (data imageData) (snd st)));
      [|apply keeps_alpha_refl].
    intros y x [t d] _ _ Hd. unfold jarvis_body. simpl.
    apply keeps_alpha_write_rgb, Hd.
  - destruct imageData. repeat split; reflexivity.
Qed.

End DitherFrame.

(** C9: [adjustContrast] and every algorithm [ditherImage] dispatches to
    ([floydSteinberg], [atkinson], [stucki], [jarvis], [bayer], [none])
    return a buffer of the same width, height and length whose alpha bytes
    (every fourth byte) are those of the input, for every buffer, contrast
    factor, strength, colour mode and [Math.pow]. *)
Theorem alpha_untouched (Math_pow : float -> float -> float) (imageData : ImageData)
    (factor strength : float) (mode : DitherMode) (alg : DitherAlgorithm) :
  same_alpha imageData (adjustContrast imageData factor) /\
  same_alpha imageData (ditherImage Math_pow imageData alg strength mode).
Proof.
  split; [apply adjustContrast_same_alpha | apply ditherImage_same_alpha].
Qed.

(** C8 (as amended): with the algorithm ['none'], [ditherImage] returns the
    image exactly as it received it, for every image, strength and colour
    mode: nothing is perturbed and nothing is quantized. *)
Theorem ditherImage_none_identity (Math_pow : float -> float -> float) (imageData : ImageData)
    (strength : float) (mode : DitherMode) :
  ditherImage Math_pow imageData none strength mode = imageData.
Proof. reflexivity. Qed.

(** C8, counterexample: the one-pixel image (100, 100, 100, 255) in
    three-colour mode.  [findClosestColor] sends that pixel to black, but
    ['none'] leaves it at (100, 100, 100). *)
Lemma ditherImage_none_does_not_quantize :
  exists imageData : ImageData, forall Math_pow strength,
    pixel imageData 0 0 = Some (100, 100, 100, 255)%Z /\
    findClosestColor Math_pow (of_byte 100) (of_byte 100) (of_byte 100) threeColor
      = mkColor "黑色" 0 0 0 0x00 /\
    pixel (ditherImage Math_pow imageData none strength threeColor) 0 0
      = Some (100, 100, 100, 255)%Z.
Proof.
  exists (mkImageData 1 1 [100; 100; 100; 255]%Z). intros Math_pow strength.
  repeat split.
Qed.

(** ** The BLE transfer *)

Lemma write_wire cmd data withResponse s :
  exists st, wire (fst (write cmd data withResponse s)) =
             wire s ++ [mkWrite cmd data withResponse st].
Proof.
  unfold write.
  destruct (negb (epdCharacteristic s)); [eexists; reflexivity|].
  destruct (negb (connected s)); [eexists; reflexivity|].
  destruct (link s) as [|[] rest]; eexists; reflexivity.
Qed.

Lemma js_slice_drop (d : list Z) (i c : Z) :
  (0 <= i)%Z -> (0 < c)%Z ->
  js_slice d i (i + c) ++ drop (Z.to_nat (i + c)) d = drop (Z.to_nat i) d.
Proof.
  intros Hi Hc. unfold js_slice.
  destruct (Z.ltb_spec i 0) as [?|_]; [lia|].
  destruct (Z.ltb_spec (i + c) 0) as [?|_]; [lia|].
  destruct (Z.le_gt_cases (Z.of_nat (length d)) i) as [Hge|Hlt].
  - rewrite !Z.min_r by lia. rewrite Z.sub_diag. simpl.
    rewrite !drop_ge by lia. reflexivity.
  - rewrite (Z.min_l i) by lia.
    destruct (Z.le_gt_cases (i + c) (Z.of_nat (length d))) as [Hin|Hout].
    + rewrite Z.min_l by lia.
      replace (Z.to_nat (i + c)) with (Z.to_nat i + Z.to_nat (i + c - i)) by lia.
      rewrite <- drop_drop. apply take_drop.
    + rewrite Z.min_r by lia. rewrite (drop_ge d (Z.to_nat (i + c))) by lia.
      rewrite app_nil_r. apply take_ge. rewrite length_drop. lia.
Qed.

Lemma Z_mod_succ k m :
  (0 < m)%Z -> ((k + 1) mod m = if (k mod m + 1 =? m) then 0 else k mod m + 1)%Z.
Proof.
  intros Hm. destruct (Z.eqb_spec (k mod m + 1) m) as [E|E].
  - apply eq_sym, Z.mod_unique with (q := (k / m + 1)%Z); [left; lia|].
    pose proof (Z.div_mod k m ltac:(lia)). nia.
  - pose proof (Z.mod_pos_bound k m Hm).
    apply eq_sym, Z.mod_unique with (q := (k / m)%Z); [left; lia|].
    pose proof (Z.div_mod k m ltac:(lia)). nia.
Qed.

Section WriteImage.

Variables (data : list Z) (step : Step) (chunkSize interleavedCount : Z).
Hypothesis chunk_pos : (0 < chunkSize)%Z.
Hypothesis interleave_nonneg : (0 <= interleavedCount)%Z.

Lemma writeImage_loop_spec (fuel k : nat) (noReplyCount : Z) (s : Session) :
  (Z.of_nat (length data) <= Z.of_nat k * chunkSize + Z.of_nat fuel)%Z ->
  noReplyCount = (interleavedCount - Z.of_nat k mod (interleavedCount + 1))%Z ->
  exists s' recs,
    writeImage_loop fuel data step chunkSize interleavedCount
      (Z.of_nat k * chunkSize) noReplyCount s = Some s' /\
    wire s' = wire s ++ recs /\
    length recs = ceil_div (length data) (Z.to_nat chunkSize) - k /\
    (forall j rec, recs !! j = Some rec ->
       chunk_call data step chunkSize interleavedCount (k + j) rec) /\
    carried recs = drop (Z.to_nat (Z.of_nat k * chunkSize)) data.
Proof.
  assert (Hc : 0 < Z.to_nat chunkSize) by lia.
  destruct (ceil_div_least (length data) (Z.to_nat chunkSize) Hc) as [Hup Hleast].
  revert k noReplyCount s.
  induction fuel as [|fuel IH]; intros k n0 s Hfuel Hn0.
  - exists s, []. simpl.
    destruct (Z.leb_spec (Z.of_nat (length data)) (Z.of_nat k * chunkSize)) as [Hle|Hgt]; [|lia].
    split; [reflexivity|]. split; [|split; [|split]].
    + rewrite app_nil_r. reflexivity.
    + simpl. specialize (Hleast k). nia.
    + intros j rec Hj. discriminate Hj.
    + rewrite drop_ge by lia. reflexivity.
  - simpl.
    destruct (Z.leb_spec (Z.of_nat (length data)) (Z.of_nat k * chunkSize)) as [Hle|Hgt].
    + exists s, []. split; [reflexivity|]. split; [|split; [|split]].
      * rewrite app_nil_r. reflexivity.
      * simpl. specialize (Hleast k). nia.
      * intros j rec Hj. discriminate Hj.
      * rewrite drop_ge by lia. reflexivity.
    + assert (Hk : k < ceil_div (length data) (Z.to_nat chunkSize)) by nia.
      pose proof (Z.mod_pos_bound (Z.of_nat k) (interleavedCount + 1) ltac:(lia)) as Hmod.
      pose proof (Z_mod_succ (Z.of_nat k) (interleavedCount + 1) ltac:(lia)) as Hsucc.
      set (payload := chunk_header step (Z.of_nat k * chunkSize)
             :: js_slice data (Z.of_nat k * chunkSize) (Z.of_nat k * chunkSize + chunkSize)).
      assert (Hnext : (Z.of_nat k * chunkSize + chunkSize = Z.of_nat (S k) * chunkSize)%Z) by lia.
      destruct (Z.ltb_spec 0 n0) as [Hpos|Hzero].
      * destruct (write_wire EpdCmd.WRITE_IMG payload false s) as [st Hw].
        destruct (write EpdCmd.WRITE_IMG payload false s) as [s1 ok]. simpl in Hw.
        rewrite Hnext.
        destruct (IH (S k) (n0 - 1)%Z s1) as (s' & recs & Hrun & Hwire & Hlen & Hrec & Hcar).
        { lia. }
        { replace (Z.of_nat (S k)) with (Z.of_nat k + 1)%Z by lia. rewrite Hsucc.
          destruct (Z.eqb_spec (Z.of_nat k mod (interleavedCount + 1) + 1)
                      (interleavedCount + 1)); lia. }
        exists s', (mkWrite EpdCmd.WRITE_IMG payload false st :: recs).
        split; [exact Hrun|]. split; [|split; [|split]]; cycle 3.
        { unfold carried in *. simpl. rewrite Hcar, <- Hnext.
          apply js_slice_drop; lia. }
        -- rewrite Hwire, Hw, <- app_assoc. reflexivity.
        -- simpl. lia.
        -- intros [|j] rec Hj.
           ++ injection Hj as <-. rewrite Nat.add_0_r.
              split; [reflexivity|]. split; [reflexivity|]. simpl.
              rewrite Hsucc.
              destruct (Z.eqb_spec (Z.of_nat k mod (interleavedCount + 1) + 1)
                          (interleavedCount + 1)); [lia|].
              symmetry. apply Z.eqb_neq. lia.
           ++ replace (k + S j) with (S k + j) by lia. apply Hrec, Hj.
      * destruct (write_wire EpdCmd.WRITE_IMG payload true s) as [st Hw].
        destruct (write EpdCmd.WRITE_IMG payload true s) as [s1 ok]. simpl in Hw.
        rewrite Hnext.
        destruct (IH (S k) interleavedCount s1) as (s' & recs & Hrun & Hwire & Hlen & Hrec & Hcar).
        { lia. }
        { replace (Z.of_nat (S k)) with (Z.of_nat k + 1)%Z by lia. rewrite Hsucc.
          destruct (Z.eqb_spec (Z.of_nat k mod (interleavedCount + 1) + 1)
                      (interleavedCount + 1)); lia. }
        exists s', (mkWrite EpdCmd.WRITE_IMG payload true st :: recs).
        split; [exact Hrun|]. split; [|split; [|split]]; cycle 3.
        { unfold carried in *. simpl. rewrite Hcar, <- Hnext.
          apply js_slice_drop; lia. }
        -- rewrite Hwire, Hw, <- app_assoc. reflexivity.
        -- simpl. lia.
        -- intros [|j] rec Hj.
           ++ injection Hj as <-. rewrite Nat.add_0_r.
              split; [reflexivity|]. split; [reflexivity|]. simpl.
              rewrite Hsucc.
              destruct (Z.eqb_spec (Z.of_nat k mod (interleavedCount + 1) + 1)
                          (interleavedCount + 1)); [reflexivity|lia].
           ++ replace (k + S j) with (S k + j) by lia. apply Hrec, Hj.
Qed.

End WriteImage.

(** With [chunkSize <= 0] the loop index never reaches the end of a
    non-empty payload: no amount of fuel lets the loop finish. *)
Lemma writeImage_loop_diverges (data : list Z) (step : Step) (chunkSize interleavedCount : Z)
    (fuel : nat) (i noReplyCount : Z) (s : Session) :
  (chunkSize <= 0)%Z -> (i < Z.of_nat (length data))%Z ->
  writeImage_loop fuel data step chunkSize interleavedCount i noReplyCount s = None.
Proof.
  intros Hc. revert i noReplyCount s.
  induction fuel as [|fuel IH]; intros i n0 s Hi; simpl;
    destruct (Z.leb_spec (Z.of_nat (length data)) i) as [?|_]; try lia; [reflexivity|].
  destruct (0 <? n0)%Z.
  - destruct (write _ _ _ s) as [s1 ok]. apply IH. lia.
  - destruct (write _ _ _ s) as [s1 ok]. apply IH. lia.
Qed.

(** C5 (as amended): with a transport unit size [U > 2] and an interleave
    count [c >= 0], [writeImage] terminates on every payload of [N] bytes
    and every link behaviour, having called [write] exactly
    [ceil(N / (U - 2))] times, one chunk after the other in payload order
    (the chunks, concatenated in call order, are the payload); chunk
    number [k] (from 1) asks for an acknowledgment exactly when [k] is a
    multiple of [c + 1], so the first acknowledged chunk is the
    [(c + 1)]-th and every run of [c + 1] consecutive chunks has exactly
    one. *)
Theorem writeImage_chunks (cfg : TransferConfig) (data : list Z) (step : Step) (s : Session) :
  (2 < mtusize cfg)%Z -> (0 <= interleavedcount cfg)%Z ->
  exists s' recs,
    writeImage cfg data step s = Some s' /\
    wire s' = wire s ++ recs /\
    length recs = ceil_div (length data) (Z.to_nat (mtusize cfg - 2)) /\
    (forall k rec, recs !! k = Some rec ->
       chunk_call data step (mtusize cfg - 2) (interleavedcount cfg) k rec) /\
    carried recs = data.
Proof.
  intros Hmtu Hic. unfold writeImage.
  destruct (writeImage_loop_spec data step (mtusize cfg - 2) (interleavedcount cfg)
              ltac:(lia) Hic (length data) 0 (interleavedcount cfg) s)
    as (s' & recs & Hrun & Hwire & Hlen & Hrec & Hcar).
  - lia.
  - rewrite Z.mod_0_l by lia. lia.
  - exists s', recs. split; [exact Hrun|]. split; [exact Hwire|].
    split; [lia|]. split; [exact Hrec|]. exact Hcar.
Qed.

Lemma writeImage_chunks_witness :
  (2 < mtusize (mkConfig 20 50))%Z /\ (0 <= interleavedcount (mkConfig 20 50))%Z /\
  exists s' recs,
    writeImage (mkConfig 20 50) (replicate 100 7%Z) bw (mkSession true (Some true) [] []) = Some s' /\
    wire s' = [] ++ recs /\
    length recs = 6 /\
    (forall k rec, recs !! k = Some rec ->
       chunk_call (replicate 100 7%Z) bw 18 50 k rec) /\
    carried recs = replicate 100 7%Z.
Proof.
  split; [simpl; lia|]. split; [simpl; lia|].
  apply (writeImage_chunks (mkConfig 20 50) (replicate 100 7%Z) bw
           (mkSession true (Some true) [] [])); simpl; lia.
Defined.

(** C5, counterexample: with an interleave count of 2 and three one-byte
    chunks, the first two writes go without acknowledgment and the third
    asks for one; the second chunk (the interleave-count-th) does not. *)
Lemma writeImage_second_chunk_unacknowledged :
  exists s',
    writeImage (mkConfig 3 2) [1; 2; 3]%Z bw (mkSession true (Some true) [] []) = Some s' /\
    map w_withResponse (wire s') = [false; false; true].
Proof. eexists. split; reflexivity. Qed.

(** C10: on a connected device [sendimg] in six-colour mode returns
    [false], and the only call of [write] it can make is the one for INIT:
    no image chunk and no REFRESH follow.  With a canvas that has a 2D
    context and non-zero dimensions the INIT call is made, with an
    acknowledgment requested, and it is sent when the link delivers it
    (failed when the link rejects it or is lost); with a canvas that cannot
    be read, [sendimg] returns before INIT and the session is untouched. *)
Theorem sendimg_sixColor_init_only (Math_pow : float -> float -> float) (cfg : TransferConfig)
    (epddriver : option string) (canvas : Canvas) (s : Session) :
  connected s = true -> epdCharacteristic s = true ->
  exists s',
    sendimg Math_pow cfg epddriver canvas sixColor s = Some (s', false) /\
    (context2d canvas = true -> 0 < width (pixels canvas) -> 0 < height (pixels canvas) ->
     wire s' = wire s ++ [mkWrite EpdCmd.INIT [] true (status_on (link s))]) /\
    (context2d canvas = false \/ width (pixels canvas) = 0 \/ height (pixels canvas) = 0 ->
     s' = s).
Proof.
  intros Hconn Hchar. unfold sendimg. rewrite Hconn, Hchar. cbn [negb orb].
  destruct (context2d canvas) eqn:Hctx; cbn [negb].
  - destruct (Nat.eqb_spec (width (pixels canvas)) 0) as [Hw|Hw]; cbn [orb].
    { exists s. split; [reflexivity|]. split; [intros _ H; lia|reflexivity]. }
    destruct (Nat.eqb_spec (height (pixels canvas)) 0) as [Hh|Hh].
    { exists s. split; [reflexivity|]. split; [intros _ _ H; lia|reflexivity]. }
    unfold write. rewrite Hconn, Hchar. cbn [negb].
    destruct (link s) as [|[] rest]; cbn; eexists;
      (split; [reflexivity|]); (split; [intros _ _ _; reflexivity|]);
      intros [H|[H|H]]; first [discriminate H | contradiction].
  - exists s. split; [reflexivity|]. split; [intros H; discriminate H|reflexivity].
Qed.

Lemma sendimg_sixColor_init_only_witness :
  exists s',
    sendimg Math_pow_ref (mkConfig 20 50) None
      (mkCanvas true (mkImageData 1 1 [255; 0; 0; 255]%Z)) sixColor
      (mkSession true (Some true) [] []) = Some (s', false) /\
    wire s' = [mkWrite EpdCmd.INIT [] true Sent].
Proof.
  destruct (sendimg_sixColor_init_only Math_pow_ref (mkConfig 20 50) None
              (mkCanvas true (mkImageData 1 1 [255; 0; 0; 255]%Z))
              (mkSession true (Some true) [] []) eq_refl eq_refl) as (s' & Hrun & Hinit & _).
  exists s'. split; [exact Hrun|].
  apply Hinit; [reflexivity|cbn; lia|cbn; lia].
Defined.

(** C6, the failing input: a connected device, a 16 x 1 white canvas in
    two-colour mode (a payload of two bytes), a transport unit of 3 (one
    byte per chunk), and a link that delivers INIT and then rejects one
    write.  The rejected write is the first image chunk; [sendimg] goes on
    to send the second chunk and REFRESH, and returns [true]. *)
Lemma sendimg_goes_on_after_failed_chunk :
  exists s',
    sendimg Math_pow_ref (mkConfig 3 50) None
      (mkCanvas true (mkImageData 16 1 (replicate 64 255%Z))) blackWhiteColor
      (mkSession true (Some true) [Delivered; Rejected] []) = Some (s', true) /\
    wire s' =
      [ mkWrite EpdCmd.INIT [] true Sent;
        mkWrite EpdCmd.WRITE_IMG [0x0F; 0xFF]%Z false Failed;
        mkWrite EpdCmd.WRITE_IMG [0xFF; 0xFF]%Z false Sent;
        mkWrite EpdCmd.REFRESH [] true Sent ].
Proof. eexists. split; vm_compute; reflexivity. Qed.

(** The abort that [sendimg] does implement: a failed INIT ends the send
    before any image chunk. *)
Lemma sendimg_aborts_on_failed_init (Math_pow : float -> float -> float) (cfg : TransferConfig)
    (epddriver : option string) (canvas : Canvas) (mode : DitherMode) (s : Session)
    (rest : list Outcome) :
  connected s = true -> epdCharacteristic s = true ->
  context2d canvas = true ->
  0 < width (pixels canvas) -> 0 < height (pixels canvas) ->
  link s = Rejected :: rest ->
  exists s',
    sendimg Math_pow cfg epddriver canvas mode s = Some (s', false) /\
    wire s' = wire s ++ [mkWrite EpdCmd.INIT [] true Failed].
Proof.
  intros Hconn Hchar Hctx Hw Hh Hlink. unfold sendimg.
  rewrite Hconn, Hchar, Hctx. simpl.
  destruct (Nat.eqb_spec (width (pixels canvas)) 0) as [?|_]; [lia|].
  destruct (Nat.eqb_spec (height (pixels canvas)) 0) as [?|_]; [lia|]. simpl.
  unfold write. rewrite Hconn, Hchar, Hlink. simpl.
  eexists. split; reflexivity.
Qed.

(** ** Writers with disjoint footprints *)

Lemma for_yx_coords {St : Type} (width height : nat) (body : nat -> nat -> St -> St) (s : St) :
  for_yx width height body s =
  fold_left (fun s p => body (fst p) (snd p) s) (coords width height) s.
Proof.
  unfold for_yx, coords. revert s.
  induction (seq 0 height) as [|y ys IH]; intros s; simpl; [reflexivity|].
  rewrite fold_left_app, <- IH. f_equal.
  generalize (seq 0 width). intros xs. revert s.
  induction xs as [|x xs IHx]; intros s; simpl; [reflexivity|]. apply IHx.
Qed.

Lemma elem_of_coords width height y x :
  (y, x) ∈ coords width height <-> y < height /\ x < width.
Proof.
  unfold coords. rewrite list_elem_of_In, in_flat_map. split.
  - intros (y' & Hy' & Hin). apply in_map_iff in Hin as (x' & E & Hx').
    injection E as -> ->. apply in_seq in Hy', Hx'. lia.
  - intros [Hy Hx]. exists y. split; [apply in_seq; lia|].
    apply in_map_iff. exists x. split; [reflexivity|apply in_seq; lia].
Qed.

Lemma NoDup_coords width height : NoDup (coords width height).
Proof.
  unfold coords.
  assert (G : forall ys : list nat, NoDup ys ->
            NoDup (flat_map (fun y => map (fun x => (y, x)) (seq 0 width)) ys)).
  { induction ys as [|y ys IH]; intros Hnd; simpl; [constructor|].
    apply NoDup_cons in Hnd as [Hy Hnd].
    apply NoDup_app. split; [|split].
    - apply NoDup_fmap_2; [intros a b E; congruence|apply NoDup_seq].
    - intros [y' x'] H1 H2.
      apply list_elem_of_In, in_map_iff in H1 as (x1 & E & _). injection E as <- <-.
      apply list_elem_of_In, in_flat_map in H2 as (y2 & Hy2 & Hin).
      apply in_map_iff in Hin as (x2 & E & _). injection E as <- <-.
      apply Hy, list_elem_of_In, Hy2.
    - apply IH, Hnd. }
  apply G, NoDup_seq.
Qed.

Section Scatter.

(** Writers [W k] act on a state observed cell by cell.  Writer [k] leaves
    every cell outside its footprint alone and turns the content [v] of a
    valid cell of its footprint into [upd k c v]. *)
Context {St K Cell V : Type}.
Variables (W : K -> St -> St) (obs : St -> Cell -> V) (ok : St -> Cell -> Prop).
Variables (foot : K -> Cell -> bool) (upd : K -> Cell -> V -> V).
Hypothesis W_ok : forall k s c, ok s c -> ok (W k s) c.
Hypothesis W_frame : forall k s c, foot k c = false -> obs (W k s) c = obs s c.
Hypothesis W_upd : forall k s c, foot k c = true -> ok s c -> obs (W k s) c = upd k c (obs s c).

Lemma scatter_ok l s c : ok s c -> ok (fold_left (fun s k => W k s) l s) c.
Proof. revert s. induction l as [|k l IH]; intros s H; simpl; [exact H|]. apply IH, W_ok, H. Qed.

Lemma scatter_frame l s c :
  (forall k, k ∈ l -> foot k c = false) ->
  obs (fold_left (fun s k => W k s) l s) c = obs s c.
Proof.
  revert s. induction l as [|k l IH]; intros s H; simpl; [reflexivity|].
  rewrite IH by (intros k' Hk'; apply H; right; exact Hk').
  apply W_frame, H. left.
Qed.

(** When the footprints of the writers in [l] are pairwise disjoint, a cell
    of the footprint of [k] ends up as [k] alone would have left it. *)
Lemma scatter_fold l s k c :
  NoDup l ->
  (forall k1 k2, k1 ∈ l -> k2 ∈ l -> foot k1 c = true -> foot k2 c = true -> k1 = k2) ->
  k ∈ l -> foot k c = true -> ok s c ->
  obs (fold_left (fun s k => W k s) l s) c = upd k c (obs s c).
Proof.
  revert s. induction l as [|k0 l IH]; intros s Hnd Hdisj Hk Hfoot Hok; [inversion Hk|].
  simpl. apply NoDup_cons in Hnd as [Hk0 Hnd].
  apply elem_of_cons in Hk as [->|Hk].
  - rewrite scatter_frame.
    + apply W_upd; assumption.
    + intros k' Hk'. destruct (foot k' c) eqn:E; [|reflexivity].
      exfalso. apply Hk0.
      rewrite (Hdisj k0 k'); [exact Hk'|left|right; exact Hk'|exact Hfoot|exact E].
  - rewrite (IH (W k0 s)); [|exact Hnd| |exact Hk|exact Hfoot|apply W_ok, Hok].
    + f_equal. apply W_frame. destruct (foot k0 c) eqn:E; [|reflexivity].
      exfalso. apply Hk0.
      rewrite (Hdisj k0 k); [exact Hk|left|right; exact Hk|exact E|exact Hfoot].
    + intros k1 k2 H1 H2. apply Hdisj; right; assumption.
Qed.

End Scatter.

(** ** Index arithmetic of the layouts *)

Lemma raster_inj w y1 x1 y2 x2 :
  x1 < w -> x2 < w -> y1 * w + x1 = y2 * w + x2 -> y1 = y2 /\ x1 = x2.
Proof. intros H1 H2 E. assert (y1 = y2) by nia. subst. lia. Qed.

Lemma column_major_inj h y1 x1 y2 x2 :
  y1 < h -> y2 < h ->
  x1 * h + (h - 1 - y1) = x2 * h + (h - 1 - y2) -> y1 = y2 /\ x1 = x2.
Proof. intros H1 H2 E. assert (x1 = x2) by nia. subst. lia. Qed.

Lemma div_mod_inj n a b : 0 < n -> a / n = b / n -> a mod n = b mod n -> a = b.
Proof.
  intros Hn Hd Hm.
  rewrite (Nat.div_mod_eq a n), (Nat.div_mod_eq b n), Hd, Hm. reflexivity.
Qed.

Lemma div8_lt_byteWidth w x : x < w -> x / 8 < ceil_div w 8.
Proof.
  intros Hx. destruct (ceil_div_least w 8 ltac:(lia)) as [Hup _].
  apply Nat.Div0.div_lt_upper_bound. lia.
Qed.

(** ** Reading back what the decoder stores *)

Lemma write_rgba_length d index r g b a : length (write_rgba d index r g b a) = length d.
Proof. unfold write_rgba. rewrite !length_store_clamped. reflexivity. Qed.

Lemma write_rgba_frame d k r g b a i :
  i / 4 <> k -> write_rgba d (k * 4) r g b a !! i = d !! i.
Proof.
  intros Hi. unfold write_rgba, store_clamped.
  assert (Hdiv : forall c, c < 4 -> k * 4 + c <> i).
  { intros c Hc E. apply Hi. subst i.
    rewrite Nat.add_comm, Nat.div_add, (Nat.div_small c 4) by lia. reflexivity. }
  rewrite !list_lookup_insert_ne; [reflexivity| | | |].
  - specialize (Hdiv 0). lia.
  - apply Hdiv. lia.
  - apply Hdiv. lia.
  - apply Hdiv. lia.
Qed.

Lemma write_rgba_upd d k r g b a i :
  i / 4 = k -> i < length d ->
  write_rgba d (k * 4) r g b a !! i = rgba_bytes r g b a !! (i mod 4).
Proof.
  intros Hk Hlen. unfold write_rgba, store_clamped, rgba_bytes.
  pose proof (Nat.div_mod_eq i 4) as E. rewrite Hk in E.
  pose proof (Nat.mod_upper_bound i 4 ltac:(lia)) as Hm.
  destruct (i mod 4) as [|[|[|[|n]]]] eqn:Em; [| | |  |lia]; simpl.
  - replace i with (k * 4) by lia.
    rewrite !list_lookup_insert_ne by lia.
    rewrite list_lookup_insert_eq by lia. reflexivity.
  - rewrite !list_lookup_insert_ne by lia.
    replace i with (k * 4 + 1) by lia.
    rewrite list_lookup_insert_eq by (rewrite ?length_insert; lia). reflexivity.
  - rewrite !list_lookup_insert_ne by lia.
    replace i with (k * 4 + 2) by lia.
    rewrite list_lookup_insert_eq by (rewrite ?length_insert; lia). reflexivity.
  - replace i with (k * 4 + 3) by lia.
    rewrite list_lookup_insert_eq by (rewrite ?length_insert; lia). reflexivity.
Qed.

(** A decoding loop whose body stores, for each pixel, four bytes that
    depend on the pixel's coordinates only. *)
Lemma decode_loop_lookup (w h : nat) (body : nat -> nat -> list Z -> list Z)
    (col : nat -> nat -> float * float * float) (d0 : list Z) :
  (forall y x d, body y x d =
     write_rgba d ((y * w + x) * 4) (fst (fst (col y x))) (snd (fst (col y x))) (snd (col y x)) 255) ->
  forall y x i, y < h -> x < w -> i / 4 = y * w + x -> i < length d0 ->
    for_yx w h body d0 !! i =
    rgba_bytes (fst (fst (col y x))) (snd (fst (col y x))) (snd (col y x)) 255 !! (i mod 4).
Proof.
  intros Hbody y x i Hy Hx Hi Hlen. rewrite for_yx_coords.
  set (W := fun (p : nat * nat) (d : list Z) => body (fst p) (snd p) d).
  set (obs := fun (d : list Z) (i : nat) => d !! i).
  set (ok := fun (d : list Z) (i : nat) => i < length d).
  set (foot := fun (p : nat * nat) (i : nat) => i / 4 =? fst p * w + snd p).
  set (upd := fun (p : nat * nat) (i : nat) (_ : option Z) =>
                rgba_bytes (fst (fst (col (fst p) (snd p)))) (snd (fst (col (fst p) (snd p))))
                  (snd (col (fst p) (snd p))) 255 !! (i mod 4)).
  assert (Hok : forall k s c, ok s c -> ok (W k s) c).
  { intros p d c Hc. unfold ok, W. rewrite Hbody, write_rgba_length. exact Hc. }
  assert (Hframe : forall k s c, foot k c = false -> obs (W k s) c = obs s c).
  { intros p d c Hf. unfold foot, obs, W in *. apply Nat.eqb_neq in Hf.
    rewrite Hbody. apply write_rgba_frame, Hf. }
  assert (Hupd : forall k s c, foot k c = true -> ok s c -> obs (W k s) c = upd k c (obs s c)).
  { intros p d c Hf Hc. unfold foot, obs, W, upd, ok in *. apply Nat.eqb_eq in Hf.
    rewrite Hbody, <- Hf. apply write_rgba_upd; [reflexivity|exact Hc]. }
  change (obs (fold_left (fun s k => W k s) (coords w h) d0) i = upd (y, x) i (obs d0 i)).
  apply (scatter_fold W obs ok foot upd Hok Hframe Hupd).
  - apply NoDup_coords.
  - intros [y1 x1] [y2 x2] H1 H2 F1 F2. unfold foot in *. simpl in *.
    apply elem_of_coords in H1, H2. apply Nat.eqb_eq in F1, F2.
    destruct (raster_inj w y1 x1 y2 x2) as [-> ->]; [lia|lia|lia|reflexivity].
  - apply elem_of_coords. lia.
  - unfold foot. simpl. apply Nat.eqb_eq, Hi.
  - exact Hlen.
Qed.

(** ** Bits of packed bytes *)

Lemma read_u8_store_eq d i v : i < length d -> read_u8 (store_u8 d i v) i = ToUint8 v.
Proof.
  intros Hi. unfold read_u8, store_u8. rewrite list_lookup_insert_eq by exact Hi. reflexivity.
Qed.

Lemma read_u8_store_ne d i j v : i <> j -> read_u8 (store_u8 d i v) j = read_u8 d j.
Proof.
  intros Hi. unfold read_u8, store_u8. rewrite list_lookup_insert_ne by exact Hi. reflexivity.
Qed.

Lemma read_u8_store_ge d i v : length d <= i -> store_u8 d i v = d.
Proof. intros Hi. unfold store_u8. apply list_insert_ge, Hi. Qed.

Lemma testbit_ToUint8 v t : t < 8 -> Z.testbit (ToUint8 v) (Z.of_nat t) = Z.testbit v (Z.of_nat t).
Proof.
  intros Ht. unfold ToUint8. change 256%Z with (2 ^ 8)%Z.
  apply Z.mod_pow2_bits_low. lia.
Qed.

Lemma bit_at_new_array n c : bit_at (new_array n) c = false.
Proof.
  unfold bit_at, read_u8, new_array.
  destruct (replicate n 0%Z !! fst c) as [z|] eqn:E.
  - apply lookup_replicate in E as [-> _]. rewrite Z.bits_0. apply andb_false_r.
  - rewrite Z.bits_0. apply andb_false_r.
Qed.

Lemma bit_at_or_assign d i v c :
  bit_at (or_assign d i v) c =
    if (i =? fst c) && (fst c <? length d)
    then (snd c <? 8) && (Z.testbit (read_u8 d (fst c)) (Z.of_nat (snd c))
                          || Z.testbit v (Z.of_nat (snd c)))
    else bit_at d c.
Proof.
  destruct c as [j t]. unfold bit_at, or_assign. simpl.
  destruct (Nat.eqb_spec i j) as [->|Hne]; simpl.
  - destruct (Nat.ltb_spec j (length d)) as [Hlt|Hge].
    + rewrite read_u8_store_eq by exact Hlt.
      destruct (Nat.ltb_spec t 8) as [Ht|Ht]; [|reflexivity]. simpl.
      rewrite testbit_ToUint8 by exact Ht. apply Z.lor_spec.
    + rewrite read_u8_store_ge by exact Hge. reflexivity.
  - rewrite read_u8_store_ne by exact Hne. reflexivity.
Qed.

Lemma bit_at_and_assign d i v c :
  bit_at (and_assign d i v) c =
    if (i =? fst c) && (fst c <? length d)
    then (snd c <? 8) && (Z.testbit (read_u8 d (fst c)) (Z.of_nat (snd c))
                          && Z.testbit v (Z.of_nat (snd c)))
    else bit_at d c.
Proof.
  destruct c as [j t]. unfold bit_at, and_assign. simpl.
  destruct (Nat.eqb_spec i j) as [->|Hne]; simpl.
  - destruct (Nat.ltb_spec j (length d)) as [Hlt|Hge].
    + rewrite read_u8_store_eq by exact Hlt.
      destruct (Nat.ltb_spec t 8) as [Ht|Ht]; [|reflexivity]. simpl.
      rewrite testbit_ToUint8 by exact Ht. apply Z.land_spec.
    + rewrite read_u8_store_ge by exact Hge. reflexivity.
  - rewrite read_u8_store_ne by exact Hne. reflexivity.
Qed.

Lemma testbit_shiftl_nat v s t :
  Z.testbit (Z.shiftl v (Z.of_nat s)) (Z.of_nat t) =
    (s <=? t) && Z.testbit v (Z.of_nat (t - s)).
Proof.
  rewrite Z.shiftl_spec by lia.
  destruct (Nat.leb_spec s t) as [Hle|Hgt]; simpl.
  - f_equal. lia.
  - apply Z.testbit_neg_r. lia.
Qed.

Lemma testbit_one_nat t : Z.testbit 1 (Z.of_nat t) = (t =? 0).
Proof. destruct t as [|t]; [reflexivity|]. rewrite Nat2Z.inj_succ.
  change 1%Z with (Z.ones 1). rewrite Z.ones_spec_high by lia. reflexivity. Qed.

Lemma testbit_bit_mask s t : Z.testbit (Z.shiftl 1 (Z.of_nat s)) (Z.of_nat t) = (t =? s).
Proof.
  rewrite testbit_shiftl_nat, testbit_one_nat.
  destruct (Nat.leb_spec s t), (Nat.eqb_spec (t - s) 0), (Nat.eqb_spec t s); simpl; lia || reflexivity.
Qed.

Lemma testbit_not_bit_mask s t :
  Z.testbit (Z.lnot (Z.shiftl 1 (Z.of_nat s))) (Z.of_nat t) = negb (t =? s).
Proof. rewrite Z.lnot_spec by lia. rewrite testbit_bit_mask. reflexivity. Qed.

Lemma land_shiftr_1 a s : Z.land (Z.shiftr a (Z.of_nat s)) 1 = Z.b2z (Z.testbit a (Z.of_nat s)).
Proof.
  change 1%Z with (Z.ones 1). rewrite Z.land_ones by lia.
  change (2 ^ 1)%Z with 2%Z. rewrite <- Z.bit0_mod, Z.shiftr_spec by lia. reflexivity.
Qed.

Lemma land_shiftr_3 a s :
  Z.land (Z.shiftr a (Z.of_nat s)) 3 =
    (Z.b2z (Z.testbit a (Z.of_nat s)) + 2 * Z.b2z (Z.testbit a (Z.of_nat (s + 1))))%Z.
Proof.
  change 3%Z with (Z.ones 2). rewrite Z.land_ones by lia.
  change (2 ^ 2)%Z with (2 * 2)%Z. rewrite Z.rem_mul_r by lia.
  rewrite <- Z.bit0_mod. rewrite Z.shiftr_spec by lia.
  replace (Z.shiftr a (Z.of_nat s) / 2)%Z with (Z.shiftr a (Z.of_nat (s + 1))).
  - rewrite <- Z.bit0_mod, Z.shiftr_spec by lia. simpl. reflexivity.
  - rewrite Nat2Z.inj_add. rewrite <- Z.shiftr_shiftr by lia.
    rewrite (Z.shiftr_div_pow2 _ (Z.of_nat 1)) by lia. reflexivity.
Qed.

(** ** The one-bit planes *)

Lemma testbit_shiftl_bit (β : bool) s t :
  Z.testbit (Z.shiftl (if β then 1 else 0) (Z.of_nat s)) (Z.of_nat t) = β && (t =? s).
Proof.
  destruct β; simpl.
  - apply testbit_bit_mask.
  - rewrite Z.shiftl_0_l. apply Z.bits_0.
Qed.

Lemma bit_at_set_clear (β : bool) d i s c :
  bit_at (if β then or_assign d i (Z.shiftl 1 (Z.of_nat s))
          else and_assign d i (Z.lnot (Z.shiftl 1 (Z.of_nat s)))) c =
    if (i =? fst c) && (fst c <? length d) && (snd c =? s)
    then (snd c <? 8) && β
    else bit_at d c.
Proof.
  destruct β.
  - rewrite bit_at_or_assign, testbit_bit_mask. unfold bit_at.
    destruct ((i =? fst c) && (fst c <? length d)); simpl; [|reflexivity].
    destruct (snd c =? s); simpl.
    + rewrite orb_true_r. reflexivity.
    + rewrite orb_false_r. reflexivity.
  - rewrite bit_at_and_assign, testbit_not_bit_mask. unfold bit_at.
    destruct ((i =? fst c) && (fst c <? length d)); simpl; [|reflexivity].
    destruct (snd c =? s); simpl.
    + rewrite andb_false_r. reflexivity.
    + rewrite andb_true_r. reflexivity.
Qed.

Lemma plane_cell_in_range w h y x :
  y < h -> x < w -> fst (plane_cell w y x) < ceil_div w 8 * h /\ snd (plane_cell w y x) < 8.
Proof.
  intros Hy Hx. unfold plane_cell. cbn [fst snd].
  pose proof (div8_lt_byteWidth w x Hx) as Hb. split; [|lia].
  revert Hb. generalize (ceil_div w 8), (x / 8). intros bw a Hb.
  assert (bw * (y + 1) <= bw * h) by (apply Nat.mul_le_mono_l; lia). lia.
Qed.

Lemma plane_cell_inj w y1 x1 y2 x2 :
  x1 < w -> x2 < w -> plane_cell w y1 x1 = plane_cell w y2 x2 -> y1 = y2 /\ x1 = x2.
Proof.
  intros H1 H2 E. unfold plane_cell in E.
  pose proof (f_equal fst E) as Ebyte. pose proof (f_equal snd E) as Ebit.
  cbn [fst snd] in Ebyte, Ebit.
  pose proof (div8_lt_byteWidth w x1 H1). pose proof (div8_lt_byteWidth w x2 H2).
  pose proof (Nat.mod_upper_bound x1 8 ltac:(lia)).
  pose proof (Nat.mod_upper_bound x2 8 ltac:(lia)).
  destruct (raster_inj (ceil_div w 8) y1 (x1 / 8) y2 (x2 / 8)) as [-> Hd];
    [assumption|assumption|exact Ebyte|].
  split; [reflexivity|]. apply (div_mod_inj 8); [lia|exact Hd|lia].
Qed.

Lemma plane_foot_disjoint w h p1 p2 c :
  p1 ∈ coords w h -> p2 ∈ coords w h ->
  plane_foot w p1 c = true -> plane_foot w p2 c = true -> p1 = p2.
Proof.
  destruct p1 as [y1 x1], p2 as [y2 x2]. intros H1 H2 F1 F2.
  apply elem_of_coords in H1, H2. unfold plane_foot in *. cbn [fst snd] in *.
  apply andb_true_iff in F1 as [A1 B1], F2 as [A2 B2].
  apply Nat.eqb_eq in A1, B1, A2, B2.
  destruct (plane_cell_inj w y1 x1 y2 x2) as [-> ->]; [lia|lia| |reflexivity].
  destruct (plane_cell w y1 x1), (plane_cell w y2 x2). cbn [fst snd] in *. congruence.
Qed.

Lemma plane_foot_self w y x : plane_foot w (y, x) (plane_cell w y x) = true.
Proof. unfold plane_foot. cbn [fst snd]. rewrite !Nat.eqb_refl. reflexivity. Qed.

(** After the two-colour packing loop, the cell of each pixel holds the
    bit computed for that pixel. *)
Lemma pack_blackWhite_bit w h data y x :
  y < h -> x < w ->
  bit_at (for_yx w h (pack_blackWhite w data) (new_array (ceil_div w 8 * h)))
    (plane_cell w y x) = blackWhiteBit_of data w y x.
Proof.
  intros Hy Hx. rewrite for_yx_coords.
  set (W := fun (p : nat * nat) (d : list Z) => pack_blackWhite w data (fst p) (snd p) d).
  set (upd := fun (p : nat * nat) (_ : nat * nat) (v : bool) =>
                v || blackWhiteBit_of data w (fst p) (snd p)).
  assert (Hstep : forall p d c,
            bit_at (W p d) c =
              if (fst (plane_cell w (fst p) (snd p)) =? fst c) && (fst c <? length d)
              then (snd c <? 8) && (Z.testbit (read_u8 d (fst c)) (Z.of_nat (snd c))
                     || blackWhiteBit_of data w (fst p) (snd p)
                        && (snd c =? snd (plane_cell w (fst p) (snd p))))
              else bit_at d c).
  { intros p d c. unfold W, pack_blackWhite. rewrite bit_at_or_assign.
    fold (blackWhiteBit_of data w (fst p) (snd p)). rewrite testbit_shiftl_bit. reflexivity. }
  assert (Hok : forall k s c, bit_cell_ok s c -> bit_cell_ok (W k s) c).
  { intros p d c [H1 H2]. split; [|exact H2].
    unfold W, pack_blackWhite. rewrite length_or_assign. exact H1. }
  assert (Hframe : forall k s c, plane_foot w k c = false -> bit_at (W k s) c = bit_at s c).
  { intros p d c Hf. rewrite Hstep. unfold plane_foot in Hf.
    destruct (Nat.eqb_spec (fst (plane_cell w (fst p) (snd p))) (fst c)) as [E|E];
      cbn [andb]; [|reflexivity].
    destruct (fst c <? length d); [|reflexivity].
    rewrite <- E, Nat.eqb_refl in Hf. cbn [andb] in Hf.
    rewrite Hf, andb_false_r, orb_false_r. reflexivity. }
  assert (Hupd : forall k s c, plane_foot w k c = true -> bit_cell_ok s c ->
                 bit_at (W k s) c = upd k c (bit_at s c)).
  { intros p d c Hf [H1 H2]. rewrite Hstep. unfold plane_foot in Hf, upd.
    apply andb_true_iff in Hf as [A B]. apply Nat.eqb_eq in A.
    rewrite <- A, Nat.eqb_refl. cbn [andb].
    destruct (Nat.ltb_spec (fst c) (length d)) as [_|?]; [|lia].
    rewrite B, andb_true_r. unfold bit_at.
    destruct (Nat.ltb_spec (snd c) 8) as [_|?]; [|lia]. reflexivity. }
  rewrite (scatter_fold W bit_at bit_cell_ok (plane_foot w) upd Hok Hframe Hupd
             (coords w h) _ (y, x)).
  - unfold upd. rewrite bit_at_new_array. reflexivity.
  - apply NoDup_coords.
  - intros k1 k2. apply plane_foot_disjoint.
  - apply elem_of_coords. lia.
  - apply plane_foot_self.
  - unfold bit_cell_ok. rewrite length_new_array. apply plane_cell_in_range; assumption.
Qed.

Lemma pack_threeColor_fst w data y x st :
  fst (pack_threeColor w data y x st) =
    if blackWhiteBit_of data w y x
    then or_assign (fst st) (fst (plane_cell w y x)) (Z.shiftl 1 (Z.of_nat (snd (plane_cell w y x))))
    else and_assign (fst st) (fst (plane_cell w y x))
           (Z.lnot (Z.shiftl 1 (Z.of_nat (snd (plane_cell w y x))))).
Proof. destruct st as [s1 s2]. unfold pack_threeColor. cbn [fst]. reflexivity. Qed.

Lemma pack_threeColor_snd w data y x st :
  snd (pack_threeColor w data y x st) =
    if redWhiteBit_of data w y x
    then or_assign (snd st) (fst (plane_cell w y x)) (Z.shiftl 1 (Z.of_nat (snd (plane_cell w y x))))
    else and_assign (snd st) (fst (plane_cell w y x))
           (Z.lnot (Z.shiftl 1 (Z.of_nat (snd (plane_cell w y x))))).
Proof. destruct st as [s1 s2]. unfold pack_threeColor. cbn [snd]. reflexivity. Qed.

(** A loop that sets or clears, in a plane [proj s] of the state, the cell
    of each pixel according to [β], leaves [β y x] in the cell of [(y, x)]. *)
Lemma plane_set_clear {St : Type} (W : nat * nat -> St -> St) (proj : St -> list Z)
    (β : nat -> nat -> bool) (w h : nat) (s0 : St) :
  (forall p s, proj (W p s) =
     if β (fst p) (snd p)
     then or_assign (proj s) (fst (plane_cell w (fst p) (snd p)))
            (Z.shiftl 1 (Z.of_nat (snd (plane_cell w (fst p) (snd p)))))
     else and_assign (proj s) (fst (plane_cell w (fst p) (snd p)))
            (Z.lnot (Z.shiftl 1 (Z.of_nat (snd (plane_cell w (fst p) (snd p))))))) ->
  length (proj s0) = ceil_div w 8 * h ->
  forall y x, y < h -> x < w ->
    bit_at (proj (fold_left (fun s p => W p s) (coords w h) s0)) (plane_cell w y x) = β y x.
Proof.
  intros Hstep Hlen y x Hy Hx.
  set (obs := fun (s : St) (c : nat * nat) => bit_at (proj s) c).
  set (ok := fun (s : St) (c : nat * nat) => bit_cell_ok (proj s) c).
  set (upd := fun (p : nat * nat) (_ : nat * nat) (_ : bool) => β (fst p) (snd p)).
  assert (Hbit : forall p s c,
            obs (W p s) c =
              if (fst (plane_cell w (fst p) (snd p)) =? fst c) && (fst c <? length (proj s))
                 && (snd c =? snd (plane_cell w (fst p) (snd p)))
              then (snd c <? 8) && β (fst p) (snd p)
              else obs s c).
  { intros p s c. unfold obs. rewrite Hstep. apply bit_at_set_clear. }
  assert (Hok : forall k s c, ok s c -> ok (W k s) c).
  { intros p s c [H1 H2]. split; [|exact H2]. rewrite Hstep.
    destruct (β _ _); rewrite ?length_or_assign, ?length_and_assign; exact H1. }
  assert (Hframe : forall k s c, plane_foot w k c = false -> obs (W k s) c = obs s c).
  { intros p s c Hf. rewrite Hbit. unfold plane_foot in Hf.
    destruct (Nat.eqb_spec (fst (plane_cell w (fst p) (snd p))) (fst c)) as [E|E];
      cbn [andb]; [|reflexivity].
    rewrite <- E, Nat.eqb_refl in Hf. cbn [andb] in Hf. rewrite Hf, andb_false_r. reflexivity. }
  assert (Hupd : forall k s c, plane_foot w k c = true -> ok s c ->
                 obs (W k s) c = upd k c (obs s c)).
  { intros p s c Hf [H1 H2]. rewrite Hbit. unfold plane_foot in Hf, upd.
    apply andb_true_iff in Hf as [A B]. apply Nat.eqb_eq in A.
    rewrite <- A, Nat.eqb_refl, B. cbn [andb].
    destruct (Nat.ltb_spec (fst c) (length (proj s))) as [_|?]; [|lia].
    destruct (Nat.ltb_spec (snd c) 8) as [_|?]; [|lia]. reflexivity. }
  change (obs (fold_left (fun s p => W p s) (coords w h) s0) (plane_cell w y x)
          = upd (y, x) (plane_cell w y x) (obs s0 (plane_cell w y x))).
  apply (scatter_fold W obs ok (plane_foot w) upd Hok Hframe Hupd).
  - apply NoDup_coords.
  - intros k1 k2. apply plane_foot_disjoint.
  - apply elem_of_coords. lia.
  - apply plane_foot_self.
  - unfold ok, bit_cell_ok. rewrite Hlen. apply plane_cell_in_range; assumption.
Qed.

Lemma pack_threeColor_planes w h data :
  let st := for_yx w h (pack_threeColor w data)
              (new_array (h * ceil_div w 8), new_array (h * ceil_div w 8)) in
  length (fst st) = ceil_div w 8 * h /\ length (snd st) = ceil_div w 8 * h /\
  forall y x, y < h -> x < w ->
    bit_at (fst st) (plane_cell w y x) = blackWhiteBit_of data w y x /\
    bit_at (snd st) (plane_cell w y x) = redWhiteBit_of data w y x.
Proof.
  intros st.
  assert (Hl : length (fst st) = ceil_div w 8 * h /\ length (snd st) = ceil_div w 8 * h).
  { subst st. apply (for_yx_ind (fun st : list Z * list Z =>
      length (fst st) = ceil_div w 8 * h /\ length (snd st) = ceil_div w 8 * h)).
    - intros y x s _ _ [H1 H2]. rewrite pack_threeColor_fst, pack_threeColor_snd. split.
      + destruct (blackWhiteBit_of _ _ _ _); rewrite ?length_or_assign, ?length_and_assign; exact H1.
      + destruct (redWhiteBit_of _ _ _ _); rewrite ?length_or_assign, ?length_and_assign; exact H2.
    - cbn [fst snd]. rewrite !length_new_array. lia. }
  destruct Hl as [Hl1 Hl2]. split; [exact Hl1|]. split; [exact Hl2|].
  intros y x Hy Hx. subst st. rewrite for_yx_coords. split.
  - apply (plane_set_clear (fun p st => pack_threeColor w data (fst p) (snd p) st) fst
             (blackWhiteBit_of data w)); [| |exact Hy|exact Hx].
    + intros p s. apply pack_threeColor_fst.
    + cbn [fst]. rewrite length_new_array. lia.
  - apply (plane_set_clear (fun p st => pack_threeColor w data (fst p) (snd p) st) snd
             (redWhiteBit_of data w)); [| |exact Hy|exact Hx].
    + intros p s. apply pack_threeColor_snd.
    + cbn [snd]. rewrite length_new_array. lia.
Qed.

(** ** Images as grids of pixels *)

Lemma data_ext w h (d1 d2 : list Z) :
  0 < w -> length d1 = w * h * 4 -> length d2 = w * h * 4 ->
  (forall y x i, y < h -> x < w -> i / 4 = y * w + x -> d1 !! i = d2 !! i) ->
  d1 = d2.
Proof.
  intros Hw H1 H2 Hpix. apply list_eq. intros i.
  destruct (Nat.lt_ge_cases i (w * h * 4)) as [Hlt|Hge].
  - apply (Hpix (i / 4 / w) (i / 4 mod w)).
    + apply Nat.Div0.div_lt_upper_bound. apply Nat.Div0.div_lt_upper_bound. lia.
    + apply Nat.mod_upper_bound. lia.
    + pose proof (Nat.div_mod_eq (i / 4) w). lia.
  - rewrite !lookup_ge_None_2 by lia. reflexivity.
Qed.

Lemma pixel_inv (q : ImageData) y x r g b a :
  pixel q y x = Some (r, g, b, a) ->
  let index := (y * width q + x) * 4 in
  data q !! index = Some r /\ data q !! (index + 1) = Some g /\
  data q !! (index + 2) = Some b /\ data q !! (index + 3) = Some a.
Proof.
  unfold pixel. intros H. cbv zeta.
  destruct (data q !! ((y * width q + x) * 4)) as [r'|]; [|discriminate H].
  destruct (data q !! ((y * width q + x) * 4 + 1)) as [g'|]; [|discriminate H].
  destruct (data q !! ((y * width q + x) * 4 + 2)) as [b'|]; [|discriminate H].
  destruct (data q !! ((y * width q + x) * 4 + 3)) as [a'|]; [|discriminate H].
  cbn in H. injection H as -> -> -> ->. repeat split.
Qed.

Lemma pixel_lookup (q : ImageData) y x r g b a i :
  pixel q y x = Some (r, g, b, a) -> i / 4 = y * width q + x ->
  data q !! i = [r; g; b; a] !! (i mod 4).
Proof.
  intros Hp Hi. destruct (pixel_inv q y x r g b a Hp) as (H0 & H1 & H2 & H3).
  pose proof (Nat.div_mod_eq i 4) as E. rewrite Hi in E.
  pose proof (Nat.mod_upper_bound i 4 ltac:(lia)) as Hm.
  destruct (i mod 4) as [|[|[|[|n]]]] eqn:Em; [| | | |lia]; cbn [lookup list_lookup].
  - rewrite <- H0. f_equal. lia.
  - rewrite <- H1. f_equal. lia.
  - rewrite <- H2. f_equal. lia.
  - rewrite <- H3. f_equal. lia.
Qed.

Lemma read_of_lookup d i z : d !! i = Some z -> read d i = of_byte z.
Proof. intros H. unfold read. rewrite H. reflexivity. Qed.

Lemma blackWhiteBit_of_pixel (q : ImageData) y x r g b a :
  pixel q y x = Some (r, g, b, a) ->
  blackWhiteBit_of (data q) (width q) y x =
    (140 <=? grayscale_of (of_byte r) (of_byte g) (of_byte b))%float.
Proof.
  intros Hp. destruct (pixel_inv q y x r g b a Hp) as (H0 & H1 & H2 & _).
  unfold blackWhiteBit_of. cbv zeta.
  rewrite (read_of_lookup _ _ _ H0), (read_of_lookup _ _ _ H1), (read_of_lookup _ _ _ H2).
  reflexivity.
Qed.

Lemma redWhiteBit_of_pixel (q : ImageData) y x r g b a :
  pixel q y x = Some (r, g, b, a) ->
  redWhiteBit_of (data q) (width q) y x =
    negb ((160 <? of_byte r) && (of_byte g <? of_byte r) && (of_byte b <? of_byte r))%float.
Proof.
  intros Hp. destruct (pixel_inv q y x r g b a Hp) as (H0 & H1 & H2 & _).
  unfold redWhiteBit_of. cbv zeta.
  rewrite (read_of_lookup _ _ _ H0), (read_of_lookup _ _ _ H1), (read_of_lookup _ _ _ H2).
  reflexivity.
Qed.

Lemma plane_bit_read P w y x :
  Z.land (Z.shiftr (read_u8 P (y * ceil_div w 8 + x / 8)) (Z.of_nat (7 - x mod 8))) 1 =
    Z.b2z (bit_at P (plane_cell w y x)).
Proof.
  rewrite land_shiftr_1. unfold bit_at, plane_cell. cbn [fst snd].
  destruct (Nat.ltb_spec (7 - x mod 8) 8) as [_|?]; [|lia]. reflexivity.
Qed.

Lemma new_ImageData_Some w h :
  0 < w -> 0 < h -> new_ImageData w h = Some (mkImageData w h (new_array (w * h * 4))).
Proof.
  intros Hw Hh. unfold new_ImageData.
  destruct (Nat.eqb_spec w 0); [lia|]. destruct (Nat.eqb_spec h 0); [lia|]. reflexivity.
Qed.

(** ** Round trip: two-colour mode *)

Lemma roundtrip_blackWhiteColor (Math_pow : float -> float -> float) (q : ImageData) :
  ImageData_wf q -> quantized blackWhiteColor 255 q ->
  decodeProcessedData (processImageData Math_pow q blackWhiteColor)
    (width q) (height q) blackWhiteColor = Some q.
Proof.
  intros (Hw & Hh & Hlen) Hq. destruct q as [w h d]. cbn [width height data] in *.
  unfold decodeProcessedData. rewrite (new_ImageData_Some w h Hw Hh). cbn [data].
  f_equal. f_equal. unfold processImageData. cbn [width height data].
  set (P := for_yx w h (pack_blackWhite w d) (new_array (ceil_div w 8 * h))).
  apply (data_ext w h); [exact Hw| |exact Hlen|].
  { apply (for_yx_ind (fun d' => length d' = w * h * 4)); [|apply length_new_array].
    intros y x s _ _ Hs. unfold decode_blackWhite. rewrite write_rgba_length. exact Hs. }
  intros y x i Hy Hx Hi.
  rewrite (decode_loop_lookup w h (decode_blackWhite P w)
             (fun y x => let v := if (Z.b2z (bit_at P (plane_cell w y x)) =? 0)%Z
                                  then 0%float else 255%float in (v, v, v))
             _ (fun y x d' => ltac:(unfold decode_blackWhite; rewrite plane_bit_read; reflexivity))
             y x i Hy Hx Hi).
  2:{ rewrite length_new_array.
      assert (i < (y * w + x + 1) * 4) by (pose proof (Nat.div_mod_eq i 4);
        pose proof (Nat.mod_upper_bound i 4 ltac:(lia)); lia).
      assert ((y * w + x + 1) * 4 <= w * h * 4) by nia. lia. }
  destruct (Hq y x Hy Hx) as (c & Hc & Hp). cbn [width height data] in Hp.
  pose proof (pixel_lookup (mkImageData w h d) y x _ _ _ _ i Hp Hi) as Hd.
  cbn [data] in Hd. rewrite Hd. clear Hd.
  unfold P. rewrite (pack_blackWhite_bit w h d y x Hy Hx).
  pose proof (blackWhiteBit_of_pixel (mkImageData w h d) y x _ _ _ _ Hp) as Hb.
  cbn [data width] in Hb. rewrite Hb. clear Hb.
  cbv zeta. cbn [fst snd]. clear Hp.
  cbn in Hc. repeat (apply elem_of_cons in Hc as [->|Hc]); [reflexivity|reflexivity|inversion Hc].
Qed.

(** ** Round trip: three-colour mode *)

Lemma in_image_range w h y x i :
  y < h -> x < w -> i / 4 = y * w + x -> i < w * h * 4.
Proof.
  intros Hy Hx Hi.
  pose proof (Nat.div_mod_eq i 4). pose proof (Nat.mod_upper_bound i 4 ltac:(lia)).
  assert ((y * w + x + 1) * 4 <= w * h * 4) by nia. lia.
Qed.

Lemma decode_threeColor_eq bwD redD w y x d :
  decode_threeColor bwD redD w y x d =
    let col :=
      if (Z.b2z (bit_at redD (plane_cell w y x)) =? 0)%Z then (255, 0, 0)%float
      else let v := if (Z.b2z (bit_at bwD (plane_cell w y x)) =? 0)%Z
                    then 0%float else 255%float in (v, v, v) in
    write_rgba d ((y * w + x) * 4) (fst (fst col)) (snd (fst col)) (snd col) 255.
Proof.
  unfold decode_threeColor. rewrite !plane_bit_read. cbv zeta.
  destruct (Z.b2z (bit_at redD (plane_cell w y x)) =? 0)%Z; reflexivity.
Qed.

Lemma roundtrip_threeColor (Math_pow : float -> float -> float) (q : ImageData) :
  ImageData_wf q -> quantized threeColor 255 q ->
  decodeProcessedData (processImageData Math_pow q threeColor)
    (width q) (height q) threeColor = Some q.
Proof.
  intros (Hw & Hh & Hlen) Hq. destruct q as [w h d]. cbn [width height data] in *.
  unfold decodeProcessedData. rewrite (new_ImageData_Some w h Hw Hh). cbn [data].
  f_equal. f_equal. unfold processImageData. cbn [width height data].
  destruct (pack_threeColor_planes w h d) as (Hl1 & Hl2 & Hbits). cbv zeta in Hl1, Hl2, Hbits.
  destruct (for_yx w h (pack_threeColor w d) _) as [bwP redP]. cbn [fst snd] in *.
  unfold slice_to, slice_from.
  rewrite (take_app_length' bwP redP) by (symmetry; exact Hl1).
  rewrite (drop_app_length' bwP redP) by (symmetry; exact Hl1).
  apply (data_ext w h); [exact Hw| |exact Hlen|].
  { apply (for_yx_ind (fun d' => length d' = w * h * 4)); [|apply length_new_array].
    intros y x s _ _ Hs. rewrite decode_threeColor_eq. cbv zeta.
    rewrite write_rgba_length. exact Hs. }
  intros y x i Hy Hx Hi.
  rewrite (decode_loop_lookup w h (decode_threeColor bwP redP w)
             (fun y x =>
                if (Z.b2z (bit_at redP (plane_cell w y x)) =? 0)%Z then (255, 0, 0)%float
                else let v := if (Z.b2z (bit_at bwP (plane_cell w y x)) =? 0)%Z
                              then 0%float else 255%float in (v, v, v))
             _ (fun y x d' => decode_threeColor_eq bwP redP w y x d')
             y x i Hy Hx Hi).
  2:{ rewrite length_new_array. apply (in_image_range w h y x); assumption. }
  destruct (Hq y x Hy Hx) as (c & Hc & Hp). cbn [width height data] in Hp.
  pose proof (pixel_lookup (mkImageData w h d) y x _ _ _ _ i Hp Hi) as Hd.
  cbn [data] in Hd. rewrite Hd. clear Hd.
  destruct (Hbits y x Hy Hx) as [Hb1 Hb2]. rewrite Hb1, Hb2.
  pose proof (blackWhiteBit_of_pixel (mkImageData w h d) y x _ _ _ _ Hp) as Hb.
  pose proof (redWhiteBit_of_pixel (mkImageData w h d) y x _ _ _ _ Hp) as Hr.
  cbn [data width] in Hb, Hr. rewrite Hb, Hr. clear Hb Hr Hb1 Hb2 Hp.
  cbn in Hc.
  repeat (apply elem_of_cons in Hc as [->|Hc]);
    [reflexivity|reflexivity|reflexivity|inversion Hc].
Qed.

(** ** The Lab search on palette colours *)

(** Case analysis on an entry known to be in a palette constant. *)
Ltac palette_cases H :=
  apply list_elem_of_In in H; simpl in H;
  repeat (destruct H as [H|H]; [subst|]); try contradiction.

Lemma palette_value_inj mode c c' :
  c ∈ palette_of mode -> c' ∈ palette_of mode -> value c = value c' -> c = c'.
Proof.
  intros Hc Hc'.
  destruct mode; palette_cases Hc; palette_cases Hc'; intros E;
    first [reflexivity | discriminate E].
Qed.

Lemma blue_guard_on_palette c :
  c ∈ rgbPalette -> blue_guard (item_r c) (item_g c) (item_b c) sixColor = true ->
  c = item_at rgbPalette 2.
Proof.
  intros Hc. palette_cases Hc; intros Hg; first [reflexivity | discriminate Hg].
Qed.

(** When [Math_pow] separates the palette of the mode, [findClosestColor]
    answers a palette colour with the entry of that colour. *)
Lemma findClosestColor_fixes_palette (Math_pow : float -> float -> float) mode c :
  mode = fourColor \/ mode = sixColor ->
  lab_separates Math_pow (palette_of mode) ->
  c ∈ palette_of mode ->
  findClosestColor Math_pow (item_r c) (item_g c) (item_b c) mode = c.
Proof.
  intros Hmode Hsep Hc.
  destruct (lab_search_reached (item_r c) (item_g c) (item_b c) mode) eqn:Hreach.
  - destruct (lab_search_result Math_pow _ _ _ mode Hreach) as (j & Hj & Hmin & _).
    set (c' := findClosestColor Math_pow (item_r c) (item_g c) (item_b c) mode) in *.
    assert (Hc' : c' ∈ palette_of mode) by (apply list_elem_of_lookup; eauto).
    destruct (Z.eq_dec (value c') (value c)) as [E|E].
    + apply (palette_value_inj mode); assumption.
    + exfalso.
      assert (Hne : c <> c') by (intros Hcc; apply E; f_equal; symmetry; exact Hcc).
      destruct (Hsep c c Hc Hc) as [Hself _]. destruct (Hsep c c' Hc Hc') as [_ Hother].
      specialize (Hself eq_refl). specialize (Hother Hne).
      pose proof (float_eqb_ltb_trans _ _ _ Hself Hother) as Hlt.
      rewrite (Hmin c Hc) in Hlt. discriminate Hlt.
  - unfold lab_search_reached in Hreach.
    destruct Hmode as [-> | ->]; [discriminate Hreach|].
    rewrite andb_true_r in Hreach. apply negb_false_iff in Hreach.
    rewrite findClosestColor_unfold, Hreach. symmetry.
    apply blue_guard_on_palette; assumption.
Qed.

Lemma of_byte_palette c :
  c ∈ rgbPalette ->
  of_byte (ToUint8Clamp (item_r c)) = item_r c /\
  of_byte (ToUint8Clamp (item_g c)) = item_g c /\
  of_byte (ToUint8Clamp (item_b c)) = item_b c.
Proof.
  intros Hc. palette_cases Hc; repeat split; reflexivity.
Qed.

Lemma of_byte_fourColorPalette c :
  c ∈ fourColorPalette ->
  of_byte (ToUint8Clamp (item_r c)) = item_r c /\
  of_byte (ToUint8Clamp (item_g c)) = item_g c /\
  of_byte (ToUint8Clamp (item_b c)) = item_b c.
Proof.
  intros Hc. palette_cases Hc; repeat split; reflexivity.
Qed.

(** ** Round trip: six-colour mode *)

Lemma pack_sixColor_lookup (Math_pow : float -> float -> float) w h d y x :
  y < h -> x < w ->
  for_yx w h (pack_sixColor Math_pow w h d) (new_array (w * h)) !! (x * h + (h - 1 - y)) =
    Some (ToUint8 (value (findClosestColor Math_pow (read d ((y * w + x) * 4))
                            (read d ((y * w + x) * 4 + 1)) (read d ((y * w + x) * 4 + 2))
                            sixColor))).
Proof.
  intros Hy Hx. rewrite for_yx_coords.
  set (W := fun (p : nat * nat) (s : list Z) => pack_sixColor Math_pow w h d (fst p) (snd p) s).
  set (obs := fun (s : list Z) (i : nat) => s !! i).
  set (ok := fun (s : list Z) (i : nat) => i < length s).
  set (foot := fun (p : nat * nat) (i : nat) => i =? snd p * h + (h - 1 - fst p)).
  set (upd := fun (p : nat * nat) (_ : nat) (_ : option Z) =>
     Some (ToUint8 (value (findClosestColor Math_pow (read d ((fst p * w + snd p) * 4))
                             (read d ((fst p * w + snd p) * 4 + 1))
                             (read d ((fst p * w + snd p) * 4 + 2)) sixColor)))).
  assert (Hok : forall k s c, ok s c -> ok (W k s) c).
  { intros p s c Hc. unfold ok, W, pack_sixColor. rewrite length_store_u8. exact Hc. }
  assert (Hframe : forall k s c, foot k c = false -> obs (W k s) c = obs s c).
  { intros p s c Hf. unfold foot, obs, W, pack_sixColor, store_u8 in *.
    apply Nat.eqb_neq in Hf. apply list_lookup_insert_ne. congruence. }
  assert (Hupd : forall k s c, foot k c = true -> ok s c -> obs (W k s) c = upd k c (obs s c)).
  { intros p s c Hf Hc. unfold foot, obs, W, upd, ok, pack_sixColor, store_u8 in *.
    apply Nat.eqb_eq in Hf. subst c. apply list_lookup_insert_eq. exact Hc. }
  change (obs (fold_left (fun s k => W k s) (coords w h) (new_array (w * h)))
            (x * h + (h - 1 - y)) = upd (y, x) (x * h + (h - 1 - y))
                                      (obs (new_array (w * h)) (x * h + (h - 1 - y)))).
  apply (scatter_fold W obs ok foot upd Hok Hframe Hupd).
  - apply NoDup_coords.
  - intros [y1 x1] [y2 x2] H1 H2 F1 F2. unfold foot in *. cbn [fst snd] in *.
    apply elem_of_coords in H1, H2. apply Nat.eqb_eq in F1, F2.
    destruct (column_major_inj h y1 x1 y2 x2) as [-> ->]; [lia|lia|lia|reflexivity].
  - apply elem_of_coords. lia.
  - unfold foot. cbn [fst snd]. apply Nat.eqb_refl.
  - unfold ok. rewrite length_new_array.
    assert ((x + 1) * h <= w * h) by (apply Nat.mul_le_mono_r; lia). lia.
Qed.

Lemma find_rgbPalette_value c :
  c ∈ rgbPalette ->
  List.find (fun c' => (item_value c' =? ToUint8 (value c))%Z) rgbPalette = Some c.
Proof.
  intros Hc. palette_cases Hc; reflexivity.
Qed.

Lemma roundtrip_sixColor (Math_pow : float -> float -> float) (q : ImageData) :
  ImageData_wf q -> quantized sixColor 255 q ->
  lab_separates Math_pow rgbPalette ->
  decodeProcessedData (processImageData Math_pow q sixColor)
    (width q) (height q) sixColor = Some q.
Proof.
  intros (Hw & Hh & Hlen) Hq Hsep. destruct q as [w h d]. cbn [width height data] in *.
  unfold decodeProcessedData. rewrite (new_ImageData_Some w h Hw Hh). cbn [data].
  f_equal. f_equal. unfold processImageData. cbn [width height data].
  set (P := for_yx w h (pack_sixColor Math_pow w h d) (new_array (w * h))).
  apply (data_ext w h); [exact Hw| |exact Hlen|].
  { apply (for_yx_ind (fun d' => length d' = w * h * 4)); [|apply length_new_array].
    intros y x s _ _ Hs. unfold decode_sixColor. rewrite write_rgba_length. exact Hs. }
  intros y x i Hy Hx Hi.
  set (color := fun y x =>
         match P !! (x * h + (h - 1 - y)) with
         | Some value =>
             match List.find (fun c => (item_value c =? value)%Z) rgbPalette with
             | Some c => c
             | None => item_at rgbPalette 5
             end
         | None => item_at rgbPalette 5
         end).
  rewrite (decode_loop_lookup w h (decode_sixColor P w h)
             (fun y x => (item_r (color y x), item_g (color y x), item_b (color y x)))
             _ (fun y x d' => eq_refl) y x i Hy Hx Hi).
  2:{ rewrite length_new_array. apply (in_image_range w h y x); assumption. }
  destruct (Hq y x Hy Hx) as (c & Hc & Hp). cbn [width height data mode_colors] in Hp, Hc.
  pose proof (pixel_lookup (mkImageData w h d) y x _ _ _ _ i Hp Hi) as Hd.
  cbn [data] in Hd. rewrite Hd. clear Hd.
  destruct (pixel_inv _ y x _ _ _ _ Hp) as (H0 & H1 & H2 & _). cbn [data width] in H0, H1, H2.
  destruct (of_byte_palette c Hc) as (Er & Eg & Eb).
  assert (Ecol : color y x = c).
  { unfold color, P. rewrite (pack_sixColor_lookup Math_pow w h d y x Hy Hx).
    rewrite (read_of_lookup _ _ _ H0), (read_of_lookup _ _ _ H1), (read_of_lookup _ _ _ H2).
    rewrite Er, Eg, Eb.
    rewrite (findClosestColor_fixes_palette Math_pow sixColor c (or_intror eq_refl) Hsep Hc).
    rewrite (find_rgbPalette_value c Hc). reflexivity. }
  cbn [fst snd]. rewrite Ecol. reflexivity.
Qed.

(** ** Round trip: four-colour mode *)

Lemma four_value_range (Math_pow : float -> float -> float) data w y x :
  (0 <= four_value Math_pow data w y x < 4)%Z.
Proof.
  unfold four_value. cbv zeta.
  pose proof (findClosestColor_in_palette Math_pow
                (read data ((y * w + x) * 4)) (read data ((y * w + x) * 4 + 1))
                (read data ((y * w + x) * 4 + 2)) fourColor) as Hc.
  destruct (findClosestColor _ _ _ _ _) as [n cr cg cb v].
  palette_cases Hc; injection Hc as _ _ _ _ <-; cbn; lia.
Qed.

Lemma testbit_small_high v n : (0 <= v < 4)%Z -> 2 <= n -> Z.testbit v (Z.of_nat n) = false.
Proof.
  intros Hv Hn. destruct (Z.eq_dec v 0%Z) as [->|Hv0]; [apply Z.bits_0|].
  apply Z.bits_above_log2; [lia|].
  assert (Z.log2 v < 2)%Z by (apply Z.log2_lt_pow2; lia). lia.
Qed.

Lemma four_shift_cases x :
  four_shift x = 0 \/ four_shift x = 2 \/ four_shift x = 4 \/ four_shift x = 6.
Proof.
  unfold four_shift. pose proof (Nat.mod_upper_bound x 4 ltac:(lia)).
  destruct (x mod 4) as [|[|[|[|n]]]]; lia.
Qed.

Lemma four_shift_inj x1 x2 : four_shift x1 = four_shift x2 -> x1 mod 4 = x2 mod 4.
Proof.
  unfold four_shift.
  pose proof (Nat.mod_upper_bound x1 4 ltac:(lia)).
  pose proof (Nat.mod_upper_bound x2 4 ltac:(lia)). lia.
Qed.

Lemma four_index_aligned w y x : w mod 4 = 0 -> four_index w y x = y * (w / 4) + x / 4.
Proof.
  intros Hw. unfold four_index.
  pose proof (Nat.div_mod_eq w 4) as E. rewrite Hw, Nat.add_0_r in E.
  rewrite E at 1.
  replace (y * (4 * (w / 4)) + x) with (x + (y * (w / 4)) * 4) by lia.
  rewrite Nat.div_add by lia. lia.
Qed.

Lemma four_foot_disjoint w h p1 p2 c :
  w mod 4 = 0 -> p1 ∈ coords w h -> p2 ∈ coords w h ->
  four_foot w p1 c = true -> four_foot w p2 c = true -> p1 = p2.
Proof.
  destruct p1 as [y1 x1], p2 as [y2 x2]. intros Hw H1 H2 F1 F2.
  apply elem_of_coords in H1, H2. unfold four_foot in *. cbn [fst snd] in *.
  apply andb_true_iff in F1 as [A1 B1], F2 as [A2 B2].
  apply Nat.eqb_eq in A1, A2. apply orb_true_iff in B1, B2.
  rewrite !Nat.eqb_eq in B1, B2.
  assert (Hs : four_shift x1 = four_shift x2).
  { pose proof (four_shift_cases x1). pose proof (four_shift_cases x2). lia. }
  apply four_shift_inj in Hs.
  rewrite (four_index_aligned w y1 x1 Hw) in A1. rewrite (four_index_aligned w y2 x2 Hw) in A2.
  pose proof (Nat.div_mod_eq w 4) as E. rewrite Hw, Nat.add_0_r in E.
  assert (x1 / 4 < w / 4) by (apply Nat.Div0.div_lt_upper_bound; lia).
  assert (x2 / 4 < w / 4) by (apply Nat.Div0.div_lt_upper_bound; lia).
  destruct (raster_inj (w / 4) y1 (x1 / 4) y2 (x2 / 4)) as [-> Hd];
    [assumption|assumption|congruence|].
  f_equal. apply (div_mod_inj 4); [lia|exact Hd|exact Hs].
Qed.

Lemma four_index_in_range w h y x :
  y < h -> x < w -> four_index w y x < ceil_div (w * h) 4.
Proof.
  intros Hy Hx. unfold four_index.
  destruct (ceil_div_least (w * h) 4 ltac:(lia)) as [Hup _].
  apply Nat.Div0.div_lt_upper_bound.
  assert ((y + 1) * w <= h * w) by (apply Nat.mul_le_mono_r; lia).
  revert Hup. generalize (ceil_div (w * h) 4). intros n Hup. lia.
Qed.

(** After the four-colour packing loop on an image whose width is a
    multiple of 4, the two bits of each pixel hold its colour code. *)
Lemma pack_fourColor_bits (Math_pow : float -> float -> float) w h d y x t :
  w mod 4 = 0 -> y < h -> x < w -> t < 2 ->
  bit_at (for_yx w h (pack_fourColor Math_pow w d) (new_array (ceil_div (w * h) 4)))
    (four_index w y x, four_shift x + t) =
  Z.testbit (four_value Math_pow d w y x) (Z.of_nat t).
Proof.
  intros Hw Hy Hx Ht. rewrite for_yx_coords.
  set (W := fun (p : nat * nat) (s : list Z) => pack_fourColor Math_pow w d (fst p) (snd p) s).
  set (upd := fun (p : nat * nat) (c : nat * nat) (v : bool) =>
     v || Z.testbit (four_value Math_pow d w (fst p) (snd p))
            (Z.of_nat (snd c - four_shift (snd p)))).
  assert (Hstep : forall p s c,
            bit_at (W p s) c =
              if (four_index w (fst p) (snd p) =? fst c) && (fst c <? length s)
              then (snd c <? 8)
                   && (Z.testbit (read_u8 s (fst c)) (Z.of_nat (snd c))
                       || (four_shift (snd p) <=? snd c)
                          && Z.testbit (four_value Math_pow d w (fst p) (snd p))
                               (Z.of_nat (snd c - four_shift (snd p))))
              else bit_at s c).
  { intros p s c. unfold W, pack_fourColor. rewrite bit_at_or_assign.
    rewrite testbit_shiftl_nat. reflexivity. }
  assert (Hok : forall k s c, bit_cell_ok s c -> bit_cell_ok (W k s) c).
  { intros p s c [H1 H2]. split; [|exact H2].
    unfold W, pack_fourColor. rewrite length_or_assign. exact H1. }
  assert (Hframe : forall k s c, four_foot w k c = false -> bit_at (W k s) c = bit_at s c).
  { intros p s c Hf. rewrite Hstep. unfold four_foot in Hf.
    destruct (Nat.eqb_spec (four_index w (fst p) (snd p)) (fst c)) as [E|E];
      cbn [andb]; [|reflexivity].
    destruct (fst c <? length s); [|reflexivity].
    rewrite <- E, Nat.eqb_refl in Hf. cbn [andb] in Hf.
    apply orb_false_iff in Hf as [Hf1 Hf2]. apply Nat.eqb_neq in Hf1, Hf2.
    destruct (Nat.leb_spec (four_shift (snd p)) (snd c)) as [Hle|Hgt]; cbn [andb].
    - rewrite (testbit_small_high (four_value Math_pow d w (fst p) (snd p))
                 (snd c - four_shift (snd p)))
        by (apply four_value_range || lia).
      rewrite orb_false_r. reflexivity.
    - rewrite orb_false_r. reflexivity. }
  assert (Hupd : forall k s c, four_foot w k c = true -> bit_cell_ok s c ->
                 bit_at (W k s) c = upd k c (bit_at s c)).
  { intros p s c Hf [H1 H2]. rewrite Hstep. unfold four_foot in Hf. unfold upd.
    apply andb_true_iff in Hf as [A B]. apply Nat.eqb_eq in A.
    rewrite <- A, Nat.eqb_refl. cbn [andb].
    destruct (Nat.ltb_spec (fst c) (length s)) as [_|?]; [|lia].
    apply orb_true_iff in B. rewrite !Nat.eqb_eq in B.
    destruct (Nat.leb_spec (four_shift (snd p)) (snd c)) as [_|?]; [|lia]. cbn [andb].
    unfold bit_at. destruct (Nat.ltb_spec (snd c) 8) as [_|?]; [|lia]. reflexivity. }
  rewrite (scatter_fold W bit_at bit_cell_ok (four_foot w) upd Hok Hframe Hupd
             (coords w h) _ (y, x)).
  - unfold upd. rewrite bit_at_new_array. cbn [fst snd orb].
    f_equal. f_equal. lia.
  - apply NoDup_coords.
  - intros k1 k2. apply four_foot_disjoint, Hw.
  - apply elem_of_coords. lia.
  - unfold four_foot. cbn [fst snd]. rewrite Nat.eqb_refl. cbn [andb].
    apply orb_true_iff. rewrite !Nat.eqb_eq. lia.
  - unfold bit_cell_ok. rewrite length_new_array. cbn [fst snd]. split.
    + apply four_index_in_range; assumption.
    + pose proof (four_shift_cases x). lia.
Qed.

Lemma find_fourColorValues c :
  c ∈ fourColorPalette ->
  let value := (Z.b2z (Z.testbit (item_value c) 0) + 2 * Z.b2z (Z.testbit (item_value c) 1))%Z in
  match List.find (fun c' => (fst c' =? value)%Z) fourColorValues with
  | Some c' => snd c'
  | None => snd (nth 1 fourColorValues (0%Z, (NaN, NaN, NaN)))
  end = (item_r c, item_g c, item_b c).
Proof. intros Hc. palette_cases Hc; reflexivity. Qed.

Lemma decode_fourColor_eq P w y x d :
  decode_fourColor P w y x d =
    let value := (Z.b2z (bit_at P (four_index w y x, (four_shift x + 0)%nat))
                  + 2 * Z.b2z (bit_at P (four_index w y x, (four_shift x + 1)%nat)))%Z in
    let col :=
      match List.find (fun c' => (fst c' =? value)%Z) fourColorValues with
      | Some c' => snd c'
      | None => snd (nth 1 fourColorValues (0%Z, (NaN, NaN, NaN)))
      end in
    write_rgba d ((y * w + x) * 4) (fst (fst col)) (snd (fst col)) (snd col) 255.
Proof.
  unfold decode_fourColor. cbv zeta.
  fold (four_index w y x). fold (four_shift x). rewrite land_shiftr_3.
  unfold bit_at. cbn [fst snd].
  pose proof (four_shift_cases x) as Hs.
  destruct (Nat.ltb_spec (four_shift x + 0) 8) as [_|?]; [|lia].
  destruct (Nat.ltb_spec (four_shift x + 1) 8) as [_|?]; [|lia].
  cbn [andb]. rewrite Nat.add_0_r.
  destruct (match List.find _ fourColorValues with Some c' => snd c' | None => _ end)
    as [[cr cg] cb]. reflexivity.
Qed.

Lemma roundtrip_fourColor (Math_pow : float -> float -> float) (q : ImageData) :
  ImageData_wf q -> quantized fourColor 255 q ->
  width q mod 4 = 0 ->
  lab_separates Math_pow fourColorPalette ->
  decodeProcessedData (processImageData Math_pow q fourColor)
    (width q) (height q) fourColor = Some q.
Proof.
  intros (Hw & Hh & Hlen) Hq Hw4 Hsep. destruct q as [w h d]. cbn [width height data] in *.
  unfold decodeProcessedData. rewrite (new_ImageData_Some w h Hw Hh). cbn [data].
  f_equal. f_equal. unfold processImageData. cbn [width height data].
  set (P := for_yx w h (pack_fourColor Math_pow w d) (new_array (ceil_div (w * h) 4))).
  apply (data_ext w h); [exact Hw| |exact Hlen|].
  { apply (for_yx_ind (fun d' => length d' = w * h * 4)); [|apply length_new_array].
    intros y x s _ _ Hs. rewrite decode_fourColor_eq. cbv zeta.
    rewrite write_rgba_length. exact Hs. }
  intros y x i Hy Hx Hi.
  rewrite (decode_loop_lookup w h (decode_fourColor P w)
             (fun y x =>
                match List.find (fun c' => (fst c' =?
                         (Z.b2z (bit_at P (four_index w y x, (four_shift x + 0)%nat))
                          + 2 * Z.b2z (bit_at P (four_index w y x, (four_shift x + 1)%nat))))%Z)
                        fourColorValues with
                | Some c' => snd c'
                | None => snd (nth 1 fourColorValues (0%Z, (NaN, NaN, NaN)))
                end)
             _ (fun y x d' => decode_fourColor_eq P w y x d') y x i Hy Hx Hi).
  2:{ rewrite length_new_array. apply (in_image_range w h y x); assumption. }
  destruct (Hq y x Hy Hx) as (c & Hc & Hp). cbn [width height data mode_colors] in Hp, Hc.
  pose proof (pixel_lookup (mkImageData w h d) y x _ _ _ _ i Hp Hi) as Hd.
  cbn [data] in Hd. rewrite Hd. clear Hd.
  destruct (pixel_inv _ y x _ _ _ _ Hp) as (H0 & H1 & H2 & _). cbn [data width] in H0, H1, H2.
  destruct (of_byte_fourColorPalette c Hc) as (Er & Eg & Eb).
  assert (Ev : four_value Math_pow d w y x = item_value c).
  { unfold four_value. cbv zeta.
    rewrite (read_of_lookup _ _ _ H0), (read_of_lookup _ _ _ H1), (read_of_lookup _ _ _ H2).
    rewrite Er, Eg, Eb.
    rewrite (findClosestColor_fixes_palette Math_pow fourColor c (or_introl eq_refl) Hsep Hc).
    reflexivity. }
  unfold P. rewrite !(pack_fourColor_bits Math_pow w h d y x) by (assumption || lia).
  rewrite Ev. change (Z.of_nat 0) with 0%Z. change (Z.of_nat 1) with 1%Z.
  rewrite (find_fourColorValues c Hc). reflexivity.
Qed.

(** ** Round trip: all modes *)

(** C1 (as amended): for each of the four colour modes, and for every
    well-formed image whose pixels all carry one of the colours of the mode
    with alpha 255, decoding the packed bytes gives the image back exactly,
    provided that in four-colour mode the width is a multiple of 4, and
    that in the four- and six-colour modes (the two that quantize through
    the Lab search) [Math.pow] separates the palette of the mode. *)
Theorem decode_process_roundtrip (Math_pow : float -> float -> float) (q : ImageData)
    (mode : DitherMode) :
  ImageData_wf q ->
  quantized mode 255 q ->
  (mode = fourColor -> width q mod 4 = 0) ->
  (mode = fourColor \/ mode = sixColor -> lab_separates Math_pow (palette_of mode)) ->
  decodeProcessedData (processImageData Math_pow q mode) (width q) (height q) mode = Some q.
Proof.
  intros Hwf Hq Hw4 Hsep. destruct mode.
  - apply roundtrip_blackWhiteColor; assumption.
  - apply roundtrip_threeColor; assumption.
  - apply roundtrip_fourColor; [assumption|assumption|apply Hw4; reflexivity|].
    apply Hsep. left. reflexivity.
  - apply roundtrip_sixColor; [assumption|assumption|].
    apply Hsep. right. reflexivity.
Qed.

(** The reference [Math.pow] separates both palettes. *)
Lemma Math_pow_ref_separates :
  lab_separates Math_pow_ref rgbPalette /\ lab_separates Math_pow_ref fourColorPalette.
Proof.
  split; intros c c' Hc Hc'; palette_cases Hc; palette_cases Hc';
    (split; intros E;
     [first [vm_compute; reflexivity | discriminate E]
     |first [vm_compute; reflexivity | contradiction E; reflexivity]]).
Qed.

Lemma six_sample_quantized : quantized sixColor 255 six_sample.
Proof.
  intros y x Hy Hx. cbn in Hy, Hx. exists (item_at rgbPalette (y * 3 + x)).
  destruct y as [|[|y]]; [| |lia]; destruct x as [|[|[|x]]]; try lia;
    (split; [|reflexivity]); apply list_elem_of_In; cbn; tauto.
Qed.

Lemma four_sample_quantized : quantized fourColor 255 four_sample.
Proof.
  intros y x Hy Hx. cbn in Hy, Hx. exists (item_at fourColorPalette x).
  destruct y as [|y]; [|lia]; destruct x as [|[|[|[|x]]]]; try lia;
    (split; [|reflexivity]); apply list_elem_of_In; cbn; tauto.
Qed.

Lemma decode_process_roundtrip_witness :
  (ImageData_wf six_sample /\ quantized sixColor 255 six_sample /\
   decodeProcessedData (processImageData Math_pow_ref six_sample sixColor) 3 2 sixColor
     = Some six_sample) /\
  (ImageData_wf four_sample /\ quantized fourColor 255 four_sample /\
   width four_sample mod 4 = 0 /\
   decodeProcessedData (processImageData Math_pow_ref four_sample fourColor) 4 1 fourColor
     = Some four_sample).
Proof.
  assert (Hwf6 : ImageData_wf six_sample) by (repeat split; cbn; lia).
  assert (Hwf4 : ImageData_wf four_sample) by (repeat split; cbn; lia).
  split.
  - split; [exact Hwf6|]. split; [exact six_sample_quantized|].
    apply (decode_process_roundtrip Math_pow_ref six_sample sixColor Hwf6 six_sample_quantized).
    + intros E. discriminate E.
    + intros _. exact (proj1 Math_pow_ref_separates).
  - split; [exact Hwf4|]. split; [exact four_sample_quantized|]. split; [reflexivity|].
    apply (decode_process_roundtrip Math_pow_ref four_sample fourColor Hwf4 four_sample_quantized).
    + intros _. reflexivity.
    + intros _. exact (proj2 Math_pow_ref_separates).
Defined.

(** C1, counterexample: a one-pixel transparent black image (what a fresh
    canvas holds) is quantized for the two-colour mode, and comes back
    opaque: the decoder stores 255 in every alpha byte. *)
Lemma roundtrip_loses_alpha :
  let q := mkImageData 1 1 [0; 0; 0; 0]%Z in
  ImageData_wf q /\ quantized blackWhiteColor 0 q /\
  forall Math_pow,
    decodeProcessedData (processImageData Math_pow q blackWhiteColor) 1 1 blackWhiteColor
      = Some (mkImageData 1 1 [0; 0; 0; 255]%Z) /\
    decodeProcessedData (processImageData Math_pow q blackWhiteColor) 1 1 blackWhiteColor
      <> Some q.
Proof.
  cbv zeta. split; [repeat split; cbn; lia|]. split.
  - intros y x Hy Hx. cbn in Hy, Hx. destruct y; [|lia]. destruct x; [|lia].
    exists (mkColor "黑色" 0 0 0 0x00). split; [|reflexivity].
    apply list_elem_of_In. cbn. tauto.
  - intros Math_pow. split; [reflexivity|]. intros E. discriminate E.
Qed.

(** In four-colour mode, pixels share bits when the width is not a
    multiple of 4: in a 2 x 2 image, (0, 0) and (0, 1) both land in bits 7-6
    of byte 0, and a red pixel above a white one turns the white one red. *)
Lemma fourColor_narrow_width_collides :
  let q := mkImageData 2 2
             [ 255; 0; 0; 255;      255; 255; 255; 255;
               255; 255; 255; 255;  255; 255; 255; 255 ]%Z in
  quantized fourColor 255 q /\
  processImageData Math_pow_ref q fourColor = [0xD0]%Z /\
  decodeProcessedData (processImageData Math_pow_ref q fourColor) 2 2 fourColor =
    Some (mkImageData 2 2
            [ 255; 0; 0; 255;  255; 255; 255; 255;
              255; 0; 0; 255;  255; 255; 255; 255 ]%Z).
Proof.
  cbv zeta. split; [|split; vm_compute; reflexivity].
  intros y x Hy Hx. cbn in Hy, Hx.
  exists (item_at fourColorPalette (if (y =? 0) && (x =? 0) then 2 else 1)).
  destruct y as [|[|y]]; [| |lia]; destruct x as [|[|x]]; try lia;
    (split; [|reflexivity]); apply list_elem_of_In; cbn; tauto.
Qed.

(** * Further properties *)

(** ** Pixels under [write_rgb] *)

Lemma write_rgb_lookup d i c j :
  write_rgb d i c !! j =
    if decide (j < length d) then
      if decide (j = i) then Some (ToUint8Clamp (item_r c))
      else if decide (j = i + 1) then Some (ToUint8Clamp (item_g c))
      else if decide (j = i + 2) then Some (ToUint8Clamp (item_b c))
      else d !! j
    else None.
Proof.
  unfold write_rgb, store_clamped.
  destruct (decide (j < length d)) as [Hlt|Hge].
  - destruct (decide (j = i)) as [->|H0].
    + rewrite !list_lookup_insert_ne by lia. apply list_lookup_insert_eq. exact Hlt.
    + destruct (decide (j = i + 1)) as [->|H1].
      * rewrite list_lookup_insert_ne by lia. apply list_lookup_insert_eq.
        rewrite length_insert. exact Hlt.
      * destruct (decide (j = i + 2)) as [->|H2].
        -- apply list_lookup_insert_eq. rewrite !length_insert. exact Hlt.
        -- rewrite !list_lookup_insert_ne by lia. reflexivity.
  - apply lookup_ge_None_2. rewrite !length_insert. lia.
Qed.

Lemma pixel_write_rgb w h d k closest y x :
  pixel (mkImageData w h (write_rgb d (k * 4) closest)) y x =
    if y * w + x =? k then repaint closest (pixel (mkImageData w h d) y x)
    else pixel (mkImageData w h d) y x.
Proof.
  unfold pixel. cbn [data width]. rewrite !write_rgb_lookup.
  destruct (Nat.eqb_spec (y * w + x) k) as [->|Hne];
    set (i := (y * w + x) * 4);
    repeat match goal with
    | |- context [decide (?a = ?b)] => destruct (decide (a = b)); try lia
    end;
    repeat match goal with
    | |- context [decide (?a < ?b)] => destruct (decide (a < b))
    end; try lia; try reflexivity;
    repeat match goal with
    | |- context [d !! ?j] =>
        first [rewrite (lookup_ge_None_2 d j) by lia
              | let H := fresh in
                assert (H : j < length d) by lia;
                destruct (lookup_lt_is_Some_2 d j H) as [? ->]; clear H; cbn
              | destruct (d !! j) eqn:?; cbn]
    end; try reflexivity.
Qed.

(** ** Writers that establish a property of their own cell *)

Section Paint.

Context {St K V : Type}.
Variables (W : K -> St -> St) (obs : St -> K -> V) (Pre Post : V -> Prop).
Hypothesis W_pre : forall k s c, Pre (obs s c) -> Pre (obs (W k s) c).
Hypothesis W_post : forall k s c, Post (obs s c) -> Post (obs (W k s) c).
Hypothesis W_est : forall k s, Pre (obs s k) -> Post (obs (W k s) k).

Lemma paint_keeps l s c : Post (obs s c) -> Post (obs (fold_left (fun s k => W k s) l s) c).
Proof. revert s. induction l as [|k l IH]; intros s H; simpl; [exact H|]. apply IH, W_post, H. Qed.

Lemma paint_fold l s k :
  k ∈ l -> Pre (obs s k) -> Post (obs (fold_left (fun s k => W k s) l s) k).
Proof.
  revert s. induction l as [|k0 l IH]; intros s Hk Hpre; [inversion Hk|].
  simpl. apply elem_of_cons in Hk as [->|Hk].
  - apply paint_keeps, W_est, Hpre.
  - apply IH; [exact Hk|apply W_pre, Hpre].
Qed.

End Paint.

(** ** Dithered images show palette colours only *)

Section DitherQuantizes.

Variable Math_pow : float -> float -> float.

Lemma has_alpha_write_rgb w h d k closest a y x :
  has_alpha a (pixel (mkImageData w h d) y x) ->
  has_alpha a (pixel (mkImageData w h (write_rgb d (k * 4) closest)) y x).
Proof.
  intros (r0 & g0 & b0 & H). rewrite pixel_write_rgb, H.
  destruct (_ =? _); cbn; unfold has_alpha; eauto.
Qed.

Lemma painted_write_rgb w h d k mode closest a y x :
  closest ∈ palette_of mode ->
  painted mode a (pixel (mkImageData w h d) y x) ->
  painted mode a (pixel (mkImageData w h (write_rgb d (k * 4) closest)) y x).
Proof.
  intros Hc (c & Hin & H). rewrite pixel_write_rgb, H.
  destruct (_ =? _); cbn; [exists closest|exists c]; split; auto.
Qed.

Lemma painted_write_rgb_own w h d mode closest a y x :
  closest ∈ palette_of mode ->
  has_alpha a (pixel (mkImageData w h d) y x) ->
  painted mode a (pixel (mkImageData w h (write_rgb d ((y * w + x) * 4) closest)) y x).
Proof.
  intros Hc (r0 & g0 & b0 & H). rewrite pixel_write_rgb, H, Nat.eqb_refl. cbn.
  exists closest. split; auto.
Qed.

(** A loop whose body paints the pixel it visits with some palette colour
    [pick] chooses, whatever else it does to the rest [T] of its state. *)
Lemma painting_loop {T : Type} (w h : nat) (mode : DitherMode)
    (body : nat -> nat -> T * list Z -> T * list Z)
    (pick : nat -> nat -> T * list Z -> ColorPaletteItem) :
  (forall y x st, pick y x st ∈ palette_of mode) ->
  (forall y x st, snd (body y x st) = write_rgb (snd st) ((y * w + x) * 4) (pick y x st)) ->
  forall st y x a, y < h -> x < w ->
    has_alpha a (pixel (mkImageData w h (snd st)) y x) ->
    painted mode a (pixel (mkImageData w h (snd (for_yx w h body st))) y x).
Proof.
  intros Hpick Hbody st y x a Hy Hx Ha. rewrite for_yx_coords.
  set (W := fun (p : nat * nat) (s : T * list Z) => body (fst p) (snd p) s).
  set (obs := fun (s : T * list Z) (c : nat * nat) =>
                pixel (mkImageData w h (snd s)) (fst c) (snd c)).
  change (painted mode a (obs (fold_left (fun s k => W k s) (coords w h) st) (y, x))).
  apply (paint_fold W obs (has_alpha a) (painted mode a)).
  - intros k s c H. unfold obs, W. rewrite Hbody. apply has_alpha_write_rgb, H.
  - intros k s c H. unfold obs, W. rewrite Hbody. apply painted_write_rgb; [apply Hpick|exact H].
  - intros k s H. unfold obs, W. rewrite Hbody. apply painted_write_rgb_own; [apply Hpick|exact H].
  - apply elem_of_coords. auto.
  - exact Ha.
Qed.

Lemma requantize_pass_paints w h mode tempData d y x a :
  y < h -> x < w ->
  has_alpha a (pixel (mkImageData w h d) y x) ->
  painted mode a (pixel (mkImageData w h (requantize_pass Math_pow w h mode tempData d)) y x).
Proof.
  intros Hy Hx Ha. unfold requantize_pass.
  pose (body := fun (y x : nat) (st : unit * list Z) =>
    (tt, write_rgb (snd st) ((y * w + x) * 4)
           (findClosestColor Math_pow (read tempData ((y * w + x) * 4))
              (read tempData ((y * w + x) * 4 + 1)) (read tempData ((y * w + x) * 4 + 2)) mode))).
  assert (E : forall d0, for_yx w h (fun y x data =>
                write_rgb data ((y * w + x) * 4)
                  (findClosestColor Math_pow (read tempData ((y * w + x) * 4))
                     (read tempData ((y * w + x) * 4 + 1))
                     (read tempData ((y * w + x) * 4 + 2)) mode)) d0
              = snd (for_yx w h body (tt, d0))).
  { intros d0. rewrite !for_yx_coords. generalize (coords w h). intros l. revert d0.
    induction l as [|p l IH]; intros d0; simpl; [reflexivity|]. apply IH. }
  cbv zeta. rewrite E.
  apply (painting_loop w h mode body
           (fun y x _ => findClosestColor Math_pow (read tempData ((y * w + x) * 4))
              (read tempData ((y * w + x) * 4 + 1)) (read tempData ((y * w + x) * 4 + 2)) mode));
    auto.
  intros. apply findClosestColor_in_palette.
Qed.

Lemma ditherImage_paints (imageData : ImageData) (alg : DitherAlgorithm) (strength : float)
    (mode : DitherMode) (y x : nat) (a : Z) :
  alg <> none -> y < height imageData -> x < width imageData ->
  has_alpha a (pixel imageData y x) ->
  painted mode a (pixel (ditherImage Math_pow imageData alg strength mode) y x).
Proof.
  intros Halg Hy Hx Ha. destruct imageData as [w h d]. cbn [width height] in Hy, Hx.
  destruct alg; [| | | | |congruence]; cbn [ditherImage].
  - unfold floydSteinbergDither. cbn [width height data].
    apply requantize_pass_paints; assumption.
  - unfold atkinsonDither. cbn [width height data].
    apply (painting_loop w h mode (atkinson_body Math_pow w h strength mode)
             (fun y x st =>
                findClosestColor Math_pow (read (fst st) ((y * w + x) * 4))
                  (read (fst st) ((y * w + x) * 4 + 1))
                  (read (fst st) ((y * w + x) * 4 + 2)) mode)); auto.
    + intros. apply findClosestColor_in_palette.
    + intros y0 x0 [t d0]. reflexivity.
  - unfold bayerDither. cbn [width height data].
    pose (body := fun (y x : nat) (st : unit * list Z) =>
                    (tt, bayer_body Math_pow w strength mode y x (snd st))).
    assert (E : forall d0, for_yx w h (bayer_body Math_pow w strength mode) d0
                = snd (for_yx w h body (tt, d0))).
    { intros d0. rewrite !for_yx_coords. generalize (coords w h). intros l. revert d0.
      induction l as [|p l IH]; intros d0; simpl; [reflexivity|]. apply IH. }
    rewrite E.
    apply (painting_loop w h mode body
             (fun y x st =>
                let t := ((nth (x mod 8) (nth (y mod 8) bayerMatrix []) NaN / 64) * 255)%float in
                let adj v := Math_min 255 (Math_max 0 (v + (t - 127.5) * strength)%float) in
                findClosestColor Math_pow
                  (adj (read (snd st) ((y * w + x) * 4)))
                  (adj (read (snd st) ((y * w + x) * 4 + 1)))
                  (adj (read (snd st) ((y * w + x) * 4 + 2))) mode)); auto.
    + intros. apply findClosestColor_in_palette.
  - unfold stuckiDither. cbn [width height data].
    apply requantize_pass_paints; assumption.
  - unfold jarvisDither. cbn [width height data].
    apply (painting_loop w h mode (jarvis_body Math_pow w h strength mode)
             (fun y x st =>
                findClosestColor Math_pow (read (fst st) ((y * w + x) * 4))
                  (read (fst st) ((y * w + x) * 4 + 1))
                  (read (fst st) ((y * w + x) * 4 + 2)) mode)); auto.
    + intros. apply findClosestColor_in_palette.
    + intros y0 x0 [t d0]. reflexivity.
Qed.

End DitherQuantizes.

(** X1: whichever of the five algorithms [ditherImage] dispatches to, a
    pixel inside the image comes out in a colour of the palette that
    [findClosestColor] searches in the given mode (the six-colour palette
    in the two-colour mode), and with the alpha byte it had. *)
Theorem dithered_pixels_in_palette (Math_pow : float -> float -> float) (imageData : ImageData)
    (alg : DitherAlgorithm) (strength : float) (mode : DitherMode) (y x : nat) (r g b a : Z) :
  alg <> none -> y < height imageData -> x < width imageData ->
  pixel imageData y x = Some (r, g, b, a) ->
  exists c, c ∈ palette_of mode /\
    pixel (ditherImage Math_pow imageData alg strength mode) y x =
      Some (ToUint8Clamp (item_r c), ToUint8Clamp (item_g c), ToUint8Clamp (item_b c), a).
Proof.
  intros Halg Hy Hx Hp.
  apply (ditherImage_paints Math_pow imageData alg strength mode y x a Halg Hy Hx).
  exists r, g, b. exact Hp.
Qed.

Lemma dithered_pixels_in_palette_witness :
  exists c, c ∈ palette_of threeColor /\
    pixel (ditherImage Math_pow_ref six_sample atkinson 1 threeColor) 1 2 =
      Some (ToUint8Clamp (item_r c), ToUint8Clamp (item_g c), ToUint8Clamp (item_b c), 255%Z).
Proof.
  apply (dithered_pixels_in_palette Math_pow_ref six_sample atkinson 1 threeColor 1 2
           255 255 255 255).
  - discriminate.
  - cbn. lia.
  - cbn. lia.
  - reflexivity.
Defined.

(** ** Ordered dithering acts pixel by pixel *)

Section BayerLocal.

Variable Math_pow : float -> float -> float.

Lemma bayer_body_pixel w h strength mode d y x y' x' :
  y' * w + x' = y * w + x ->
  pixel (mkImageData w h (bayer_body Math_pow w strength mode y x d)) y' x' =
    option_map (bayer_pixel Math_pow strength mode (y mod 8) (x mod 8))
      (pixel (mkImageData w h d) y' x').
Proof.
  intros E. unfold bayer_body. cbv zeta. rewrite pixel_write_rgb, E, Nat.eqb_refl.
  destruct (pixel (mkImageData w h d) y' x') as [[[[r0 g0] b0] a0]|] eqn:Hp; [|reflexivity].
  destruct (pixel_inv _ _ _ _ _ _ _ Hp) as (H0 & H1 & H2 & _). cbn [data width] in H0, H1, H2.
  rewrite E in H0, H1, H2.
  rewrite (read_of_lookup _ _ _ H0), (read_of_lookup _ _ _ H1), (read_of_lookup _ _ _ H2).
  reflexivity.
Qed.

Lemma bayerDither_pixel (imageData : ImageData) (strength : float) (mode : DitherMode)
    (y x : nat) :
  y < height imageData -> x < width imageData ->
  pixel (bayerDither Math_pow imageData strength mode) y x =
    option_map (bayer_pixel Math_pow strength mode (y mod 8) (x mod 8)) (pixel imageData y x).
Proof.
  destruct imageData as [w h d]. cbn [width height]. intros Hy Hx.
  unfold bayerDither. cbn [width height data]. rewrite for_yx_coords.
  set (W := fun (p : nat * nat) (s : list Z) =>
              bayer_body Math_pow w strength mode (fst p) (snd p) s).
  set (obs := fun (s : list Z) (c : nat * nat) => pixel (mkImageData w h s) (fst c) (snd c)).
  set (ok := fun (s : list Z) (c : nat * nat) => True).
  set (foot := pixel_foot w).
  set (upd := fun (p c : nat * nat) (v : option (Z * Z * Z * Z)) =>
                option_map (bayer_pixel Math_pow strength mode (fst p mod 8) (snd p mod 8)) v).
  change (obs (fold_left (fun s k => W k s) (coords w h) d) (y, x) = upd (y, x) (y, x) (obs d (y, x))).
  apply (scatter_fold W obs ok foot upd).
  - intros; exact I.
  - intros k s c Hf. unfold foot, pixel_foot in Hf. apply Nat.eqb_neq in Hf.
    unfold obs, W, bayer_body. cbv zeta. rewrite pixel_write_rgb.
    destruct (Nat.eqb_spec (fst c * w + snd c) (fst k * w + snd k)); [contradiction|reflexivity].
  - intros k s c Hf _. unfold foot, pixel_foot in Hf. apply Nat.eqb_eq in Hf.
    unfold obs, W, upd. apply bayer_body_pixel, Hf.
  - apply NoDup_coords.
  - intros [y1 x1] [y2 x2] H1 H2 F1 F2.
    apply elem_of_coords in H1, H2. unfold foot, pixel_foot in F1, F2.
    apply Nat.eqb_eq in F1, F2. cbn [fst snd] in F1, F2.
    destruct (raster_inj w y1 x1 y2 x2) as [-> ->]; [lia|lia|lia|reflexivity].
  - apply elem_of_coords. auto.
  - unfold foot, pixel_foot. apply Nat.eqb_refl.
  - exact I.
Qed.

End BayerLocal.

(** X2: [bayerDither] works pixel by pixel: the output pixel at [(y, x)]
    is computed from the input pixel at [(y, x)] and the threshold at
    [(y mod 8, x mod 8)] alone, and a position whose four bytes are not
    all inside the buffer stays without a pixel. *)
Theorem bayerDither_pointwise (Math_pow : float -> float -> float) (imageData : ImageData)
    (strength : float) (mode : DitherMode) (y x : nat) :
  y < height imageData -> x < width imageData ->
  pixel (bayerDither Math_pow imageData strength mode) y x =
    option_map (bayer_pixel Math_pow strength mode (y mod 8) (x mod 8)) (pixel imageData y x).
Proof. intros Hy Hx. apply bayerDither_pixel; assumption. Qed.

Lemma bayerDither_pointwise_witness :
  pixel (bayerDither Math_pow_ref six_sample 1 sixColor) 1 1 =
    option_map (bayer_pixel Math_pow_ref 1 sixColor (1 mod 8) (1 mod 8)) (pixel six_sample 1 1).
Proof. apply (bayerDither_pointwise Math_pow_ref six_sample 1 sixColor 1 1); cbn; lia. Defined.

(** ** What the decoder builds from arbitrary bytes *)

Lemma decode_loop_pixel (w h : nat) (body : nat -> nat -> list Z -> list Z)
    (col : nat -> nat -> float * float * float) (d0 : list Z) :
  (forall y x d, body y x d =
     write_rgba d ((y * w + x) * 4) (fst (fst (col y x))) (snd (fst (col y x))) (snd (col y x)) 255) ->
  length d0 = w * h * 4 ->
  forall y x, y < h -> x < w ->
    pixel (mkImageData w h (for_yx w h body d0)) y x =
      Some (ToUint8Clamp (fst (fst (col y x))), ToUint8Clamp (snd (fst (col y x))),
            ToUint8Clamp (snd (col y x)), 255%Z).
Proof.
  intros Hbody Hlen y x Hy Hx. unfold pixel. cbn [data width].
  assert (L : forall c, c < 4 ->
            for_yx w h body d0 !! ((y * w + x) * 4 + c) =
            rgba_bytes (fst (fst (col y x))) (snd (fst (col y x))) (snd (col y x)) 255 !! c).
  { intros c Hc.
    assert (Hdiv : ((y * w + x) * 4 + c) / 4 = y * w + x).
    { rewrite Nat.add_comm, Nat.div_add, (Nat.div_small c 4) by lia. reflexivity. }
    assert (Hmod : ((y * w + x) * 4 + c) mod 4 = c).
    { rewrite Nat.add_comm, Nat.Div0.mod_add. apply Nat.mod_small, Hc. }
    rewrite (decode_loop_lookup w h body col d0 Hbody y x _ Hy Hx Hdiv).
    - rewrite Hmod. reflexivity.
    - rewrite Hlen. apply (in_image_range w h y x); assumption. }
  pose proof (L 0 ltac:(lia)) as L0. rewrite Nat.add_0_r in L0.
  rewrite L0, (L 1), (L 2), (L 3) by lia. reflexivity.
Qed.

Lemma decode_loop_length (w h : nat) (body : nat -> nat -> list Z -> list Z) (d0 : list Z) :
  (forall y x d, length (body y x d) = length d) ->
  length (for_yx w h body d0) = length d0.
Proof.
  intros Hbody. apply (for_yx_ind (fun d => length d = length d0)); [|reflexivity].
  intros y x s _ _ Hs. rewrite Hbody. exact Hs.
Qed.

Lemma decode_sixColor_eq P w h y x d :
  decode_sixColor P w h y x d =
    let color :=
      match P !! (x * h + (h - 1 - y)) with
      | Some value =>
          match List.find (fun c => (item_value c =? value)%Z) rgbPalette with
          | Some c => c
          | None => item_at rgbPalette 5
          end
      | None => item_at rgbPalette 5
      end in
    write_rgba d ((y * w + x) * 4) (fst (fst (item_r color, item_g color, item_b color)))
      (snd (fst (item_r color, item_g color, item_b color)))
      (snd (item_r color, item_g color, item_b color)) 255.
Proof. reflexivity. Qed.

Lemma decode_fourColor_write P w y x d :
  decode_fourColor P w y x d =
    let value := Z.land (Z.shiftr (read_u8 P ((y * w + x) / 4)) (Z.of_nat (6 - (x mod 4) * 2))) 3 in
    let color :=
      match List.find (fun c => (fst c =? value)%Z) fourColorValues with
      | Some c => snd c
      | None => snd (nth 1 fourColorValues (0%Z, (NaN, NaN, NaN)))
      end in
    write_rgba d ((y * w + x) * 4) (fst (fst color)) (snd (fst color)) (snd color) 255.
Proof.
  unfold decode_fourColor. cbv zeta.
  destruct (match List.find _ fourColorValues with Some c => snd c | None => _ end)
    as [[cr cg] cb]. reflexivity.
Qed.

Lemma land_3_cases z : let v := Z.land z 3 in v = 0%Z \/ v = 1%Z \/ v = 2%Z \/ v = 3%Z.
Proof.
  cbv zeta. assert (E : Z.land z 3 = (z mod 4)%Z) by apply (Z.land_ones z 2 ltac:(lia)).
  rewrite E. pose proof (Z.mod_pos_bound z 4 ltac:(lia)). lia.
Qed.

Lemma decodeProcessedData_quantized (P : list Z) (w h : nat) (mode : DitherMode) :
  0 < w -> 0 < h ->
  exists d, decodeProcessedData P w h mode = Some (mkImageData w h d) /\
    length d = w * h * 4 /\
    quantized mode 255 (mkImageData w h d).
Proof.
  intros Hw Hh. unfold decodeProcessedData. rewrite (new_ImageData_Some w h Hw Hh). cbn [data].
  eexists. split; [reflexivity|].
  destruct mode.
  - split.
    { rewrite decode_loop_length; [apply length_new_array|].
      intros. unfold decode_blackWhite. apply write_rgba_length. }
    intros y x Hy Hx. cbn [width height] in *.
    rewrite (decode_loop_pixel w h (decode_blackWhite P w)
               (fun y x => let v := if (Z.b2z (bit_at P (plane_cell w y x)) =? 0)%Z
                                    then 0%float else 255%float in (v, v, v))
               _ (fun y x d' => ltac:(unfold decode_blackWhite; rewrite plane_bit_read; reflexivity))
               (length_new_array _) y x Hy Hx).
    cbv zeta. cbn [fst snd].
    destruct (_ =? _)%Z; [exists (item_at threeColorPalette 0)|exists (item_at threeColorPalette 1)];
      (split; [apply list_elem_of_In; cbn; auto|reflexivity]).
  - split.
    { rewrite decode_loop_length; [apply length_new_array|].
      intros. rewrite decode_threeColor_eq. apply write_rgba_length. }
    intros y x Hy Hx. cbn [width height] in *.
    set (bwD := slice_to P _). set (redD := slice_from P _).
    rewrite (decode_loop_pixel w h (decode_threeColor bwD redD w)
               (fun y x =>
                  if (Z.b2z (bit_at redD (plane_cell w y x)) =? 0)%Z then (255, 0, 0)%float
                  else let v := if (Z.b2z (bit_at bwD (plane_cell w y x)) =? 0)%Z
                                then 0%float else 255%float in (v, v, v))
               _ (fun y x d' => decode_threeColor_eq bwD redD w y x d')
               (length_new_array _) y x Hy Hx).
    destruct (_ =? _)%Z; [exists (item_at threeColorPalette 2)|];
      [split; [apply list_elem_of_In; cbn; auto|reflexivity]|].
    cbv zeta. cbn [fst snd].
    destruct (_ =? _)%Z; [exists (item_at threeColorPalette 0)|exists (item_at threeColorPalette 1)];
      (split; [apply list_elem_of_In; cbn; auto|reflexivity]).
  - split.
    { rewrite decode_loop_length; [apply length_new_array|].
      intros. rewrite decode_fourColor_write. apply write_rgba_length. }
    intros y x Hy Hx. cbn [width height] in *.
    rewrite (decode_loop_pixel w h (decode_fourColor P w)
               (fun y x =>
                  let value := Z.land (Z.shiftr (read_u8 P ((y * w + x) / 4))
                                         (Z.of_nat (6 - (x mod 4) * 2))) 3 in
                  match List.find (fun c => (fst c =? value)%Z) fourColorValues with
                  | Some c => snd c
                  | None => snd (nth 1 fourColorValues (0%Z, (NaN, NaN, NaN)))
                  end)
               _ (fun y x d' => decode_fourColor_write P w y x d')
               (length_new_array _) y x Hy Hx).
    cbv zeta.
    destruct (land_3_cases (Z.shiftr (read_u8 P ((y * w + x) / 4)) (Z.of_nat (6 - (x mod 4) * 2))))
      as [E|[E|[E|E]]]; rewrite E; cbn [List.find fourColorValues fst snd Z.eqb Pos.eqb];
      [exists (item_at fourColorPalette 0)|exists (item_at fourColorPalette 1)
      |exists (item_at fourColorPalette 3)|exists (item_at fourColorPalette 2)];
      (split; [apply list_elem_of_In; cbn; auto 6|reflexivity]).
  - split.
    { rewrite decode_loop_length; [apply length_new_array|].
      intros. rewrite decode_sixColor_eq. apply write_rgba_length. }
    intros y x Hy Hx. cbn [width height] in *.
    rewrite (decode_loop_pixel w h (decode_sixColor P w h)
               (fun y x =>
                  let color :=
                    match P !! (x * h + (h - 1 - y)) with
                    | Some value =>
                        match List.find (fun c => (item_value c =? value)%Z) rgbPalette with
                        | Some c => c
                        | None => item_at rgbPalette 5
                        end
                    | None => item_at rgbPalette 5
                    end in (item_r color, item_g color, item_b color))
               _ (fun y x d' => decode_sixColor_eq P w h y x d')
               (length_new_array _) y x Hy Hx).
    cbv zeta. cbn [fst snd]. eexists. split; [|reflexivity].
    destruct (P !! _) as [v|]; [|apply list_elem_of_In; cbn; auto 10].
    destruct (List.find _ rgbPalette) as [c|] eqn:F; [|apply list_elem_of_In; cbn; auto 10].
    apply list_elem_of_In. apply (find_some _ _ F).
Qed.

(** X3: [decodeProcessedData] accepts any bytes: for positive dimensions
    [w] and [h] it returns a [w] x [h] image with four bytes per pixel in
    which every pixel is opaque and shows one of the colours of the mode,
    whatever the length and content of [processedData]. *)
Theorem decodeProcessedData_any_bytes (processedData : list Z) (w h : nat) (mode : DitherMode) :
  0 < w -> 0 < h ->
  exists q,
    decodeProcessedData processedData w h mode = Some q /\
    width q = w /\ height q = h /\ ImageData_wf q /\ quantized mode 255 q.
Proof.
  intros Hw Hh.
  destruct (decodeProcessedData_quantized processedData w h mode Hw Hh) as (d & E & Hlen & Hq).
  exists (mkImageData w h d). split; [exact E|]. split; [reflexivity|]. split; [reflexivity|].
  split; [|exact Hq]. repeat split; assumption.
Qed.

Lemma decodeProcessedData_any_bytes_witness :
  exists q,
    decodeProcessedData [] 3 2 threeColor = Some q /\
    width q = 3 /\ height q = 2 /\ ImageData_wf q /\ quantized threeColor 255 q.
Proof. apply (decodeProcessedData_any_bytes [] 3 2 threeColor); lia. Defined.

(** ** What the panel shows for an arbitrary image *)

Section Preview.

Variable Math_pow : float -> float -> float.

Lemma preview_pixel (imageData : ImageData) (mode : DitherMode) (y x : nat) (r g b a : Z) :
  0 < width imageData -> 0 < height imageData ->
  y < height imageData -> x < width imageData ->
  (mode = fourColor -> width imageData mod 4 = 0) ->
  pixel imageData y x = Some (r, g, b, a) ->
  exists d,
    decodeProcessedData (processImageData Math_pow imageData mode)
      (width imageData) (height imageData) mode
      = Some (mkImageData (width imageData) (height imageData) d) /\
    pixel (mkImageData (width imageData) (height imageData) d) y x =
      Some (color_bytes (shown_color Math_pow mode (of_byte r) (of_byte g) (of_byte b)), 255%Z).
Proof.
  destruct imageData as [w h d]. cbn [width height]. intros Hw Hh Hy Hx Hw4 Hp.
  unfold decodeProcessedData. rewrite (new_ImageData_Some w h Hw Hh). cbn [data].
  eexists. split; [reflexivity|].
  pose proof (blackWhiteBit_of_pixel (mkImageData w h d) y x _ _ _ _ Hp) as Hb.
  pose proof (redWhiteBit_of_pixel (mkImageData w h d) y x _ _ _ _ Hp) as Hr.
  destruct (pixel_inv _ _ _ _ _ _ _ Hp) as (H0 & H1 & H2 & _).
  cbn [data width] in Hb, Hr, H0, H1, H2.
  unfold processImageData. cbn [width height data]. destruct mode.
  - set (P := for_yx w h (pack_blackWhite w d) _).
    rewrite (decode_loop_pixel w h (decode_blackWhite P w)
               (fun y x => let v := if (Z.b2z (bit_at P (plane_cell w y x)) =? 0)%Z
                                    then 0%float else 255%float in (v, v, v))
               _ (fun y x d' => ltac:(unfold decode_blackWhite; rewrite plane_bit_read; reflexivity))
               (length_new_array _) y x Hy Hx).
    unfold P. rewrite (pack_blackWhite_bit w h d y x Hy Hx), Hb.
    unfold shown_color. destruct (_ <=? _)%float; reflexivity.
  - destruct (pack_threeColor_planes w h d) as (Hl1 & Hl2 & Hbits). cbv zeta in Hl1, Hl2, Hbits.
    destruct (for_yx w h (pack_threeColor w d) _) as [bwP redP]. cbn [fst snd] in *.
    unfold slice_to, slice_from.
    rewrite (take_app_length' bwP redP) by (symmetry; exact Hl1).
    rewrite (drop_app_length' bwP redP) by (symmetry; exact Hl1).
    rewrite (decode_loop_pixel w h (decode_threeColor bwP redP w)
               (fun y x =>
                  if (Z.b2z (bit_at redP (plane_cell w y x)) =? 0)%Z then (255, 0, 0)%float
                  else let v := if (Z.b2z (bit_at bwP (plane_cell w y x)) =? 0)%Z
                                then 0%float else 255%float in (v, v, v))
               _ (fun y x d' => decode_threeColor_eq bwP redP w y x d')
               (length_new_array _) y x Hy Hx).
    destruct (Hbits y x Hy Hx) as [Hb1 Hb2]. rewrite Hb1, Hb2, Hb, Hr.
    unfold shown_color.
    destruct ((160 <? of_byte r) && (of_byte g <? of_byte r) && (of_byte b <? of_byte r))%float;
      [reflexivity|].
    cbv zeta. cbn [negb Z.b2z Z.eqb]. destruct (_ <=? _)%float; reflexivity.
  - specialize (Hw4 eq_refl).
    set (P := for_yx w h (pack_fourColor Math_pow w d) _).
    rewrite (decode_loop_pixel w h (decode_fourColor P w)
               (fun y x =>
                  let value := (Z.b2z (bit_at P (four_index w y x, (four_shift x + 0)%nat))
                      + 2 * Z.b2z (bit_at P (four_index w y x, (four_shift x + 1)%nat)))%Z in
                  match List.find (fun c' => (fst c' =? value)%Z) fourColorValues with
                  | Some c' => snd c'
                  | None => snd (nth 1 fourColorValues (0%Z, (NaN, NaN, NaN)))
                  end)
               _ (fun y x d' => decode_fourColor_eq P w y x d')
               (length_new_array _) y x Hy Hx).
    unfold P.
    rewrite (pack_fourColor_bits Math_pow w h d y x 0 Hw4 Hy Hx ltac:(lia)).
    rewrite (pack_fourColor_bits Math_pow w h d y x 1 Hw4 Hy Hx ltac:(lia)).
    unfold four_value. cbv zeta.
    rewrite (read_of_lookup _ _ _ H0), (read_of_lookup _ _ _ H1), (read_of_lookup _ _ _ H2).
    pose proof (findClosestColor_in_palette Math_pow (of_byte r) (of_byte g) (of_byte b) fourColor)
      as Hin.
    pose proof (find_fourColorValues _ Hin) as F. cbv zeta in F.
    change (Z.of_nat 0) with 0%Z. change (Z.of_nat 1) with 1%Z. rewrite F. reflexivity.
  - set (P := for_yx w h (pack_sixColor Math_pow w h d) _).
    rewrite (decode_loop_pixel w h (decode_sixColor P w h)
               (fun y x =>
                  let color :=
                    match P !! (x * h + (h - 1 - y)) with
                    | Some value =>
                        match List.find (fun c => (item_value c =? value)%Z) rgbPalette with
                        | Some c => c
                        | None => item_at rgbPalette 5
                        end
                    | None => item_at rgbPalette 5
                    end in (item_r color, item_g color, item_b color))
               _ (fun y x d' => decode_sixColor_eq P w h y x d')
               (length_new_array _) y x Hy Hx).
    unfold P. rewrite (pack_sixColor_lookup Math_pow w h d y x Hy Hx).
    rewrite (read_of_lookup _ _ _ H0), (read_of_lookup _ _ _ H1), (read_of_lookup _ _ _ H2).
    pose proof (findClosestColor_in_palette Math_pow (of_byte r) (of_byte g) (of_byte b) sixColor)
      as Hin.
    cbv zeta. rewrite (find_rgbPalette_value _ Hin). reflexivity.
Qed.

End Preview.

(** X5: what the panel shows for an arbitrary image.  Packing any image
    and unpacking the result gives, at every pixel, an opaque pixel in the
    colour [shown_color] picks from the pixel's own red, green and blue:
    the luminance threshold 140 in the two-colour mode, the red test
    before it in the three-colour mode, the nearest palette colour in the
    four-colour mode (for a width that is a multiple of 4) and in the
    six-colour mode.  The alpha of the input plays no part. *)
Theorem panel_shows (Math_pow : float -> float -> float) (imageData : ImageData)
    (mode : DitherMode) (y x : nat) (r g b a : Z) :
  0 < width imageData -> 0 < height imageData ->
  y < height imageData -> x < width imageData ->
  (mode = fourColor -> width imageData mod 4 = 0) ->
  pixel imageData y x = Some (r, g, b, a) ->
  exists d,
    decodeProcessedData (processImageData Math_pow imageData mode)
      (width imageData) (height imageData) mode
      = Some (mkImageData (width imageData) (height imageData) d) /\
    pixel (mkImageData (width imageData) (height imageData) d) y x =
      Some (color_bytes (shown_color Math_pow mode (of_byte r) (of_byte g) (of_byte b)), 255%Z).
Proof. intros Hw Hh Hy Hx Hw4 Hp. apply (preview_pixel Math_pow _ _ _ _ _ _ _ a); assumption. Qed.

Lemma panel_shows_witness :
  exists d,
    decodeProcessedData (processImageData Math_pow_ref
                           (mkImageData 2 1 [200; 30; 40; 7; 90; 90; 90; 0]%Z) threeColor)
      2 1 threeColor = Some (mkImageData 2 1 d) /\
    pixel (mkImageData 2 1 d) 0 0 =
      Some (color_bytes (shown_color Math_pow_ref threeColor (of_byte 200) (of_byte 30)
                           (of_byte 40)), 255%Z).
Proof.
  apply (panel_shows Math_pow_ref (mkImageData 2 1 [200; 30; 40; 7; 90; 90; 90; 0]%Z)
           threeColor 0 0 200 30 40 7).
  - cbn. lia.
  - cbn. lia.
  - cbn. lia.
  - cbn. lia.
  - intros E. discriminate E.
  - reflexivity.
Defined.

(** ** The preview is stable, and the dithered canvas is what is sent *)

Lemma has_alpha_same_alpha (before after : ImageData) (a : Z) (y x : nat) :
  same_alpha before after ->
  has_alpha a (pixel before y x) -> has_alpha a (pixel after y x).
Proof.
  intros (Hw & Hh & Hlen & Ha) (r0 & g0 & b0 & Hp).
  destruct (pixel_inv _ _ _ _ _ _ _ Hp) as (H0 & H1 & H2 & H3).
  unfold pixel. rewrite Hw. set (i := (y * width before + x) * 4) in *.
  assert (Hi : i + 3 < length (data after)).
  { rewrite Hlen. apply lookup_lt_is_Some_1. eauto. }
  destruct (lookup_lt_is_Some_2 (data after) i ltac:(lia)) as [r1 ->].
  destruct (lookup_lt_is_Some_2 (data after) (i + 1) ltac:(lia)) as [g1 ->].
  destruct (lookup_lt_is_Some_2 (data after) (i + 2) ltac:(lia)) as [b1 ->].
  rewrite (Ha (i + 3)), H3.
  - exists r1, g1, b1. reflexivity.
  - unfold i. rewrite Nat.add_comm, Nat.Div0.mod_add. reflexivity.
Qed.

Lemma wf_same_alpha (before after : ImageData) :
  same_alpha before after -> ImageData_wf before -> ImageData_wf after.
Proof.
  intros (Hw & Hh & Hlen & _) (H1 & H2 & H3). unfold ImageData_wf.
  rewrite Hw, Hh, Hlen. auto.
Qed.

Lemma same_alpha_trans (a b c : ImageData) :
  same_alpha a b -> same_alpha b c -> same_alpha a c.
Proof.
  intros (Hw & Hh & Hlen & Ha) (Hw' & Hh' & Hlen' & Ha'). unfold same_alpha.
  rewrite Hw', Hh', Hlen', Hw, Hh, Hlen. repeat split.
  intros i Hi. rewrite Ha', Ha by exact Hi. reflexivity.
Qed.

Section Pipeline.

Variable Math_pow : float -> float -> float.

(** X4: the preview is stable.  An image that [decodeProcessedData]
    produced is left as it is by packing it again with [processImageData]
    and unpacking the result (in the four-colour mode for a width that is a
    multiple of 4; in the four- and six-colour modes when the Lab search
    tells the palette colours apart). *)
Theorem decode_pack_decode (P : list Z) (w h : nat) (mode : DitherMode) (q : ImageData) :
  decodeProcessedData P w h mode = Some q ->
  (mode = fourColor -> w mod 4 = 0) ->
  (mode = fourColor \/ mode = sixColor -> lab_separates Math_pow (palette_of mode)) ->
  decodeProcessedData (processImageData Math_pow q mode) w h mode = Some q.
Proof.
  intros Hdec Hw4 Hsep.
  assert (Hw : 0 < w /\ 0 < h).
  { unfold decodeProcessedData, new_ImageData in Hdec.
    destruct (Nat.eqb_spec w 0); [discriminate|]. destruct (Nat.eqb_spec h 0); [discriminate|].
    lia. }
  destruct Hw as [Hw Hh].
  destruct (decodeProcessedData_quantized P w h mode Hw Hh) as (d & E & Hlen & Hq).
  rewrite E in Hdec. injection Hdec as <-.
  assert (Hwf : ImageData_wf (mkImageData w h d)) by (repeat split; assumption).
  destruct mode.
  - apply (roundtrip_blackWhiteColor Math_pow _ Hwf Hq).
  - apply (roundtrip_threeColor Math_pow _ Hwf Hq).
  - apply (roundtrip_fourColor Math_pow _ Hwf Hq); [apply Hw4; reflexivity|].
    apply Hsep. left. reflexivity.
  - apply (roundtrip_sixColor Math_pow _ Hwf Hq). apply Hsep. right. reflexivity.
Qed.

Lemma dithered_quantized (imageData : ImageData) (alg : DitherAlgorithm) (strength : float)
    (mode : DitherMode) :
  alg <> none -> mode <> blackWhiteColor -> opaque imageData ->
  quantized mode 255 (ditherImage Math_pow imageData alg strength mode).
Proof.
  intros Halg Hmode Hop y x Hy Hx.
  destruct (ditherImage_same_alpha Math_pow imageData alg strength mode) as (Hw & Hh & _).
  rewrite Hh in Hy. rewrite Hw in Hx.
  destruct (ditherImage_paints Math_pow imageData alg strength mode y x 255 Halg Hy Hx
              (Hop y x Hy Hx)) as (c & Hc & Hp).
  exists c. split; [|exact Hp].
  destruct mode; [congruence| | |]; exact Hc.
Qed.

Lemma applyDither_result (canvas : Canvas) (canvasState : CanvasState) :
  context2d canvas = true -> ImageData_wf (pixels canvas) ->
  exists q,
    applyDither Math_pow canvas canvasState = Some (mkCanvas true q) /\
    q = ditherImage Math_pow (adjustContrast (pixels canvas) (contrast canvasState))
          (dithering canvasState) (strength canvasState) (colorPalette canvasState) /\
    same_alpha (pixels canvas) q.
Proof.
  intros Hctx (Hw & Hh & Hlen). unfold applyDither. rewrite Hctx. cbn [negb].
  destruct (Nat.eqb_spec (width (pixels canvas)) 0) as [?|_]; [lia|].
  destruct (Nat.eqb_spec (height (pixels canvas)) 0) as [?|_]; [lia|]. cbn [orb].
  unfold copy_ImageData.
  destruct (Nat.eqb_spec (width (pixels canvas)) 0) as [?|_]; [lia|].
  destruct (Nat.eqb_spec (height (pixels canvas)) 0) as [?|_]; [lia|].
  rewrite Hlen, Nat.eqb_refl. cbn.
  destruct (pixels canvas) as [w h d] eqn:E. cbn [width height data].
  eexists. split; [reflexivity|]. split; [reflexivity|].
  eapply same_alpha_trans; [apply adjustContrast_same_alpha|apply ditherImage_same_alpha].
Qed.

(** X6: after [applyDither] with a dithering algorithm and a colour mode
    other than the two-colour one, on an opaque canvas, the canvas holds
    exactly the image the panel will show: packing its pixels with
    [processImageData] and unpacking them gives the same pixels back (in
    the four-colour mode for a width that is a multiple of 4; in the four-
    and six-colour modes when the Lab search tells the palette colours
    apart). *)
Theorem applyDither_canvas_is_what_is_sent (canvas : Canvas) (canvasState : CanvasState) :
  context2d canvas = true -> ImageData_wf (pixels canvas) -> opaque (pixels canvas) ->
  dithering canvasState <> none -> colorPalette canvasState <> blackWhiteColor ->
  (colorPalette canvasState = fourColor -> width (pixels canvas) mod 4 = 0) ->
  (colorPalette canvasState = fourColor \/ colorPalette canvasState = sixColor ->
   lab_separates Math_pow (palette_of (colorPalette canvasState))) ->
  exists q,
    applyDither Math_pow canvas canvasState = Some (mkCanvas true q) /\
    decodeProcessedData (processImageData Math_pow q (colorPalette canvasState))
      (width q) (height q) (colorPalette canvasState) = Some q.
Proof.
  intros Hctx Hwf Hop Halg Hmode Hw4 Hsep.
  destruct (applyDither_result canvas canvasState Hctx Hwf) as (q & Hrun & Hq & Hsame).
  exists q. split; [exact Hrun|].
  assert (Hwfq : ImageData_wf q) by (apply (wf_same_alpha _ _ Hsame Hwf)).
  assert (Hopc : opaque (adjustContrast (pixels canvas) (contrast canvasState))).
  { intros y x Hy Hx.
    pose proof (adjustContrast_same_alpha (pixels canvas) (contrast canvasState)) as Hc.
    destruct Hc as (Hcw & Hch & Hrest). rewrite Hch in Hy. rewrite Hcw in Hx.
    apply (has_alpha_same_alpha (pixels canvas)); [|apply Hop; assumption].
    split; [exact Hcw|]. split; [exact Hch|]. exact Hrest. }
  assert (Hquant : quantized (colorPalette canvasState) 255 q).
  { rewrite Hq. apply dithered_quantized; assumption. }
  destruct Hsame as (Hqw & _).
  destruct (colorPalette canvasState) eqn:Em; [congruence| | |].
  - apply roundtrip_threeColor; assumption.
  - apply roundtrip_fourColor; [assumption|assumption| |].
    + rewrite Hqw. apply Hw4. reflexivity.
    + apply Hsep. left. reflexivity.
  - apply roundtrip_sixColor; [assumption|assumption|]. apply Hsep. right. reflexivity.
Qed.

End Pipeline.

Lemma decode_pack_decode_witness :
  exists q,
    decodeProcessedData [0x80]%Z 2 1 blackWhiteColor = Some q /\
    decodeProcessedData (processImageData Math_pow_ref q blackWhiteColor) 2 1 blackWhiteColor
      = Some q.
Proof.
  eexists. split; [vm_compute; reflexivity|].
  apply (decode_pack_decode Math_pow_ref [0x80]%Z 2 1 blackWhiteColor).
  - vm_compute. reflexivity.
  - intros E. discriminate E.
  - intros [E|E]; discriminate E.
Defined.

Lemma applyDither_canvas_is_what_is_sent_witness :
  exists q,
    applyDither Math_pow_ref
      (mkCanvas true (mkImageData 2 1 [10; 20; 30; 255; 200; 100; 50; 255]%Z))
      (mkCanvasState 1.2 floydSteinberg 1 threeColor) = Some (mkCanvas true q) /\
    decodeProcessedData (processImageData Math_pow_ref q threeColor) (width q) (height q)
      threeColor = Some q.
Proof.
  apply (applyDither_canvas_is_what_is_sent Math_pow_ref
           (mkCanvas true (mkImageData 2 1 [10; 20; 30; 255; 200; 100; 50; 255]%Z))
           (mkCanvasState 1.2 floydSteinberg 1 threeColor)).
  - reflexivity.
  - repeat split; cbn; lia.
  - intros y x Hy Hx. cbn in Hy, Hx.
    destruct y as [|y]; [|lia]. destruct x as [|[|x]]; [| |lia];
      eexists _, _, _; reflexivity.
  - discriminate.
  - discriminate.
  - intros E. discriminate E.
  - intros [E|E]; discriminate E.
Defined.

(** X28: the two-colour mode does not dither to two colours.  After
    [applyDither] in that mode the canvas shows colours of the six-colour
    palette, and what the panel shows for it is decided afterwards by
    luminance alone: white where the canvas is white or yellow, black where
    it is black, red, green or blue. *)
Theorem twoColor_canvas_and_panel (Math_pow : float -> float -> float) (canvas : Canvas)
    (canvasState : CanvasState) (y x : nat) :
  context2d canvas = true -> ImageData_wf (pixels canvas) -> opaque (pixels canvas) ->
  dithering canvasState <> none -> colorPalette canvasState = blackWhiteColor ->
  y < height (pixels canvas) -> x < width (pixels canvas) ->
  exists q d c,
    applyDither Math_pow canvas canvasState = Some (mkCanvas true q) /\
    decodeProcessedData (processImageData Math_pow q blackWhiteColor) (width q) (height q)
      blackWhiteColor = Some (mkImageData (width q) (height q) d) /\
    c ∈ rgbPalette /\
    pixel q y x = Some (color_bytes c, 255%Z) /\
    pixel (mkImageData (width q) (height q) d) y x =
      Some (if (item_value c =? 0xff)%Z || (item_value c =? 0xe2)%Z
            then (255, 255, 255, 255)%Z else (0, 0, 0, 255)%Z).
Proof.
  intros Hctx Hwf Hop Halg Hmode Hy Hx.
  destruct (applyDither_result Math_pow canvas canvasState Hctx Hwf) as (q & Hrun & Hq & Hsame).
  assert (Hwfq : ImageData_wf q) by (apply (wf_same_alpha _ _ Hsame Hwf)).
  destruct Hsame as (Hqw & Hqh & _).
  pose proof (adjustContrast_same_alpha (pixels canvas) (contrast canvasState)) as Hc.
  assert (Ha : has_alpha 255 (pixel (adjustContrast (pixels canvas) (contrast canvasState)) y x)).
  { apply (has_alpha_same_alpha (pixels canvas)); [exact Hc|]. apply Hop; assumption. }
  destruct Hc as (Hcw & Hch & _).
  rewrite Hmode in Hq.
  destruct (ditherImage_paints Math_pow (adjustContrast (pixels canvas) (contrast canvasState))
              (dithering canvasState) (strength canvasState) blackWhiteColor y x 255 Halg
              ltac:(rewrite Hch; exact Hy) ltac:(rewrite Hcw; exact Hx) Ha) as (c & Hin & Hp).
  rewrite <- Hq in Hp. cbn [palette_of] in Hin.
  destruct Hwfq as (Hw0 & Hh0 & _).
  destruct (preview_pixel Math_pow q blackWhiteColor y x _ _ _ 255 Hw0 Hh0
              ltac:(rewrite Hqh; exact Hy) ltac:(rewrite Hqw; exact Hx)
              ltac:(intros E; discriminate E) Hp) as (d & Hdec & Hshown).
  exists q, d, c. split; [exact Hrun|]. split; [exact Hdec|]. split; [exact Hin|].
  split; [exact Hp|]. rewrite Hshown.
  destruct (of_byte_palette c Hin) as (Er & Eg & Eb). rewrite Er, Eg, Eb.
  clear -Hin. palette_cases Hin; vm_compute; reflexivity.
Qed.

Lemma twoColor_canvas_and_panel_witness :
  exists q d c,
    applyDither Math_pow_ref (mkCanvas true six_sample)
      (mkCanvasState 1 bayer 0 blackWhiteColor) = Some (mkCanvas true q) /\
    decodeProcessedData (processImageData Math_pow_ref q blackWhiteColor) (width q) (height q)
      blackWhiteColor = Some (mkImageData (width q) (height q) d) /\
    c ∈ rgbPalette /\
    pixel q 0 1 = Some (color_bytes c, 255%Z) /\
    pixel (mkImageData (width q) (height q) d) 0 1 =
      Some (if (item_value c =? 0xff)%Z || (item_value c =? 0xe2)%Z
            then (255, 255, 255, 255)%Z else (0, 0, 0, 255)%Z).
Proof.
  apply (twoColor_canvas_and_panel Math_pow_ref (mkCanvas true six_sample)
           (mkCanvasState 1 bayer 0 blackWhiteColor) 0 1).
  - reflexivity.
  - repeat split; cbn; lia.
  - intros y x Hy Hx. cbn in Hy, Hx.
    destruct y as [|[|y]]; [| |lia]; destruct x as [|[|[|x]]]; try lia;
      eexists _, _, _; reflexivity.
  - discriminate.
  - reflexivity.
  - cbn. lia.
  - cbn. lia.
Defined.

(** ** The packed planes, bit by bit *)

Lemma pack_blackWhite_padding w h data c :
  (forall y x, y < h -> x < w -> plane_cell w y x <> c) ->
  bit_at (for_yx w h (pack_blackWhite w data) (new_array (ceil_div w 8 * h))) c = false.
Proof.
  intros Hc. rewrite for_yx_coords.
  set (W := fun (p : nat * nat) (d : list Z) => pack_blackWhite w data (fst p) (snd p) d).
  set (upd := fun (p : nat * nat) (_ : nat * nat) (v : bool) =>
                v || blackWhiteBit_of data w (fst p) (snd p)).
  assert (Hstep : forall p d c,
            bit_at (W p d) c =
              if (fst (plane_cell w (fst p) (snd p)) =? fst c) && (fst c <? length d)
              then (snd c <? 8) && (Z.testbit (read_u8 d (fst c)) (Z.of_nat (snd c))
                     || blackWhiteBit_of data w (fst p) (snd p)
                        && (snd c =? snd (plane_cell w (fst p) (snd p))))
              else bit_at d c).
  { intros p d c'. unfold W, pack_blackWhite. rewrite bit_at_or_assign.
    fold (blackWhiteBit_of data w (fst p) (snd p)). rewrite testbit_shiftl_bit. reflexivity. }
  assert (Hframe : forall k s c, plane_foot w k c = false -> bit_at (W k s) c = bit_at s c).
  { intros p d c' Hf. rewrite Hstep. unfold plane_foot in Hf.
    destruct (Nat.eqb_spec (fst (plane_cell w (fst p) (snd p))) (fst c')) as [E|E];
      cbn [andb]; [|reflexivity].
    destruct (fst c' <? length d); [|reflexivity].
    rewrite <- E, Nat.eqb_refl in Hf. cbn [andb] in Hf.
    rewrite Hf, andb_false_r, orb_false_r. reflexivity. }
  rewrite (scatter_frame W bit_at (plane_foot w) Hframe).
  - apply bit_at_new_array.
  - intros [y x] Hk. apply elem_of_coords in Hk as [Hy Hx].
    unfold plane_foot. cbn [fst snd].
    destruct (Nat.eqb_spec (fst c) (fst (plane_cell w y x))) as [E1|E1]; [|reflexivity].
    destruct (Nat.eqb_spec (snd c) (snd (plane_cell w y x))) as [E2|E2]; [|reflexivity].
    exfalso. apply (Hc y x Hy Hx). destruct c, (plane_cell w y x). cbn in *. congruence.
Qed.

Lemma bit_at_app_l d1 d2 c : fst c < length d1 -> bit_at (d1 ++ d2) c = bit_at d1 c.
Proof. intros H. unfold bit_at, read_u8. rewrite lookup_app_l by exact H. reflexivity. Qed.

Lemma bit_at_app_r d1 d2 c :
  bit_at (d1 ++ d2) (length d1 + fst c, snd c) = bit_at d2 c.
Proof.
  unfold bit_at, read_u8. cbn [fst snd]. rewrite lookup_app_r by lia.
  replace (length d1 + fst c - length d1) with (fst c) by lia. reflexivity.
Qed.

(** X8: in the three-colour mode the payload is the black/white plane
    followed by the red plane, each of [ceil(width / 8) * height] bytes.
    Pixel [(y, x)] owns bit [7 - x mod 8] of byte [y * ceil(width / 8) + x / 8]
    of either plane: in the first it is set when the rounded luminance is
    at least 140, in the second it is cleared exactly when the pixel is red
    (red above 160 and above green and blue). *)
Theorem threeColor_plane_bits (Math_pow : float -> float -> float)
    (imageData : ImageData) (y x : nat) :
  y < height imageData -> x < width imageData ->
  let w := width imageData in
  let planeLength := ceil_div w 8 * height imageData in
  let P := processImageData Math_pow imageData threeColor in
  bit_at P (plane_cell w y x) = blackWhiteBit_of (data imageData) w y x /\
  bit_at P (planeLength + fst (plane_cell w y x), snd (plane_cell w y x)) =
    redWhiteBit_of (data imageData) w y x.
Proof.
  destruct imageData as [w h d]. cbn [width height data]. intros Hy Hx. cbv zeta.
  unfold processImageData. cbn [width height data].
  destruct (pack_threeColor_planes w h d) as (Hl1 & Hl2 & Hbits). cbv zeta in Hl1, Hl2, Hbits.
  destruct (for_yx w h (pack_threeColor w d) _) as [bwP redP]. cbn [fst snd] in *.
  destruct (Hbits y x Hy Hx) as [Hb Hr]. split.
  - rewrite bit_at_app_l; [exact Hb|].
    rewrite Hl1. apply plane_cell_in_range; assumption.
  - rewrite <- Hl1. rewrite (bit_at_app_r bwP redP (plane_cell w y x)). exact Hr.
Qed.

Lemma threeColor_plane_bits_witness :
  let P := processImageData Math_pow_ref six_sample threeColor in
  bit_at P (plane_cell 3 1 0) = blackWhiteBit_of (data six_sample) 3 1 0 /\
  bit_at P (JS.ceil_div 3 8 * 2 + fst (plane_cell 3 1 0), snd (plane_cell 3 1 0)) =
    redWhiteBit_of (data six_sample) 3 1 0.
Proof. apply (threeColor_plane_bits Math_pow_ref six_sample 1 0); cbn; lia. Defined.

(** X7: in the two-colour mode, pixel [(y, x)] owns bit [7 - x mod 8] of
    byte [y * ceil(width / 8) + x / 8]; the bit is set exactly when the
    rounded luminance of the pixel is at least 140, and every bit that no
    pixel owns (the padding at the end of a row whose width is not a
    multiple of 8) is 0. *)
Theorem blackWhite_plane_bits (Math_pow : float -> float -> float) (imageData : ImageData) :
  let w := width imageData in
  let h := height imageData in
  let P := processImageData Math_pow imageData blackWhiteColor in
  (forall y x, y < h -> x < w ->
     bit_at P (plane_cell w y x) = blackWhiteBit_of (data imageData) w y x) /\
  (forall c, (forall y x, y < h -> x < w -> plane_cell w y x <> c) -> bit_at P c = false).
Proof.
  destruct imageData as [w h d]. cbn [width height data]. cbv zeta.
  unfold processImageData. cbn [width height data]. split.
  - intros y x Hy Hx. apply pack_blackWhite_bit; assumption.
  - intros c Hc. apply pack_blackWhite_padding, Hc.
Qed.

Lemma palette_value_byte mode c : c ∈ palette_of mode -> ToUint8 (item_value c) = item_value c.
Proof. intros Hc. destruct mode; palette_cases Hc; reflexivity. Qed.

(** X9: the six-colour payload holds one byte per pixel, the image turned
    by a quarter: pixel [(y, x)] is at index [x * height + (height - 1 - y)],
    and the byte is the [value] of the palette colour [findClosestColor]
    picks for the pixel. *)
Theorem sixColor_bytes (Math_pow : float -> float -> float) (imageData : ImageData)
    (y x : nat) (r g b a : Z) :
  y < height imageData -> x < width imageData ->
  pixel imageData y x = Some (r, g, b, a) ->
  processImageData Math_pow imageData sixColor
    !! (x * height imageData + (height imageData - 1 - y)) =
    Some (item_value (findClosestColor Math_pow (of_byte r) (of_byte g) (of_byte b) sixColor)).
Proof.
  destruct imageData as [w h d]. cbn [width height]. intros Hy Hx Hp.
  destruct (pixel_inv _ _ _ _ _ _ _ Hp) as (H0 & H1 & H2 & _). cbn [data width] in H0, H1, H2.
  unfold processImageData. cbn [width height data].
  rewrite (pack_sixColor_lookup Math_pow w h d y x Hy Hx).
  rewrite (read_of_lookup _ _ _ H0), (read_of_lookup _ _ _ H1), (read_of_lookup _ _ _ H2).
  rewrite (palette_value_byte sixColor); [reflexivity|apply findClosestColor_in_palette].
Qed.

Lemma sixColor_bytes_witness :
  processImageData Math_pow_ref six_sample sixColor !! (2 * 2 + (2 - 1 - 0)) =
    Some (item_value (findClosestColor Math_pow_ref (of_byte 0) (of_byte 0) (of_byte 255) sixColor)).
Proof.
  apply (sixColor_bytes Math_pow_ref six_sample 0 2 0 0 255 255); [cbn; lia|cbn; lia|reflexivity].
Defined.

(** X10: in the four-colour mode with a width that is a multiple of 4,
    four pixels share a byte, the leftmost in the two highest bits: pixel
    [(y, x)] owns bits [6 - 2 * (x mod 4)] and the next of byte
    [(y * width + x) / 4], and they hold the [value] of the palette colour
    [findClosestColor] picks for the pixel. *)
Theorem fourColor_fields (Math_pow : float -> float -> float) (imageData : ImageData)
    (y x : nat) (r g b a : Z) :
  width imageData mod 4 = 0 -> y < height imageData -> x < width imageData ->
  pixel imageData y x = Some (r, g, b, a) ->
  Z.land (Z.shiftr (read_u8 (processImageData Math_pow imageData fourColor)
                      ((y * width imageData + x) / 4))
            (Z.of_nat (6 - (x mod 4) * 2))) 3 =
    item_value (findClosestColor Math_pow (of_byte r) (of_byte g) (of_byte b) fourColor).
Proof.
  destruct imageData as [w h d]. cbn [width height]. intros Hw4 Hy Hx Hp.
  destruct (pixel_inv _ _ _ _ _ _ _ Hp) as (H0 & H1 & H2 & _). cbn [data width] in H0, H1, H2.
  unfold processImageData. cbn [width height data].
  set (P := for_yx w h (pack_fourColor Math_pow w d) _).
  rewrite land_shiftr_3.
  pose proof (pack_fourColor_bits Math_pow w h d y x 0 Hw4 Hy Hx ltac:(lia)) as B0.
  pose proof (pack_fourColor_bits Math_pow w h d y x 1 Hw4 Hy Hx ltac:(lia)) as B1.
  fold P in B0, B1. unfold bit_at, four_index, four_shift in B0, B1. cbn [fst snd] in B0, B1.
  assert (S0 : (6 - x mod 4 * 2 + 0 <? 8) = true).
  { apply Nat.ltb_lt. lia. }
  assert (S1 : (6 - x mod 4 * 2 + 1 <? 8) = true).
  { apply Nat.ltb_lt. lia. }
  rewrite S0 in B0. rewrite S1 in B1. cbn [andb] in B0, B1.
  rewrite Nat.add_0_r in B0. rewrite B0, B1.
  unfold four_value. cbv zeta.
  rewrite (read_of_lookup _ _ _ H0), (read_of_lookup _ _ _ H1), (read_of_lookup _ _ _ H2).
  pose proof (findClosestColor_in_palette Math_pow (of_byte r) (of_byte g) (of_byte b) fourColor)
    as Hin.
  cbn [palette_of] in Hin. palette_cases Hin; rewrite <- Hin; reflexivity.
Qed.

Lemma fourColor_fields_witness :
  Z.land (Z.shiftr (read_u8 (processImageData Math_pow_ref four_sample fourColor)
                      ((0 * 4 + 2) / 4))
            (Z.of_nat (6 - (2 mod 4) * 2))) 3 =
    item_value (findClosestColor Math_pow_ref (of_byte 255) (of_byte 0) (of_byte 0) fourColor).
Proof.
  apply (fourColor_fields Math_pow_ref four_sample 0 2 255 0 0 255);
    [reflexivity|cbn; lia|cbn; lia|reflexivity].
Defined.

(** ** UC8159: two pixels per byte *)

Lemma testbit_shl1_byte z t :
  Z.testbit (Z.land (Z.shiftl z 1) 255) (Z.of_nat t) =
    (0 <? t) && (t <? 8) && Z.testbit z (Z.of_nat (t - 1)).
Proof.
  rewrite Z.land_spec, Z.shiftl_spec by lia.
  change 255%Z with (Z.ones 8).
  destruct (Nat.ltb_spec 0 t) as [H0|H0].
  - destruct (Nat.ltb_spec t 8) as [H8|H8]; cbn [andb].
    + rewrite Z.ones_spec_low by lia. rewrite andb_true_r. f_equal. lia.
    + rewrite Z.ones_spec_high by lia. apply andb_false_r.
  - assert (t = 0) as -> by lia. cbn [andb]. rewrite Z.testbit_neg_r by lia. reflexivity.
Qed.

Lemma testbit_shl_byte j z t :
  0 < j ->
  Z.testbit (shl_byte j z) (Z.of_nat t) = (j <=? t) && (t <? 8) && Z.testbit z (Z.of_nat (t - j)).
Proof.
  induction j as [|j IH] in t |- *; intros Hj; [lia|].
  cbn [shl_byte]. rewrite testbit_shl1_byte.
  destruct j as [|j].
  - cbn [shl_byte]. destruct (Nat.ltb_spec 0 t), (Nat.leb_spec 1 t); try lia; reflexivity.
  - rewrite IH by lia.
    destruct (Nat.ltb_spec 0 t), (Nat.leb_spec (S (S j)) t), (Nat.leb_spec (S j) (t - 1)),
      (Nat.ltb_spec t 8), (Nat.ltb_spec (t - 1) 8); try lia; cbn [andb]; try reflexivity.
    f_equal. lia.
Qed.

Lemma land_0x80 z : (Z.land z 0x80 =? 0)%Z = negb (Z.testbit z 7).
Proof.
  assert (E : Z.land z 0x80 = if Z.testbit z 7 then 128%Z else 0%Z).
  { apply Z.bits_inj'. intros n Hn. rewrite Z.land_spec.
    assert (B : Z.testbit 128 n = (n =? 7)%Z).
    { change 128%Z with (Z.shiftl 1 7). rewrite Z.shiftl_spec by lia.
      destruct (Z.eqb_spec n 7) as [->|Hne]; [reflexivity|].
      destruct (Z.lt_ge_cases n 7); [apply Z.testbit_neg_r; lia|].
      apply (Z.bits_above_log2 1 (n - 7)%Z); cbn; lia. }
    change 0x80%Z with 128%Z. rewrite B.
    destruct (Z.eqb_spec n 7) as [->|Hne].
    - rewrite andb_true_r. destruct (Z.testbit z 7); [exact (eq_sym B)|reflexivity].
    - rewrite andb_false_r. destruct (Z.testbit z 7).
      + symmetry. exact B.
      + symmetry. apply Z.bits_0. }
  rewrite E. destruct (Z.testbit z 7); reflexivity.
Qed.

Lemma uc8159_code_shl j b c :
  j < 8 -> uc8159_code (shl_byte j b) (shl_byte j c) = uc8159_pixel b c j.
Proof.
  intros Hj. unfold uc8159_code, uc8159_pixel. rewrite !land_0x80.
  destruct j as [|j].
  - reflexivity.
  - change 7%Z with (Z.of_nat 7). rewrite !testbit_shl_byte by lia.
    destruct (Nat.leb_spec (S j) 7) as [_|?]; [|lia]. cbn [andb Nat.ltb Nat.leb].
    reflexivity.
Qed.

Lemma uc8159_inner_step j b c payloadData payloadIdx j0 :
  uc8159_inner (shl_byte j b, shl_byte j c, payloadData, payloadIdx) j0 =
    (shl_byte (S (S j)) b, shl_byte (S (S j)) c,
     store_u8 payloadData payloadIdx
       (Z.lor (Z.land (Z.shiftl (uc8159_code (shl_byte j b) (shl_byte j c)) 4) 255)
          (uc8159_code (shl_byte (S j) b) (shl_byte (S j) c))),
     S payloadIdx).
Proof. reflexivity. Qed.

(** The byte the inner loop stores for the pixel pair [k] (0 to 3) of a
    pair of plane bytes. *)
Lemma uc8159_inner_fold b c payloadData payloadIdx :
  fold_left uc8159_inner [0; 2; 4; 6] (b, c, payloadData, payloadIdx) =
    (shl_byte 8 b, shl_byte 8 c,
     fold_left (fun d k =>
                  store_u8 d (payloadIdx + k)
                    (Z.lor (Z.land (Z.shiftl (uc8159_pixel b c (2 * k)) 4) 255)
                       (uc8159_pixel b c (2 * k + 1))))
       [0; 1; 2; 3] payloadData,
     payloadIdx + 4).
Proof.
  cbn [fold_left].
  change (b, c, payloadData, payloadIdx)
    with (shl_byte 0 b, shl_byte 0 c, payloadData, payloadIdx).
  rewrite !uc8159_inner_step. rewrite !uc8159_code_shl by lia.
  rewrite Nat.add_0_r.
  replace (S payloadIdx) with (payloadIdx + 1) by lia.
  replace (S (payloadIdx + 1)) with (payloadIdx + 2) by lia.
  replace (S (payloadIdx + 2)) with (payloadIdx + 3) by lia.
  replace (S (payloadIdx + 3)) with (payloadIdx + 4) by lia.
  reflexivity.
Qed.

Lemma uc8159_byte_value b c k :
  ToUint8 (Z.lor (Z.land (Z.shiftl (uc8159_pixel b c (2 * k)) 4) 255)
             (uc8159_pixel b c (2 * k + 1))) =
    (16 * uc8159_pixel b c (2 * k) + uc8159_pixel b c (2 * k + 1))%Z.
Proof.
  unfold uc8159_pixel.
  destruct (negb (Z.testbit c (Z.of_nat (7 - 2 * k)))),
    (negb (Z.testbit b (Z.of_nat (7 - 2 * k)))),
    (negb (Z.testbit c (Z.of_nat (7 - (2 * k + 1))))),
    (negb (Z.testbit b (Z.of_nat (7 - (2 * k + 1))))); reflexivity.
Qed.

Lemma convertUC8159_spec (blackWhiteData redWhiteData : list Z) :
  length (convertUC8159 blackWhiteData redWhiteData) = length blackWhiteData * 4 /\
  forall i k, i < length blackWhiteData -> k < 4 ->
    convertUC8159 blackWhiteData redWhiteData !! (4 * i + k) =
      Some (16 * uc8159_pixel (read_u8 blackWhiteData i) (read_u8 redWhiteData i) (2 * k)
            + uc8159_pixel (read_u8 blackWhiteData i) (read_u8 redWhiteData i) (2 * k + 1))%Z.
Proof.
  unfold convertUC8159. set (n := length blackWhiteData).
  set (step := fun (st : list Z * nat) (i : nat) => _).
  assert (G : forall m, m <= n ->
            let st := fold_left step (seq 0 m) (new_array (n * 4), 0) in
            snd st = 4 * m /\ length (fst st) = n * 4 /\
            forall i k, i < m -> k < 4 ->
              fst st !! (4 * i + k) =
                Some (16 * uc8159_pixel (read_u8 blackWhiteData i) (read_u8 redWhiteData i) (2 * k)
                      + uc8159_pixel (read_u8 blackWhiteData i) (read_u8 redWhiteData i)
                          (2 * k + 1))%Z).
  { induction m as [|m IH]; intros Hm; cbv zeta.
    - cbn [seq fold_left fst snd]. rewrite length_new_array. split; [lia|]. split; [reflexivity|]. intros; lia.
    - rewrite seq_S, fold_left_app. cbn [fold_left Nat.add].
      destruct (IH ltac:(lia)) as (Hidx & Hlen & Hprev). cbv zeta in Hidx, Hlen, Hprev.
      destruct (fold_left step (seq 0 m) (new_array (n * 4), 0)) as [pd idx].
      cbn [fst snd] in Hidx, Hlen, Hprev. subst idx.
      assert (Estep : step (pd, 4 * m) m =
                (fold_left (fun d k =>
                   store_u8 d (4 * m + k)
                     (Z.lor (Z.land (Z.shiftl (uc8159_pixel (read_u8 blackWhiteData m)
                                                 (read_u8 redWhiteData m) (2 * k)) 4) 255)
                        (uc8159_pixel (read_u8 blackWhiteData m) (read_u8 redWhiteData m)
                           (2 * k + 1))))
                   [0; 1; 2; 3] pd, 4 * m + 4)).
      { unfold step. rewrite uc8159_inner_fold. reflexivity. }
      rewrite Estep. cbn [fst snd fold_left].
      rewrite Nat.add_0_r. unfold store_u8. rewrite !uc8159_byte_value.
      split; [lia|]. split; [rewrite !length_insert; exact Hlen|].
      intros i k Hi Hk.
      destruct (Nat.eq_dec i m) as [->|Hne].
      + destruct k as [|[|[|[|k]]]]; [| | | |lia].
        * rewrite Nat.add_0_r. rewrite !list_lookup_insert_ne by lia.
          rewrite list_lookup_insert_eq by lia. reflexivity.
        * rewrite !list_lookup_insert_ne by lia.
          rewrite list_lookup_insert_eq by (rewrite ?length_insert; lia). reflexivity.
        * rewrite !list_lookup_insert_ne by lia.
          rewrite list_lookup_insert_eq by (rewrite ?length_insert; lia). reflexivity.
        * rewrite list_lookup_insert_eq by (rewrite ?length_insert; lia). reflexivity.
      + rewrite !list_lookup_insert_ne by lia. apply Hprev; lia. }
  destruct (G n (le_n n)) as (_ & Hlen & Hall). cbv zeta in Hlen, Hall.
  split; [exact Hlen|exact Hall].
Qed.

(** X11: [convertUC8159] turns every pair of plane bytes into four output
    bytes, two pixels per byte, the left pixel in the high nibble: the
    result is four times as long as the black/white plane, and byte
    [4 * i + k] holds the codes of pixels [2 * k] and [2 * k + 1] (counted
    from the most significant bit) of plane byte [i]: 4 where the colour
    plane has a 0 bit, otherwise 0 where the black/white plane has a 0 bit,
    otherwise 3.  A colour plane shorter than the black/white plane reads
    as 0 bytes. *)
Theorem convertUC8159_two_pixels_per_byte (blackWhiteData redWhiteData : list Z) :
  length (convertUC8159 blackWhiteData redWhiteData) = length blackWhiteData * 4 /\
  forall i k, i < length blackWhiteData -> k < 4 ->
    convertUC8159 blackWhiteData redWhiteData !! (4 * i + k) =
      Some (16 * uc8159_pixel (read_u8 blackWhiteData i) (read_u8 redWhiteData i) (2 * k)
            + uc8159_pixel (read_u8 blackWhiteData i) (read_u8 redWhiteData i) (2 * k + 1))%Z.
Proof. apply convertUC8159_spec. Qed.

(** X12: with the all-ones colour plane that [sendimg] builds in the
    two-colour mode, [convertUC8159] never emits the colour code 4: each
    nibble is 3 (white) where the black/white plane has a 1 bit and 0
    (black) where it has a 0 bit. *)
Theorem convertUC8159_two_colour (blackWhiteData : list Z) (i k : nat) :
  i < length blackWhiteData -> k < 4 ->
  convertUC8159 blackWhiteData (replicate (length blackWhiteData) 0xFF%Z) !! (4 * i + k) =
    Some (16 * (if Z.testbit (read_u8 blackWhiteData i) (Z.of_nat (7 - 2 * k)) then 3 else 0)
          + (if Z.testbit (read_u8 blackWhiteData i) (Z.of_nat (7 - (2 * k + 1))) then 3 else 0))%Z.
Proof.
  intros Hi Hk.
  destruct (convertUC8159_spec blackWhiteData (replicate (length blackWhiteData) 0xFF%Z))
    as [_ H].
  rewrite (H i k Hi Hk). f_equal.
  assert (R : read_u8 (replicate (length blackWhiteData) 0xFF%Z) i = 255%Z).
  { unfold read_u8. rewrite lookup_replicate_2 by exact Hi. reflexivity. }
  rewrite R. unfold uc8159_pixel.
  assert (T : forall p, p < 8 -> Z.testbit 255 (Z.of_nat (7 - p)) = true).
  { intros p Hp. do 8 (destruct p as [|p]; [reflexivity|]). lia. }
  rewrite !T by lia. cbn [negb].
  destruct (Z.testbit (read_u8 blackWhiteData i) (Z.of_nat (7 - 2 * k)));
    destruct (Z.testbit (read_u8 blackWhiteData i) (Z.of_nat (7 - (2 * k + 1)))); reflexivity.
Qed.

Lemma convertUC8159_two_colour_witness :
  convertUC8159 [0xA5; 0x0F]%Z (replicate (length [0xA5; 0x0F]%Z) 0xFF%Z) !! (4 * 1 + 2) =
    Some (16 * (if Z.testbit (read_u8 [0xA5; 0x0F]%Z 1) (Z.of_nat (7 - 2 * 2)) then 3 else 0)
          + (if Z.testbit (read_u8 [0xA5; 0x0F]%Z 1) (Z.of_nat (7 - (2 * 2 + 1))) then 3 else 0))%Z.
Proof. apply (convertUC8159_two_colour [0xA5; 0x0F]%Z 1 2); cbn; lia. Defined.

(** ** Transfers over a healthy link, and what a success means *)

Lemma writeImage_loop_inv (P : Session -> Prop) :
  (forall cmd data withResponse s, P s -> P (fst (write cmd data withResponse s))) ->
  forall fuel data step chunkSize interleavedCount i noReplyCount s s',
    P s ->
    writeImage_loop fuel data step chunkSize interleavedCount i noReplyCount s = Some s' ->
    P s'.
Proof.
  intros Hw fuel data step chunkSize interleavedCount.
  induction fuel as [|fuel IH]; intros i n s s' Hs Hrun; cbn [writeImage_loop] in Hrun.
  - destruct (_ <=? _)%Z; [|discriminate]. injection Hrun as <-. exact Hs.
  - destruct (_ <=? _)%Z; [injection Hrun as <-; exact Hs|].
    destruct (0 <? n)%Z.
    + destruct (write _ _ false s) as [s1 ok] eqn:E.
      refine (IH _ _ s1 s' _ Hrun).
      pose proof (Hw EpdCmd.WRITE_IMG (chunk_header step i :: js_slice data i (i + chunkSize))
                    false s Hs) as H. rewrite E in H. exact H.
    + destruct (write _ _ true s) as [s1 ok] eqn:E.
      refine (IH _ _ s1 s' _ Hrun).
      pose proof (Hw EpdCmd.WRITE_IMG (chunk_header step i :: js_slice data i (i + chunkSize))
                    true s Hs) as H. rewrite E in H. exact H.
Qed.

Lemma write_healthy cmd data withResponse s :
  healthy s ->
  exists s', write cmd data withResponse s = (s', true) /\ healthy s' /\
    wire s' = wire s ++ [mkWrite cmd data withResponse Sent].
Proof.
  intros (Hc & Hg & Hl). unfold write. rewrite Hc, Hg. cbn [negb].
  destruct (link s) as [|o rest] eqn:E.
  - eexists. split; [reflexivity|]. split; [|reflexivity].
    unfold healthy, connected in *. cbn. auto.
  - apply Forall_cons in Hl as [-> Hrest].
    eexists. split; [reflexivity|]. split; [|reflexivity].
    unfold healthy, connected in *. cbn. auto.
Qed.

Lemma write_true cmd data withResponse s s' :
  write cmd data withResponse s = (s', true) ->
  epdCharacteristic s = true /\ connected s = true /\
  epdCharacteristic s' = true /\ connected s' = true /\
  wire s' = wire s ++ [mkWrite cmd data withResponse Sent].
Proof.
  unfold write. destruct (epdCharacteristic s) eqn:Hc; cbn [negb]; [|intros E; discriminate E].
  destruct (connected s) eqn:Hg; cbn [negb]; [|intros E; discriminate E].
  destruct (link s) as [|[] rest]; intros E; try discriminate E;
    injection E as <-; unfold connected in *; cbn; auto.
Qed.

Lemma write_extends cmd data withResponse s w0 :
  (exists recs, wire s = w0 ++ recs) ->
  exists recs, wire (fst (write cmd data withResponse s)) = w0 ++ recs.
Proof.
  intros [recs E]. destruct (write_wire cmd data withResponse s) as [st H].
  exists (recs ++ [mkWrite cmd data withResponse st]). rewrite H, E, app_assoc. reflexivity.
Qed.

Lemma carried_app r1 r2 : carried (r1 ++ r2) = carried r1 ++ carried r2.
Proof. unfold carried. rewrite map_app, concat_app. reflexivity. Qed.

Lemma writeImage_run (cfg : TransferConfig) (data : list Z) (step : Step) (s : Session) :
  (2 < mtusize cfg)%Z -> (0 <= interleavedcount cfg)%Z ->
  exists s' recs,
    writeImage cfg data step s = Some s' /\
    wire s' = wire s ++ recs /\
    length recs = ceil_div (length data) (Z.to_nat (mtusize cfg - 2)) /\
    (forall k rec, recs !! k = Some rec ->
       chunk_call data step (mtusize cfg - 2) (interleavedcount cfg) k rec) /\
    carried recs = data.
Proof.
  intros Hmtu Hic. unfold writeImage.
  destruct (writeImage_loop_spec data step (mtusize cfg - 2) (interleavedcount cfg)
              ltac:(lia) Hic (length data) 0 (interleavedcount cfg) s)
    as (s' & recs & Hrun & Hwire & Hlen & Hrec & Hcar).
  - lia.
  - rewrite Z.mod_0_l by lia. lia.
  - exists s', recs. split; [exact Hrun|]. split; [exact Hwire|].
    split; [lia|]. split; [exact Hrec|]. exact Hcar.
Qed.

Lemma writeImage_healthy (cfg : TransferConfig) (data : list Z) (step : Step) (s : Session) :
  (2 < mtusize cfg)%Z -> (0 <= interleavedcount cfg)%Z -> healthy s ->
  exists s' recs,
    writeImage cfg data step s = Some s' /\ healthy s' /\
    wire s' = wire s ++ recs /\
    length recs = ceil_div (length data) (Z.to_nat (mtusize cfg - 2)) /\
    Forall (fun rec => w_cmd rec = EpdCmd.WRITE_IMG /\ w_status rec = Sent) recs /\
    carried recs = data.
Proof.
  intros Hmtu Hic Hs.
  destruct (writeImage_run cfg data step s Hmtu Hic) as (s' & recs & Hrun & Hwire & Hlen & Hrec & Hcar).
  exists s', recs. split; [exact Hrun|].
  pose (P := fun t : Session =>
               healthy t /\ exists rs, wire t = wire s ++ rs /\
                 Forall (fun rec => w_status rec = Sent) rs).
  assert (HP : P s').
  { unfold writeImage in Hrun.
    refine (writeImage_loop_inv P _ _ _ _ _ _ _ _ s s' _ Hrun).
    - intros cmd d wr t (Ht & rs & E & Hall).
      destruct (write_healthy cmd d wr t Ht) as (t' & Ew & Ht' & Hw').
      rewrite Ew. cbn [fst]. split; [exact Ht'|].
      exists (rs ++ [mkWrite cmd d wr Sent]). rewrite Hw', E, app_assoc. split; [reflexivity|].
      apply Forall_app. split; [exact Hall|]. constructor; [reflexivity|constructor].
    - split; [exact Hs|]. exists []. rewrite app_nil_r. split; [reflexivity|constructor]. }
  destruct HP as (Hs' & rs & E & Hall).
  rewrite Hwire in E. apply app_inv_head in E. subst rs.
  split; [exact Hs'|]. split; [exact Hwire|]. split; [exact Hlen|]. split; [|exact Hcar].
  apply Forall_lookup. intros k rec Hk. split.
  - destruct (Hrec k rec Hk) as (Hcmd & _). exact Hcmd.
  - apply (proj1 (Forall_lookup _ _) Hall k rec Hk).
Qed.

Section SendImageFacts.

Variable Math_pow : float -> float -> float.

(** X15: a send over a link that delivers every write.  In the two-,
    three- and four-colour modes [sendimg] returns [true]; the calls of
    [write] are INIT, then image chunks only, then REFRESH, every one of
    them sent; and the image bytes of the chunks, put end to end, are the
    packed image (both planes one after the other in the three-colour
    mode), or its UC8159 conversion for the drivers 08 and 09. *)
Theorem sendimg_delivers (cfg : TransferConfig) (epddriver : option string) (canvas : Canvas)
    (mode : DitherMode) (s : Session) :
  (2 < mtusize cfg)%Z -> (0 <= interleavedcount cfg)%Z ->
  healthy s -> context2d canvas = true ->
  0 < width (pixels canvas) -> 0 < height (pixels canvas) ->
  mode <> sixColor ->
  exists s' recs,
    sendimg Math_pow cfg epddriver canvas mode s = Some (s', true) /\
    healthy s' /\
    wire s' = wire s ++ [mkWrite EpdCmd.INIT [] true Sent] ++ recs
                ++ [mkWrite EpdCmd.REFRESH [] true Sent] /\
    Forall (fun rec => w_cmd rec = EpdCmd.WRITE_IMG /\ w_status rec = Sent) recs /\
    carried recs = image_payload Math_pow epddriver (pixels canvas) mode.
Proof.
  intros Hmtu Hic Hs Hctx Hw Hh Hmode. unfold sendimg.
  destruct Hs as (Hc & Hg & Hl). rewrite Hg, Hc, Hctx. cbn [negb orb].
  destruct (Nat.eqb_spec (width (pixels canvas)) 0) as [?|_]; [lia|].
  destruct (Nat.eqb_spec (height (pixels canvas)) 0) as [?|_]; [lia|]. cbn [orb].
  destruct (write_healthy EpdCmd.INIT [] true s (conj Hc (conj Hg Hl))) as (s1 & E1 & Hs1 & Hw1).
  rewrite E1. cbn [negb].
  set (P := processImageData Math_pow (pixels canvas) mode).
  unfold send_planes, image_payload. fold P.
  assert (Hrefresh : forall t rs payload,
            healthy t -> wire t = wire s1 ++ rs ->
            Forall (fun rec => w_cmd rec = EpdCmd.WRITE_IMG /\ w_status rec = Sent) rs ->
            carried rs = payload ->
            exists s' recs,
              Some (let '(s0, ok) := write EpdCmd.REFRESH [] true t in
                    if negb ok then (s0, false) else (s0, true)) = Some (s', true) /\
              healthy s' /\
              wire s' = wire s ++ [mkWrite EpdCmd.INIT [] true Sent] ++ recs
                          ++ [mkWrite EpdCmd.REFRESH [] true Sent] /\
              Forall (fun rec => w_cmd rec = EpdCmd.WRITE_IMG /\ w_status rec = Sent) recs /\
              carried recs = payload).
  { intros t rs payload Ht Hwt Hall Hcar.
    destruct (write_healthy EpdCmd.REFRESH [] true t Ht) as (t' & Et & Ht' & Hw').
    rewrite Et. cbn [negb]. exists t', rs. split; [reflexivity|]. split; [exact Ht'|].
    split; [|split; assumption].
    rewrite Hw', Hwt, Hw1. rewrite <- !app_assoc. reflexivity. }
  destruct mode; [| | |congruence].
  - destruct (uses_UC8159 epddriver).
    + destruct (writeImage_healthy cfg (convertUC8159 P (replicate (length P) 255%Z)) bw s1
                  Hmtu Hic Hs1) as (s2 & rs & E2 & Hs2 & Hw2 & _ & Hall & Hcar).
      rewrite E2. cbn. apply (Hrefresh s2 rs); assumption.
    + destruct (writeImage_healthy cfg P bw s1 Hmtu Hic Hs1)
        as (s2 & rs & E2 & Hs2 & Hw2 & _ & Hall & Hcar).
      rewrite E2. cbn. apply (Hrefresh s2 rs); assumption.
  - destruct (uses_UC8159 epddriver).
    + destruct (writeImage_healthy cfg
                  (convertUC8159 (slice_to P (length P / 2)) (slice_from P (length P / 2))) bw s1
                  Hmtu Hic Hs1) as (s2 & rs & E2 & Hs2 & Hw2 & _ & Hall & Hcar).
      rewrite E2. cbn. apply (Hrefresh s2 rs); assumption.
    + destruct (writeImage_healthy cfg (slice_to P (length P / 2)) bw s1 Hmtu Hic Hs1)
        as (s2 & rs & E2 & Hs2 & Hw2 & _ & Hall & Hcar).
      rewrite E2. cbn [mbind option_bind].
      destruct (writeImage_healthy cfg (slice_from P (length P / 2)) red s2 Hmtu Hic Hs2)
        as (s3 & rs' & E3 & Hs3 & Hw3 & _ & Hall' & Hcar').
      rewrite E3. cbn [mbind option_bind].
      apply (Hrefresh s3 (rs ++ rs')).
      * exact Hs3.
      * rewrite Hw3, Hw2, app_assoc. reflexivity.
      * apply Forall_app. split; assumption.
      * rewrite carried_app, Hcar, Hcar'. unfold slice_to, slice_from. apply take_drop.
  - destruct (writeImage_healthy cfg P color s1 Hmtu Hic Hs1)
      as (s2 & rs & E2 & Hs2 & Hw2 & _ & Hall & Hcar).
    rewrite E2. cbn. apply (Hrefresh s2 rs); assumption.
Qed.

Lemma writeImage_extends cfg data step s s' :
  writeImage cfg data step s = Some s' -> exists recs, wire s' = wire s ++ recs.
Proof.
  intros Hrun. unfold writeImage in Hrun.
  refine (writeImage_loop_inv (fun t => exists recs, wire t = wire s ++ recs)
            _ _ _ _ _ _ _ _ s s' _ Hrun).
  - intros. apply write_extends. assumption.
  - exists []. rewrite app_nil_r. reflexivity.
Qed.

Lemma refresh_true t s' :
  (let '(s0, ok) := write EpdCmd.REFRESH [] true t in
   if negb ok then (s0, false) else (s0, true)) = (s', true) ->
  epdCharacteristic t = true /\ epdCharacteristic s' = true /\ connected s' = true /\
  wire s' = wire t ++ [mkWrite EpdCmd.REFRESH [] true Sent].
Proof.
  destruct (write EpdCmd.REFRESH [] true t) as [s0 ok] eqn:E.
  destruct ok; cbn [negb]; intros H; [|discriminate H]. injection H as <-.
  destruct (write_true _ _ _ _ _ E) as (H1 & H2 & H3 & H4 & H5). auto.
Qed.

(** X16: what a [true] from [sendimg] guarantees, on any link: the
    session is still connected, the first write of the call was an INIT
    that was sent and the last one a REFRESH that was sent.  Nothing is
    guaranteed about the image chunks in between. *)
Theorem sendimg_true_means (cfg : TransferConfig) (epddriver : option string) (canvas : Canvas)
    (mode : DitherMode) (s s' : Session) :
  sendimg Math_pow cfg epddriver canvas mode s = Some (s', true) ->
  epdCharacteristic s' = true /\ connected s' = true /\
  exists recs,
    wire s' = wire s ++ [mkWrite EpdCmd.INIT [] true Sent] ++ recs
                ++ [mkWrite EpdCmd.REFRESH [] true Sent].
Proof.
  unfold sendimg.
  destruct (negb (connected s) || negb (epdCharacteristic s)); [intros H; discriminate H|].
  destruct (negb (context2d canvas)); [intros H; discriminate H|].
  destruct (_ || _)%bool; [intros H; discriminate H|].
  destruct (write EpdCmd.INIT [] true s) as [s1 ok] eqn:E1.
  destruct ok; cbn [negb]; [|intros H; discriminate H].
  destruct (write_true _ _ _ _ _ E1) as (_ & _ & Hc1 & Hg1 & Hw1).
  set (P := processImageData Math_pow (pixels canvas) mode).
  assert (Hfin : forall t, (exists rs, wire t = wire s1 ++ rs) ->
            forall r, Some (let '(s0, ok) := write EpdCmd.REFRESH [] true t in
                            if negb ok then (s0, false) else (s0, true)) = Some (r, true) ->
            epdCharacteristic r = true /\ connected r = true /\
            exists recs,
              wire r = wire s ++ [mkWrite EpdCmd.INIT [] true Sent] ++ recs
                         ++ [mkWrite EpdCmd.REFRESH [] true Sent]).
  { intros t [rs Ht] r H. injection H as H.
    destruct (refresh_true t r H) as (_ & H2 & H3 & H4).
    split; [exact H2|]. split; [exact H3|]. exists rs.
    rewrite H4, Ht, Hw1, <- !app_assoc. reflexivity. }
  unfold send_planes.
  destruct mode.
  - destruct (uses_UC8159 epddriver).
    + destruct (writeImage cfg _ bw s1) as [s2|] eqn:E2; cbn; [|intros H; discriminate H].
      apply Hfin. apply (writeImage_extends _ _ _ _ _ E2).
    + destruct (writeImage cfg _ bw s1) as [s2|] eqn:E2; cbn; [|intros H; discriminate H].
      apply Hfin. apply (writeImage_extends _ _ _ _ _ E2).
  - destruct (uses_UC8159 epddriver).
    + destruct (writeImage cfg _ bw s1) as [s2|] eqn:E2; cbn; [|intros H; discriminate H].
      apply Hfin. apply (writeImage_extends _ _ _ _ _ E2).
    + destruct (writeImage cfg _ bw s1) as [s2|] eqn:E2; cbn [mbind option_bind];
        [|intros H; discriminate H].
      destruct (writeImage cfg _ red s2) as [s3|] eqn:E3; cbn [mbind option_bind];
        [|intros H; discriminate H].
      apply Hfin.
      destruct (writeImage_extends _ _ _ _ _ E2) as [r2 H2].
      destruct (writeImage_extends _ _ _ _ _ E3) as [r3 H3].
      exists (r2 ++ r3). rewrite H3, H2, app_assoc. reflexivity.
  - destruct (writeImage cfg _ color s1) as [s2|] eqn:E2; cbn; [|intros H; discriminate H].
    apply Hfin. apply (writeImage_extends _ _ _ _ _ E2).
  - intros H. discriminate H.
Qed.

End SendImageFacts.

Lemma sendimg_delivers_witness :
  exists s' recs,
    sendimg Math_pow_ref (mkConfig 20 50) (Some "08"%string) (mkCanvas true six_sample)
      threeColor (mkSession true (Some true) [] []) = Some (s', true) /\
    healthy s' /\
    wire s' = [] ++ [mkWrite EpdCmd.INIT [] true Sent] ++ recs
                ++ [mkWrite EpdCmd.REFRESH [] true Sent] /\
    Forall (fun rec => w_cmd rec = EpdCmd.WRITE_IMG /\ w_status rec = Sent) recs /\
    carried recs = image_payload Math_pow_ref (Some "08"%string) six_sample threeColor.
Proof.
  apply (sendimg_delivers Math_pow_ref (mkConfig 20 50) (Some "08"%string)
           (mkCanvas true six_sample) threeColor (mkSession true (Some true) [] [])).
  - cbn. lia.
  - cbn. lia.
  - repeat split; constructor.
  - reflexivity.
  - cbn. lia.
  - cbn. lia.
  - discriminate.
Defined.

Lemma sendimg_true_means_witness :
  exists s',
    sendimg Math_pow_ref (mkConfig 3 50) None
      (mkCanvas true (mkImageData 16 1 (replicate 64 255%Z))) blackWhiteColor
      (mkSession true (Some true) [Delivered; Rejected] []) = Some (s', true) /\
    epdCharacteristic s' = true /\ connected s' = true /\
    exists recs,
      wire s' = [] ++ [mkWrite EpdCmd.INIT [] true Sent] ++ recs
                  ++ [mkWrite EpdCmd.REFRESH [] true Sent].
Proof.
  eexists. split; [vm_compute; reflexivity|].
  apply (sendimg_true_means Math_pow_ref (mkConfig 3 50) None
           (mkCanvas true (mkImageData 16 1 (replicate 64 255%Z))) blackWhiteColor
           (mkSession true (Some true) [Delivered; Rejected] [])).
  vm_compute. reflexivity.
Defined.

(** ** Chunk sizes *)

Lemma js_slice_length (d : list Z) (i c : Z) :
  (0 <= i)%Z -> (0 < c)%Z ->
  Z.of_nat (length (js_slice d i (i + c))) =
    Z.max 0 (Z.min c (Z.of_nat (length d) - i)).
Proof.
  intros Hi Hc. unfold js_slice.
  destruct (Z.ltb_spec i 0) as [?|_]; [lia|].
  destruct (Z.ltb_spec (i + c) 0) as [?|_]; [lia|].
  rewrite length_take, length_drop. lia.
Qed.

(** X13: the size of the chunks.  With an MTU above 2 every call of
    [write] that [writeImage] makes carries the header byte and between 1
    and [mtusize - 2] image bytes, so that opcode, header and bytes fit in
    [mtusize]; chunk [k] carries [mtusize - 2] bytes unless fewer are left. *)
Theorem writeImage_chunk_sizes (cfg : TransferConfig) (data : list Z) (step : Step) (s : Session) :
  (2 < mtusize cfg)%Z -> (0 <= interleavedcount cfg)%Z ->
  exists s' recs,
    writeImage cfg data step s = Some s' /\ wire s' = wire s ++ recs /\
    forall k rec, recs !! k = Some rec ->
      (Z.of_nat (length (w_data rec)) =
         1 + Z.min (mtusize cfg - 2) (Z.of_nat (length data) - Z.of_nat k * (mtusize cfg - 2)))%Z /\
      (2 <= Z.of_nat (length (w_data rec)) <= mtusize cfg - 1)%Z.
Proof.
  intros Hmtu Hic.
  destruct (writeImage_run cfg data step s Hmtu Hic) as (s' & recs & Hrun & Hwire & Hlen & Hrec & _).
  exists s', recs. split; [exact Hrun|]. split; [exact Hwire|].
  intros k rec Hk. destruct (Hrec k rec Hk) as (_ & Hd & _).
  assert (Hklt : k < length recs) by (apply lookup_lt_is_Some_1; eauto).
  rewrite Hlen in Hklt.
  assert (Hin : (Z.of_nat k * (mtusize cfg - 2) < Z.of_nat (length data))%Z).
  { destruct (ceil_div_least (length data) (Z.to_nat (mtusize cfg - 2)) ltac:(lia)) as [_ Hleast].
    destruct (Z.lt_ge_cases (Z.of_nat k * (mtusize cfg - 2)) (Z.of_nat (length data))) as [?|Hge];
      [assumption|].
    specialize (Hleast k).
    assert (H : length data <= k * Z.to_nat (mtusize cfg - 2)).
    { apply Nat2Z.inj_le. rewrite Nat2Z.inj_mul, Z2Nat.id by lia. lia. }
    specialize (Hleast H). lia. }
  assert (0 <= Z.of_nat k * (mtusize cfg - 2))%Z by nia.
  rewrite Hd. cbn [length]. rewrite Nat2Z.inj_succ, js_slice_length by lia. lia.
Qed.

Lemma writeImage_chunk_sizes_witness :
  exists s' recs,
    writeImage (mkConfig 20 50) (replicate 40 7%Z) color (mkSession true (Some true) [] [])
      = Some s' /\
    wire s' = [] ++ recs /\
    forall k rec, recs !! k = Some rec ->
      (Z.of_nat (length (w_data rec)) =
         1 + Z.min (20 - 2) (Z.of_nat (length (replicate 40 7%Z)) - Z.of_nat k * (20 - 2)))%Z /\
      (2 <= Z.of_nat (length (w_data rec)) <= 20 - 1)%Z.
Proof.
  apply (writeImage_chunk_sizes (mkConfig 20 50) (replicate 40 7%Z) color
           (mkSession true (Some true) [] [])); cbn; lia.
Defined.

(** X14: the two ends of the chunk loop.  An empty payload is sent with
    no call of [write] at all; with an MTU of 2 or less the chunk size is
    not positive, and [writeImage] never leaves its loop on a payload that
    is not empty, however many iterations are allowed. *)
Theorem writeImage_loop_ends (cfg : TransferConfig) (step : Step) (s : Session) :
  writeImage cfg [] step s = Some s /\
  forall data fuel, (mtusize cfg <= 2)%Z -> data <> [] ->
    writeImage_loop fuel data step (mtusize cfg - 2) (interleavedcount cfg) 0
      (interleavedcount cfg) s = None /\
    writeImage cfg data step s = None.
Proof.
  split; [reflexivity|]. intros data fuel Hmtu Hdata.
  assert (Hlen : (0 < Z.of_nat (length data))%Z) by (destruct data; [congruence|cbn; lia]).
  split; [|unfold writeImage]; apply writeImage_loop_diverges; lia.
Qed.

(** ** Settings that switch a stage off *)

Lemma all_bytes_elem z : (0 <= z <= 255)%Z -> In z all_bytes.
Proof.
  intros Hz. unfold all_bytes. apply in_map_iff. exists (Z.to_nat z).
  split; [lia|apply in_seq; lia].
Qed.

Lemma store_same d j v :
  (forall z, d !! j = Some z -> ToUint8Clamp v = z) -> store_clamped d j v = d.
Proof.
  intros H. unfold store_clamped. destruct (d !! j) as [z|] eqn:E.
  - rewrite (H z eq_refl). apply list_insert_id, E.
  - apply list_insert_ge. apply lookup_ge_None_1, E.
Qed.

Lemma contrast_one_byte z :
  (0 <= z <= 255)%Z -> ToUint8Clamp (clamp255 ((of_byte z - 128) * 1 + 128)%float) = z.
Proof.
  intros Hz.
  assert (A : forallb (fun z => (ToUint8Clamp (clamp255 ((of_byte z - 128) * 1 + 128)%float) =? z)%Z)
                all_bytes = true) by (vm_compute; reflexivity).
  apply Z.eqb_eq. apply (proj1 (forallb_forall _ _) A z), all_bytes_elem, Hz.
Qed.

Lemma bytes_ok_lookup d j z : bytes_ok d -> d !! j = Some z -> (0 <= z <= 255)%Z.
Proof. intros H E. apply (proj1 (Forall_lookup _ _) H j z E). Qed.

Lemma adjustContrast_step_one d i : bytes_ok d -> adjustContrast_step 1 d i = d.
Proof.
  intros Hd. unfold adjustContrast_step.
  assert (S : forall j, store_clamped d j (clamp255 ((read d j - 128) * 1 + 128)%float) = d).
  { intros j. apply store_same. intros z E. rewrite (read_of_lookup _ _ _ E).
    apply contrast_one_byte, (bytes_ok_lookup d j z Hd E). }
  rewrite (S i), (S (i + 1)), (S (i + 2)). reflexivity.
Qed.

(** X17: a contrast factor of 1 switches [adjustContrast] off: a buffer
    of bytes comes back unchanged, whatever its length. *)
Theorem adjustContrast_one (imageData : ImageData) :
  bytes_ok (data imageData) -> adjustContrast imageData 1 = imageData.
Proof.
  intros Hd. destruct imageData as [w h d]. unfold adjustContrast. cbn [width height data] in *.
  f_equal. generalize (map (fun k => 4 * k) (seq 0 (ceil_div (length d) 4))). intros l.
  induction l as [|i l IH]; cbn [fold_left]; [reflexivity|].
  rewrite adjustContrast_step_one by exact Hd. exact IH.
Qed.

Lemma adjustContrast_one_witness : adjustContrast six_sample 1 = six_sample.
Proof.
  apply (adjustContrast_one six_sample).
  unfold bytes_ok. cbn. repeat constructor; lia.
Defined.

(** *** Strength 0: no error is diffused *)

Lemma zero_error_byte e z :
  pm_zero e -> (0 <= z <= 255)%Z -> ToUint8Clamp (clamp255 (of_byte z + e)%float) = z.
Proof.
  intros He Hz.
  assert (A : forallb (fun z => (ToUint8Clamp (clamp255 (of_byte z + 0)%float) =? z)%Z
                                && (ToUint8Clamp (clamp255 (of_byte z + -0)%float) =? z)%Z)
                all_bytes = true) by (vm_compute; reflexivity).
  pose proof (proj1 (forallb_forall _ _) A z (all_bytes_elem z Hz)) as B.
  apply andb_true_iff in B as [B1 B2]. apply Z.eqb_eq in B1, B2.
  destruct He as [->| ->]; assumption.
Qed.

Lemma channel_error_zero (c : ColorPaletteItem) (mode : DitherMode) (z : Z) :
  c ∈ palette_of mode -> (0 <= z <= 255)%Z ->
  pm_zero ((of_byte z - item_r c) * 0)%float /\
  pm_zero ((of_byte z - item_g c) * 0)%float /\
  pm_zero ((of_byte z - item_b c) * 0)%float.
Proof.
  intros Hc Hz.
  pose (chk := fun (v : float) (z : Z) =>
                 let e := ((of_byte z - v) * 0)%float in
                 match Prim2SF e with S754_zero _ => true | _ => false end).
  assert (K : forall v e, e = ((of_byte z - v) * 0)%float -> chk v z = true -> pm_zero e).
  { intros v e -> H. unfold chk in H. cbv zeta in H.
    rewrite <- (SF2Prim_Prim2SF ((of_byte z - v) * 0)%float).
    destruct (Prim2SF ((of_byte z - v) * 0)%float) as [[]| | |]; try discriminate H;
      [right|left]; reflexivity. }
  assert (A : forallb (fun c => forallb (fun z => chk (item_r c) z && chk (item_g c) z
                                                  && chk (item_b c) z) all_bytes)
                (rgbPalette ++ threeColorPalette ++ fourColorPalette) = true)
    by (vm_compute; reflexivity).
  assert (Hin : In c (rgbPalette ++ threeColorPalette ++ fourColorPalette)).
  { apply list_elem_of_In in Hc. rewrite !in_app_iff.
    destruct mode; cbn [palette_of] in Hc; auto. }
  pose proof (proj1 (forallb_forall _ _) A c Hin) as B.
  pose proof (proj1 (forallb_forall _ _) B z (all_bytes_elem z Hz)) as C.
  apply andb_true_iff in C as [C Cb]. apply andb_true_iff in C as [Cr Cg].
  split; [|split]; eapply K; try reflexivity; assumption.
Qed.

Lemma diffuse_zero t i eR eG eB :
  bytes_ok t -> pm_zero eR -> pm_zero eG -> pm_zero eB -> diffuse t i eR eG eB = t.
Proof.
  intros Ht HR HG HB. unfold diffuse.
  assert (S : forall j e, pm_zero e -> store_clamped t j (clamp255 (read t j + e)%float) = t).
  { intros j e He. apply store_same. intros z E. rewrite (read_of_lookup _ _ _ E).
    apply zero_error_byte; [exact He|apply (bytes_ok_lookup t j z Ht E)]. }
  rewrite (S i), (S (i + 1)), (S (i + 2)) by assumption. reflexivity.
Qed.

Lemma pm_zero_scale e (c d : float) :
  pm_zero (0 * c / d)%float -> pm_zero (-0 * c / d)%float ->
  pm_zero e -> pm_zero (e * c / d)%float.
Proof. intros H1 H2 [->| ->]; assumption. Qed.

Lemma pm_zero_mul e (c : float) :
  pm_zero (0 * c)%float -> pm_zero (-0 * c)%float -> pm_zero e -> pm_zero (e * c)%float.
Proof. intros H1 H2 [->| ->]; assumption. Qed.

Lemma same_float_eq a b : same_float a b = true -> a = b.
Proof.
  unfold same_float. intros H. apply Prim2SF_inj.
  destruct (Prim2SF a) as [s|s| |s m e], (Prim2SF b) as [s'|s'| |s' m' e']; try discriminate H.
  - apply Bool.eqb_prop in H. congruence.
  - apply Bool.eqb_prop in H. congruence.
  - reflexivity.
  - apply andb_true_iff in H as [H He]. apply andb_true_iff in H as [Hs Hm].
    apply Bool.eqb_prop in Hs. apply Pos.eqb_eq in Hm. apply Z.eqb_eq in He. congruence.
Qed.

Lemma for_yx_sim {S1 S2 : Type} (R : S1 -> S2 -> Prop) (w h : nat)
    (body1 : nat -> nat -> S1 -> S1) (body2 : nat -> nat -> S2 -> S2) s1 s2 :
  (forall y x s1 s2, y < h -> x < w -> R s1 s2 -> R (body1 y x s1) (body2 y x s2)) ->
  R s1 s2 -> R (for_yx w h body1 s1) (for_yx w h body2 s2).
Proof.
  intros Hstep. rewrite !for_yx_coords.
  assert (G : forall l s1 s2, (forall p, p ∈ l -> p ∈ coords w h) -> R s1 s2 ->
            R (fold_left (fun s p => body1 (fst p) (snd p) s) l s1)
              (fold_left (fun s p => body2 (fst p) (snd p) s) l s2)).
  { induction l as [|[y x] l IH]; intros t1 t2 Hl Ht; cbn [fold_left]; [exact Ht|].
    apply IH; [intros p Hp; apply Hl; right; exact Hp|].
    cbn [fst snd]. assert (Hin : (y, x) ∈ coords w h) by (apply Hl; left).
    apply elem_of_coords in Hin as [Hy Hx]. apply Hstep; assumption. }
  apply G. auto.
Qed.

Lemma if_same {A : Type} (c : bool) (t : A) : (if c then t else t) = t.
Proof. destruct c; reflexivity. Qed.

Section StrengthZero.

Local Open Scope float_scope.

Variable Math_pow : float -> float -> float.

Ltac pm_const := first [left; reflexivity | right; reflexivity].

(** The three errors of a pixel inside the buffer vanish at strength 0. *)
Lemma errors_zero (t : list Z) (idx : nat) (mode : DitherMode) :
  bytes_ok t -> (idx + 2 < length t)%nat ->
  let r := read t idx in
  let g := read t (idx + 1) in
  let b := read t (idx + 2) in
  let closest := findClosestColor Math_pow r g b mode in
  pm_zero ((r - item_r closest) * 0) /\ pm_zero ((g - item_g closest) * 0) /\
  pm_zero ((b - item_b closest) * 0).
Proof.
  intros Ht Hlen. cbv zeta.
  destruct (lookup_lt_is_Some_2 t idx ltac:(lia)) as [zr Er].
  destruct (lookup_lt_is_Some_2 t (idx + 1) ltac:(lia)) as [zg Eg].
  destruct (lookup_lt_is_Some_2 t (idx + 2) ltac:(lia)) as [zb Eb].
  rewrite (read_of_lookup _ _ _ Er), (read_of_lookup _ _ _ Eg), (read_of_lookup _ _ _ Eb).
  set (closest := findClosestColor Math_pow _ _ _ mode).
  assert (Hc : closest ∈ palette_of mode) by apply findClosestColor_in_palette.
  destruct (channel_error_zero closest mode zr Hc (bytes_ok_lookup _ _ _ Ht Er)) as (H & _ & _).
  destruct (channel_error_zero closest mode zg Hc (bytes_ok_lookup _ _ _ Ht Eg)) as (_ & H' & _).
  destruct (channel_error_zero closest mode zb Hc (bytes_ok_lookup _ _ _ Ht Eb)) as (_ & _ & H'').
  auto.
Qed.

Lemma in_buffer w h y x (t : list Z) :
  length t = (w * h * 4)%nat -> (y < h)%nat -> (x < w)%nat ->
  ((y * w + x) * 4 + 2 < length t)%nat.
Proof.
  intros Hlen Hy Hx. rewrite Hlen.
  assert ((y * w + x + 1) * 4 <= w * h * 4)%nat by nia. lia.
Qed.

Lemma floydSteinberg_body_zero w h mode y x t :
  bytes_ok t -> length t = (w * h * 4)%nat -> (y < h)%nat -> (x < w)%nat ->
  floydSteinberg_body Math_pow w h 0 mode y x t = t.
Proof.
  intros Ht Hlen Hy Hx. unfold floydSteinberg_body. cbv zeta.
  destruct (errors_zero t ((y * w + x) * 4) mode Ht (in_buffer w h y x t Hlen Hy Hx))
    as (HR & HG & HB). cbv zeta in HR, HG, HB.
  assert (D : forall i (c : float),
            pm_zero (0 * c / 16) -> pm_zero (-0 * c / 16) ->
            diffuse t i
              ((read t ((y * w + x) * 4) -
                item_r (findClosestColor Math_pow (read t ((y * w + x) * 4))
                          (read t ((y * w + x) * 4 + 1)) (read t ((y * w + x) * 4 + 2)) mode))
               * 0 * c / 16)
              ((read t ((y * w + x) * 4 + 1) -
                item_g (findClosestColor Math_pow (read t ((y * w + x) * 4))
                          (read t ((y * w + x) * 4 + 1)) (read t ((y * w + x) * 4 + 2)) mode))
               * 0 * c / 16)
              ((read t ((y * w + x) * 4 + 2) -
                item_b (findClosestColor Math_pow (read t ((y * w + x) * 4))
                          (read t ((y * w + x) * 4 + 1)) (read t ((y * w + x) * 4 + 2)) mode))
               * 0 * c / 16) = t).
  { intros i c H1 H2. apply diffuse_zero; [exact Ht| | |]; apply pm_zero_scale; assumption. }
  rewrite (D _ 7) by pm_const. rewrite if_same.
  rewrite (D _ 3) by pm_const. rewrite if_same.
  rewrite (D _ 5) by pm_const. rewrite (D _ 1) by pm_const.
  rewrite !if_same. reflexivity.
Qed.

Ltac settle_diffusion t HR HG HB :=
  repeat (rewrite ?if_same;
          rewrite (diffuse_zero t)
            by first [ assumption
                     | apply pm_zero_scale; [pm_const|pm_const|assumption]
                     | apply pm_zero_mul; [pm_const|pm_const|assumption] ]);
  rewrite ?if_same.

Lemma atkinson_body_zero w h mode y x t d :
  bytes_ok t -> length t = (w * h * 4)%nat -> (y < h)%nat -> (x < w)%nat ->
  atkinson_body Math_pow w h 0 mode y x (t, d) =
    (t, write_rgb d ((y * w + x) * 4)
          (findClosestColor Math_pow (read t ((y * w + x) * 4)) (read t ((y * w + x) * 4 + 1))
             (read t ((y * w + x) * 4 + 2)) mode)).
Proof.
  intros Ht Hlen Hy Hx. unfold atkinson_body. cbv zeta.
  destruct (errors_zero t ((y * w + x) * 4) mode Ht (in_buffer w h y x t Hlen Hy Hx))
    as (HR & HG & HB). cbv zeta in HR, HG, HB.
  settle_diffusion t HR HG HB. reflexivity.
Qed.

Lemma diffuse12_zero w h y x idx (eR eG eB : float) (wts : list float) (divisor : float) t :
  bytes_ok t -> pm_zero eR -> pm_zero eG -> pm_zero eB ->
  (forall k, (k < 12)%nat -> pm_zero (0 * nth k wts NaN / divisor) /\
                             pm_zero (-0 * nth k wts NaN / divisor)) ->
  diffuse12 w h y x idx eR eG eB wts divisor t = t.
Proof.
  intros Ht HR HG HB Hw. unfold diffuse12. cbv zeta.
  repeat (rewrite ?if_same;
          rewrite (diffuse_zero t)
            by first [ assumption
                     | apply pm_zero_scale; [apply Hw; lia|apply Hw; lia|assumption] ]);
  rewrite ?if_same. reflexivity.
Qed.

Lemma weights_zero (wts : list float) (divisor : float) :
  forallb (fun wt => (same_float (0 * wt / divisor) 0 || same_float (0 * wt / divisor) (-0))
                     && (same_float (-0 * wt / divisor) 0 || same_float (-0 * wt / divisor) (-0)))
    wts = true ->
  length wts = 12%nat ->
  forall k, (k < 12)%nat -> pm_zero (0 * nth k wts NaN / divisor) /\
                            pm_zero (-0 * nth k wts NaN / divisor).
Proof.
  intros A Hlen k Hk.
  assert (Hin : In (nth k wts NaN) wts) by (apply nth_In; lia).
  pose proof (proj1 (forallb_forall _ _) A _ Hin) as B.
  apply andb_true_iff in B as [B1 B2]. apply orb_true_iff in B1, B2. unfold pm_zero.
  split; [destruct B1 as [B|B]|destruct B2 as [B|B]]; apply same_float_eq in B; auto.
Qed.

Lemma stucki_body_zero w h mode y x t :
  bytes_ok t -> length t = (w * h * 4)%nat -> (y < h)%nat -> (x < w)%nat ->
  stucki_body Math_pow w h 0 mode y x t = t.
Proof.
  intros Ht Hlen Hy Hx. unfold stucki_body. cbv zeta.
  destruct (errors_zero t ((y * w + x) * 4) mode Ht (in_buffer w h y x t Hlen Hy Hx))
    as (HR & HG & HB). cbv zeta in HR, HG, HB.
  apply diffuse12_zero; try assumption.
  apply weights_zero; vm_compute; reflexivity.
Qed.

Lemma jarvis_body_zero w h mode y x t d :
  bytes_ok t -> length t = (w * h * 4)%nat -> (y < h)%nat -> (x < w)%nat ->
  jarvis_body Math_pow w h 0 mode y x (t, d) =
    (t, write_rgb d ((y * w + x) * 4)
          (findClosestColor Math_pow (read t ((y * w + x) * 4)) (read t ((y * w + x) * 4 + 1))
             (read t ((y * w + x) * 4 + 2)) mode)).
Proof.
  intros Ht Hlen Hy Hx. unfold jarvis_body. cbv zeta.
  destruct (errors_zero t ((y * w + x) * 4) mode Ht (in_buffer w h y x t Hlen Hy Hx))
    as (HR & HG & HB). cbv zeta in HR, HG, HB.
  rewrite diffuse12_zero; try assumption; [reflexivity|].
  apply weights_zero; vm_compute; reflexivity.
Qed.

(** At strength 0 the four error-diffusion algorithms are one pass of
    [requantize_pass] over the unchanged input. *)
Lemma diffusion_zero (imageData : ImageData) (alg : DitherAlgorithm) (mode : DitherMode) :
  alg <> none -> alg <> bayer ->
  bytes_ok (data imageData) ->
  length (data imageData) = (width imageData * height imageData * 4)%nat ->
  ditherImage Math_pow imageData alg 0 mode =
    mkImageData (width imageData) (height imageData)
      (requantize_pass Math_pow (width imageData) (height imageData) mode
         (data imageData) (data imageData)).
Proof.
  destruct imageData as [w h d]. cbn [width height data]. intros Hn Hb Hd Hlen.
  assert (Hpair : forall body : nat -> nat -> list Z * list Z -> list Z * list Z,
            (forall y x t d', bytes_ok t -> length t = (w * h * 4)%nat -> (y < h)%nat ->
               (x < w)%nat ->
               body y x (t, d') =
                 (t, write_rgb d' ((y * w + x) * 4)
                       (findClosestColor Math_pow (read t ((y * w + x) * 4))
                          (read t ((y * w + x) * 4 + 1)) (read t ((y * w + x) * 4 + 2)) mode))) ->
            snd (for_yx w h body (d, d)) = requantize_pass Math_pow w h mode d d).
  { intros body Hbody. unfold requantize_pass.
    pose proof (for_yx_sim (fun (st : list Z * list Z) (d' : list Z) => fst st = d /\ snd st = d')
                  w h body
                  (fun y x data =>
                     write_rgb data ((y * w + x) * 4)
                       (findClosestColor Math_pow (read d ((y * w + x) * 4))
                          (read d ((y * w + x) * 4 + 1)) (read d ((y * w + x) * 4 + 2)) mode))
                  (d, d) d) as H.
    apply H; [|split; reflexivity].
    intros y x [t d1] d2 Hy Hx [Ht Hd']. cbn [fst snd] in Ht, Hd'. subst t d2.
    rewrite Hbody by assumption. split; reflexivity. }
  assert (Hone : forall body : nat -> nat -> list Z -> list Z,
            (forall y x t, bytes_ok t -> length t = (w * h * 4)%nat -> (y < h)%nat ->
               (x < w)%nat -> body y x t = t) ->
            for_yx w h body d = d).
  { intros body Hbody. apply (for_yx_ind (fun t => t = d)); [|reflexivity].
    intros y x t Hy Hx ->. apply Hbody; assumption. }
  destruct alg; [| | | | |congruence]; cbn [ditherImage].
  - unfold floydSteinbergDither. cbn [width height data].
    rewrite (Hone _ (floydSteinberg_body_zero w h mode)). reflexivity.
  - unfold atkinsonDither. cbn [width height data].
    rewrite (Hpair _ (fun y x t d' => atkinson_body_zero w h mode y x t d')). reflexivity.
  - congruence.
  - unfold stuckiDither. cbn [width height data].
    rewrite (Hone _ (stucki_body_zero w h mode)). reflexivity.
  - unfold jarvisDither. cbn [width height data].
    rewrite (Hpair _ (fun y x t d' => jarvis_body_zero w h mode y x t d')). reflexivity.
Qed.

Lemma requantize_pass_pixel w h mode t d y x :
  (y < h)%nat -> (x < w)%nat ->
  pixel (mkImageData w h (requantize_pass Math_pow w h mode t d)) y x =
    repaint (findClosestColor Math_pow (read t ((y * w + x) * 4)) (read t ((y * w + x) * 4 + 1))
               (read t ((y * w + x) * 4 + 2)) mode)
      (pixel (mkImageData w h d) y x).
Proof.
  intros Hy Hx. unfold requantize_pass. rewrite for_yx_coords.
  set (W := fun (p : nat * nat) (s : list Z) =>
              write_rgb s ((fst p * w + snd p) * 4)
                (findClosestColor Math_pow (read t ((fst p * w + snd p) * 4))
                   (read t ((fst p * w + snd p) * 4 + 1))
                   (read t ((fst p * w + snd p) * 4 + 2)) mode)).
  set (obs := fun (s : list Z) (c : nat * nat) => pixel (mkImageData w h s) (fst c) (snd c)).
  set (ok := fun (s : list Z) (c : nat * nat) => True).
  set (upd := fun (p c : nat * nat) (v : option (Z * Z * Z * Z)) =>
                repaint (findClosestColor Math_pow (read t ((fst p * w + snd p) * 4))
                           (read t ((fst p * w + snd p) * 4 + 1))
                           (read t ((fst p * w + snd p) * 4 + 2)) mode) v).
  change (obs (fold_left (fun s k => W k s) (coords w h) d) (y, x) = upd (y, x) (y, x) (obs d (y, x))).
  apply (scatter_fold W obs ok (pixel_foot w) upd).
  - intros; exact I.
  - intros k s c Hf. unfold pixel_foot in Hf. apply Nat.eqb_neq in Hf.
    unfold obs, W. rewrite pixel_write_rgb.
    destruct (Nat.eqb_spec (fst c * w + snd c) (fst k * w + snd k)); [contradiction|reflexivity].
  - intros k s c Hf _. unfold pixel_foot in Hf.
    unfold obs, W, upd. rewrite pixel_write_rgb, Hf. reflexivity.
  - apply NoDup_coords.
  - intros [y1 x1] [y2 x2] H1 H2 F1 F2.
    apply elem_of_coords in H1, H2. unfold pixel_foot in F1, F2.
    apply Nat.eqb_eq in F1, F2. cbn [fst snd] in F1, F2.
    destruct (raster_inj w y1 x1 y2 x2) as [-> ->]; [lia|lia|lia|reflexivity].
  - apply elem_of_coords. auto.
  - unfold pixel_foot. apply Nat.eqb_refl.
  - exact I.
Qed.

Lemma bayer_pixel_zero (mode : DitherMode) (my mx : nat) (px : Z * Z * Z * Z) :
  (my < 8)%nat -> (mx < 8)%nat ->
  (let '(r, g, b, _) := px in (0 <= r <= 255)%Z /\ (0 <= g <= 255)%Z /\ (0 <= b <= 255)%Z) ->
  bayer_pixel Math_pow 0 mode my mx px = nearest_pixel Math_pow mode px.
Proof.
  intros Hmy Hmx. destruct px as [[[r g] b] a]. intros (Hr & Hg & Hb).
  unfold bayer_pixel, nearest_pixel.
  assert (A : forallb (fun row => forallb (fun thr => forallb (fun z =>
                same_float (Math_min 255 (Math_max 0 (of_byte z + (thr / 64 * 255 - 127.5) * 0)))
                  (of_byte z)) all_bytes) row) bayerMatrix = true) by (vm_compute; reflexivity).
  assert (K : forall z, (0 <= z <= 255)%Z ->
            Math_min 255 (Math_max 0
              (of_byte z + (nth mx (nth my bayerMatrix []) NaN / 64 * 255 - 127.5) * 0))
            = of_byte z).
  { intros z Hz. apply same_float_eq.
    assert (Hrow : In (nth my bayerMatrix []) bayerMatrix) by (apply nth_In; cbn; lia).
    pose proof (proj1 (forallb_forall _ _) A _ Hrow) as B.
    assert (Hlen : length (nth my bayerMatrix []) = 8%nat).
    { do 8 (destruct my as [|my]; [reflexivity|]). lia. }
    assert (Hcol : In (nth mx (nth my bayerMatrix []) NaN) (nth my bayerMatrix []))
      by (apply nth_In; lia).
    pose proof (proj1 (forallb_forall _ _) B _ Hcol) as C.
    apply (proj1 (forallb_forall _ _) C z), all_bytes_elem, Hz. }
  rewrite !K by assumption. reflexivity.
Qed.

(** X18: a strength of 0 switches the dithering off.  Each of the five
    algorithms then gives every pixel the colour [findClosestColor] picks
    for that pixel's own red, green and blue, and keeps its alpha: no
    error reaches a neighbour, and the Bayer threshold has no effect. *)
Theorem strength_zero_is_nearest_color (imageData : ImageData) (alg : DitherAlgorithm)
    (mode : DitherMode) (y x : nat) (r g b a : Z) :
  alg <> none -> bytes_ok (data imageData) ->
  length (data imageData) = (width imageData * height imageData * 4)%nat ->
  (y < height imageData)%nat -> (x < width imageData)%nat ->
  pixel imageData y x = Some (r, g, b, a) ->
  pixel (ditherImage Math_pow imageData alg 0 mode) y x =
    Some (color_bytes (findClosestColor Math_pow (of_byte r) (of_byte g) (of_byte b) mode), a).
Proof.
  intros Halg Hd Hlen Hy Hx Hp.
  destruct (pixel_inv _ _ _ _ _ _ _ Hp) as (H0 & H1 & H2 & _).
  assert (Hcase : alg = bayer \/ alg <> bayer) by (destruct alg; auto; right; discriminate).
  destruct Hcase as [->|Hb].
  - cbn [ditherImage]. rewrite bayerDither_pixel, Hp by assumption. cbn [option_map].
    rewrite bayer_pixel_zero.
    + reflexivity.
    + apply Nat.mod_upper_bound. lia.
    + apply Nat.mod_upper_bound. lia.
    + split; [|split]; eapply bytes_ok_lookup; eauto.
  - rewrite diffusion_zero by assumption.
    destruct imageData as [w h d]. cbn [width height data] in *.
    rewrite requantize_pass_pixel, Hp by assumption.
    rewrite (read_of_lookup _ _ _ H0), (read_of_lookup _ _ _ H1), (read_of_lookup _ _ _ H2).
    reflexivity.
Qed.

End StrengthZero.

Lemma strength_zero_is_nearest_color_witness :
  pixel (ditherImage Math_pow_ref (mkImageData 2 1 [10; 20; 30; 255; 200; 100; 50; 9]%Z)
           jarvis 0 threeColor) 0 1 =
    Some (color_bytes (findClosestColor Math_pow_ref (of_byte 200) (of_byte 100) (of_byte 50)
                         threeColor), 9%Z).
Proof.
  apply (strength_zero_is_nearest_color Math_pow_ref
           (mkImageData 2 1 [10; 20; 30; 255; 200; 100; 50; 9]%Z) jarvis threeColor 0 1
           200 100 50 9).
  - discriminate.
  - unfold bytes_ok. cbn. repeat constructor; lia.
  - reflexivity.
  - cbn. lia.
  - cbn. lia.
  - reflexivity.
Defined.

(** ** Hexadecimal text *)

Lemma hex2bytes_pair a b rest :
  hex2bytes (a :: b :: rest) = store_parsed (parseInt16 [a; b]) :: hex2bytes rest.
Proof. reflexivity. Qed.

Lemma byte_hex_parses b rest :
  (0 <= b <= 255)%Z ->
  let padded := 48%Z :: toString16 b in
  hex2bytes (js_slice padded (-2) (Z.of_nat (length padded)) ++ rest) = b :: hex2bytes rest.
Proof.
  intros Hb. cbv zeta.
  assert (A : forallb (fun b =>
                match js_slice (48%Z :: toString16 b) (-2)
                        (Z.of_nat (length (48%Z :: toString16 b))) with
                | [h; l] => (store_parsed (parseInt16 [h; l]) =? b)%Z
                | _ => false
                end) all_bytes = true) by (vm_compute; reflexivity).
  pose proof (proj1 (forallb_forall _ _) A b (all_bytes_elem b Hb)) as B. cbv beta in B.
  destruct (js_slice _ _ _) as [|h [|l [|? ?]]]; try discriminate B.
  apply Z.eqb_eq in B. cbn [app]. rewrite hex2bytes_pair, B. reflexivity.
Qed.

Lemma bytes2hex_fold (l : list Z) (memo : JSString) :
  fold_left
    (fun memo i =>
       let padded := 48%Z :: toString16 i in
       memo ++ js_slice padded (-2) (Z.of_nat (length padded))) l memo =
  memo ++ fold_left
    (fun memo i =>
       let padded := 48%Z :: toString16 i in
       memo ++ js_slice padded (-2) (Z.of_nat (length padded))) l [].
Proof.
  revert memo. induction l as [|i l IH]; intros memo; cbn [fold_left].
  - rewrite app_nil_r. reflexivity.
  - rewrite IH. rewrite (IH ([] ++ _)). cbn [app]. rewrite app_assoc. reflexivity.
Qed.

Lemma hex2bytes_bytes2hex (data : list Z) : hex2bytes (bytes2hex data) = map ToUint8 data.
Proof.
  unfold bytes2hex. induction data as [|b data IH]; [reflexivity|].
  cbn [map fold_left]. rewrite bytes2hex_fold. cbn [app].
  rewrite byte_hex_parses.
  - rewrite IH. reflexivity.
  - unfold ToUint8. pose proof (Z.mod_pos_bound b 256 ltac:(lia)). lia.
Qed.

Lemma list_pair_ind {A : Type} (P : list A -> Prop) :
  P [] -> (forall a, P [a]) -> (forall a b l, P l -> P (a :: b :: l)) -> forall l, P l.
Proof.
  intros H0 H1 H2.
  assert (G : forall n l, length l <= n -> P l).
  { induction n as [|n IH]; intros [|a [|b rest]] Hlen; cbn [length] in Hlen;
      try lia; auto.
    apply H2, IH. lia. }
  intros l. apply (G (length l)). lia.
Qed.

Lemma hex2bytes_length (hex : JSString) : length (hex2bytes hex) = ceil_div (length hex) 2.
Proof.
  induction hex as [|a|a b rest IH] using list_pair_ind; [reflexivity|reflexivity|].
  rewrite hex2bytes_pair. cbn [length]. rewrite IH.
  unfold ceil_div.
  replace (S (S (length rest)) + (2 - 1)) with (length rest + (2 - 1) + 1 * 2) by lia.
  rewrite Nat.div_add by lia. lia.
Qed.

Lemma hex2bytes_bytes (hex : JSString) : Forall (fun z => (0 <= z <= 255)%Z) (hex2bytes hex).
Proof.
  assert (R : forall v, (0 <= store_parsed v <= 255)%Z).
  { intros [z|]; cbn; [|lia]. unfold ToUint8. pose proof (Z.mod_pos_bound z 256 ltac:(lia)). lia. }
  induction hex as [|a|a b rest IH] using list_pair_ind.
  - constructor.
  - constructor; [apply R|constructor].
  - rewrite hex2bytes_pair. constructor; [apply R|exact IH].
Qed.

(** X21: [intToHex] writes a 16-bit number as four hexadecimal digits,
    low byte first: read back with [hex2bytes], the text of a number below
    65536 gives its low byte and then its high byte. *)
Theorem intToHex_little_endian (n : Z) :
  (0 <= n < 65536)%Z -> hex2bytes (intToHex n) = [n mod 256; n / 256]%Z.
Proof.
  intros Hn.
  assert (A : forallb (fun hi => forallb (fun lo =>
                match hex2bytes (intToHex (256 * hi + lo)) with
                | [lo'; hi'] => (lo' =? lo)%Z && (hi' =? hi)%Z
                | _ => false
                end) all_bytes) all_bytes = true) by (vm_compute; reflexivity).
  assert (Hhi : (0 <= n / 256 <= 255)%Z).
  { split; [apply Z.div_pos; lia|]. apply Z.lt_succ_r, Z.div_lt_upper_bound; lia. }
  assert (Hlo : (0 <= n mod 256 <= 255)%Z) by (pose proof (Z.mod_pos_bound n 256); lia).
  pose proof (proj1 (forallb_forall _ _) A _ (all_bytes_elem _ Hhi)) as B. cbv beta in B.
  pose proof (proj1 (forallb_forall _ _) B _ (all_bytes_elem _ Hlo)) as C. cbv beta in C.
  rewrite <- (Z.div_mod n 256) in C by lia.
  destruct (hex2bytes (intToHex n)) as [|lo [|hi [|? ?]]]; try discriminate C.
  apply andb_true_iff in C as [C1 C2]. apply Z.eqb_eq in C1, C2. congruence.
Qed.

Lemma intToHex_little_endian_witness :
  hex2bytes (intToHex 0x1234) = [0x1234 mod 256; 0x1234 / 256]%Z.
Proof. apply (intToHex_little_endian 0x1234). lia. Defined.

(** X19: [hex2bytes] undoes [bytes2hex]: the hexadecimal text of a list of
    bytes parses back to the same bytes. *)
Theorem hex2bytes_undoes_bytes2hex (data : list Z) :
  bytes_ok data -> hex2bytes (bytes2hex data) = data.
Proof.
  intros Hd. rewrite hex2bytes_bytes2hex.
  induction Hd as [|b data Hb _ IH]; [reflexivity|].
  cbn [map]. rewrite IH. unfold ToUint8. rewrite Z.mod_small by lia. reflexivity.
Qed.

Lemma hex2bytes_undoes_bytes2hex_witness :
  hex2bytes (bytes2hex [0; 9; 10; 171; 255]%Z) = [0; 9; 10; 171; 255]%Z.
Proof.
  apply (hex2bytes_undoes_bytes2hex [0; 9; 10; 171; 255]%Z).
  unfold bytes_ok. repeat constructor; lia.
Defined.

(** X20: [hex2bytes] on any text: it yields one byte for every two code
    units and one more for an odd one at the end, each between 0 and 255;
    a pair that does not start with a hexadecimal number counts as 0. *)
Theorem hex2bytes_any_text (hex : JSString) :
  length (hex2bytes hex) = ceil_div (length hex) 2 /\
  Forall (fun z => (0 <= z <= 255)%Z) (hex2bytes hex) /\
  forall a b rest, parseInt16 [a; b] = None -> hex2bytes (a :: b :: rest) = 0%Z :: hex2bytes rest.
Proof.
  split; [apply hex2bytes_length|]. split; [apply hex2bytes_bytes|].
  intros a b rest E. rewrite hex2bytes_pair, E. reflexivity.
Qed.

(** ** Commands *)

Lemma js_slice_tail (x : Z) (l : list Z) :
  js_slice (x :: l) 1 (Z.of_nat (length (x :: l))) = l.
Proof.
  unfold js_slice. cbn [length]. rewrite Nat2Z.inj_succ.
  destruct (Z.ltb_spec 1 0) as [?|_]; [lia|].
  destruct (Z.ltb_spec (Z.succ (Z.of_nat (length l))) 0) as [?|_]; [lia|].
  rewrite Z.min_l by lia. rewrite Z.min_l by lia.
  change (Z.to_nat 1) with 1. cbn [drop].
  apply take_ge. lia.
Qed.

(** X22: [sendcmd] on the hexadecimal text of the bytes [cmd :: data],
    over a link that delivers: exactly one write is made, with opcode
    [cmd], data [data] and an acknowledgment requested (the bytes taken
    modulo 256, as [bytes2hex] takes them). *)
Theorem sendcmd_sends (cmd : Z) (data : list Z) (s : Session) :
  healthy s ->
  wire (sendcmd (bytes2hex (cmd :: data)) s) =
    wire s ++ [mkWrite (ToUint8 cmd) (map ToUint8 data) true Sent].
Proof.
  intros Hs. destruct Hs as (Hc & Hg & Hl). unfold sendcmd. rewrite Hc, Hg. cbn [negb orb].
  pose proof (hex2bytes_bytes2hex (cmd :: data)) as E. cbn [map] in E.
  destruct (bytes2hex (cmd :: data)) as [|c0 txt] eqn:Etxt; [discriminate E|].
  rewrite E. cbn [read_u8 lookup list_lookup].
  assert (Hdata : (if (1 <? length (ToUint8 cmd :: map ToUint8 data))%nat
                   then js_slice (ToUint8 cmd :: map ToUint8 data) 1
                          (Z.of_nat (length (ToUint8 cmd :: map ToUint8 data)))
                   else []) = map ToUint8 data).
  { rewrite js_slice_tail. cbn [length].
    destruct (map ToUint8 data) as [|d0 rest]; [reflexivity|].
    destruct (Nat.ltb_spec 1 (S (length (d0 :: rest)))) as [_|H]; [reflexivity|].
    cbn [length] in H. lia. }
  rewrite Hdata.
  destruct (write_healthy (ToUint8 cmd) (map ToUint8 data) true s (conj Hc (conj Hg Hl)))
    as (s' & Ew & _ & Hw).
  rewrite Ew. exact Hw.
Qed.

Lemma land_255 z : Z.land z 255 = (z mod 256)%Z.
Proof. apply (Z.land_ones z 8). lia. Qed.

Lemma big_endian_32 (t : Z) :
  (Z.land (Z.shiftr t 24) 255 * 2 ^ 24 + Z.land (Z.shiftr t 16) 255 * 2 ^ 16
   + Z.land (Z.shiftr t 8) 255 * 2 ^ 8 + Z.land t 255 = t mod 2 ^ 32)%Z.
Proof.
  rewrite !land_255, !Z.shiftr_div_pow2 by lia.
  change (2 ^ 24)%Z with 16777216%Z. change (2 ^ 16)%Z with 65536%Z.
  change (2 ^ 8)%Z with 256%Z. change (2 ^ 32)%Z with 4294967296%Z.
  Z.div_mod_to_equations. lia.
Qed.

Lemma ToInt32_mod (x : float) : (ToInt32 x mod 2 ^ 32 = trunc x mod 2 ^ 32)%Z.
Proof.
  unfold ToInt32. cbv zeta.
  destruct (2 ^ 31 <=? trunc x mod 2 ^ 32)%Z.
  - rewrite <- (Z.mod_add _ 1 (2 ^ 32)) by lia.
    replace (trunc x mod 2 ^ 32 - 2 ^ 32 + 1 * 2 ^ 32)%Z with (trunc x mod 2 ^ 32)%Z by lia.
    apply Z.mod_mod. lia.
  - apply Z.mod_mod. lia.
Qed.

(** X23: the time [syncTime] sends.  On a link that delivers, and unless
    the dialogue of mode 2 is declined, one SET_TIME write is made whose
    six data bytes are the whole seconds of the clock modulo [2^32], most
    significant byte first, then the time-zone byte
    [-(getTimezoneOffset() / 60)] cut to its integer part and taken modulo
    256, then the mode. *)
Theorem syncTime_payload (mode : Z) (confirmed : bool) (now timezoneOffset : float) (s : Session) :
  healthy s -> (mode = 2%Z -> confirmed = true) ->
  exists b0 b1 b2 b3,
    wire (syncTime mode confirmed now timezoneOffset s) =
      wire s ++ [mkWrite EpdCmd.SET_TIME
                   [b0; b1; b2; b3; (trunc (- (timezoneOffset / 60))%float mod 256)%Z;
                    (mode mod 256)%Z] true Sent] /\
    Forall (fun b => (0 <= b <= 255)%Z) [b0; b1; b2; b3] /\
    (b0 * 2 ^ 24 + b1 * 2 ^ 16 + b2 * 2 ^ 8 + b3 = trunc (now / 1000)%float mod 2 ^ 32)%Z.
Proof.
  intros Hs Hconf. destruct Hs as (Hc & Hg & Hl). unfold syncTime. rewrite Hc, Hg.
  cbn [negb orb].
  assert (Hgo : ((mode =? 2)%Z && negb confirmed) = false).
  { destruct (Z.eqb_spec mode 2) as [E|_]; [|reflexivity]. rewrite (Hconf E). reflexivity. }
  rewrite Hgo. cbn [map].
  set (t := ToInt32 (now / 1000)%float).
  assert (U : forall z, ToUint8 (Z.land z 255) = Z.land z 255).
  { intros z. rewrite land_255. unfold ToUint8. apply Z.mod_mod. lia. }
  rewrite !U.
  destruct (write_healthy EpdCmd.SET_TIME
              [Z.land (Z.shiftr t 24) 255; Z.land (Z.shiftr t 16) 255; Z.land (Z.shiftr t 8) 255;
               Z.land t 255; ToUint8 (trunc (- (timezoneOffset / 60))%float); ToUint8 mode]
              true s (conj Hc (conj Hg Hl))) as (s' & Ew & _ & Hw).
  rewrite Ew. cbn [fst].
  eexists _, _, _, _. split; [exact Hw|]. split.
  - assert (B : forall z, (0 <= Z.land z 255 <= 255)%Z).
    { intros z. rewrite land_255. pose proof (Z.mod_pos_bound z 256 ltac:(lia)). lia. }
    repeat constructor; apply B.
  - rewrite big_endian_32. apply ToInt32_mod.
Qed.

Lemma sendcmd_sends_witness :
  wire (sendcmd (bytes2hex [0x05; 0x01; 0xFF]%Z) (mkSession true (Some true) [] [])) =
    [] ++ [mkWrite (ToUint8 0x05) (map ToUint8 [0x01; 0xFF]%Z) true Sent].
Proof.
  apply (sendcmd_sends 0x05 [0x01; 0xFF]%Z (mkSession true (Some true) [] [])).
  repeat split; constructor.
Defined.

Lemma syncTime_payload_witness :
  exists b0 b1 b2 b3,
    wire (syncTime 1 false 1762156800123 (-480) (mkSession true (Some true) [] [])) =
      [] ++ [mkWrite EpdCmd.SET_TIME
               [b0; b1; b2; b3; (trunc (- (-480 / 60))%float mod 256)%Z; (1 mod 256)%Z]
               true Sent] /\
    Forall (fun b => (0 <= b <= 255)%Z) [b0; b1; b2; b3] /\
    (b0 * 2 ^ 24 + b1 * 2 ^ 16 + b2 * 2 ^ 8 + b3 =
       trunc (1762156800123 / 1000)%float mod 2 ^ 32)%Z.
Proof.
  apply (syncTime_payload 1 false 1762156800123 (-480) (mkSession true (Some true) [] [])).
  - repeat split; constructor.
  - intros E. discriminate E.
Defined.

(** ** Bytes that are not there *)

Lemma read_u8_past d i : length d <= i -> read_u8 d i = 0%Z.
Proof. intros H. unfold read_u8. rewrite lookup_ge_None_2 by exact H. reflexivity. Qed.

Lemma bit_at_past d c : length d <= fst c -> bit_at d c = false.
Proof.
  intros H. unfold bit_at. rewrite read_u8_past by exact H.
  rewrite Z.bits_0. apply andb_false_r.
Qed.

(** X27: a pixel whose byte lies past the end of [processedData] is
    decoded all the same: it comes out white in the six-colour mode, black
    in the two- and four-colour modes, and red in the three-colour mode
    (where the byte in question is the one of the red plane).  In
    particular an empty buffer decodes to an image of that one colour. *)
Theorem decodeProcessedData_past_the_end (processedData : list Z) (w h : nat)
    (mode : DitherMode) (y x : nat) :
  0 < w -> 0 < h -> y < h -> x < w ->
  length processedData <= pixel_byte mode w h y x ->
  exists d,
    decodeProcessedData processedData w h mode = Some (mkImageData w h d) /\
    pixel (mkImageData w h d) y x = Some (color_bytes (missing_color mode), 255%Z).
Proof.
  intros Hw Hh Hy Hx Hpast.
  unfold decodeProcessedData. rewrite (new_ImageData_Some w h Hw Hh). cbn [data].
  eexists. split; [reflexivity|].
  set (P := processedData) in *.
  destruct mode; cbn [pixel_byte] in Hpast.
  - rewrite (decode_loop_pixel w h (decode_blackWhite P w)
               (fun y x => let v := if (Z.b2z (bit_at P (plane_cell w y x)) =? 0)%Z
                                    then 0%float else 255%float in (v, v, v))
               _ (fun y x d' => ltac:(unfold decode_blackWhite; rewrite plane_bit_read; reflexivity))
               (length_new_array _) y x Hy Hx).
    rewrite bit_at_past by exact Hpast. reflexivity.
  - set (bwD := slice_to P _). set (redD := slice_from P _).
    rewrite (decode_loop_pixel w h (decode_threeColor bwD redD w)
               (fun y x =>
                  if (Z.b2z (bit_at redD (plane_cell w y x)) =? 0)%Z then (255, 0, 0)%float
                  else let v := if (Z.b2z (bit_at bwD (plane_cell w y x)) =? 0)%Z
                                then 0%float else 255%float in (v, v, v))
               _ (fun y x d' => decode_threeColor_eq bwD redD w y x d')
               (length_new_array _) y x Hy Hx).
    rewrite (bit_at_past redD); [reflexivity|].
    unfold redD, slice_from, plane_cell. cbn [fst]. rewrite length_drop. lia.
  - rewrite (decode_loop_pixel w h (decode_fourColor P w)
               (fun y x =>
                  let value := Z.land (Z.shiftr (read_u8 P ((y * w + x) / 4))
                                         (Z.of_nat (6 - (x mod 4) * 2))) 3 in
                  match List.find (fun c => (fst c =? value)%Z) fourColorValues with
                  | Some c => snd c
                  | None => snd (nth 1 fourColorValues (0%Z, (NaN, NaN, NaN)))
                  end)
               _ (fun y x d' => decode_fourColor_write P w y x d')
               (length_new_array _) y x Hy Hx).
    rewrite read_u8_past by exact Hpast. rewrite Z.shiftr_0_l. reflexivity.
  - rewrite (decode_loop_pixel w h (decode_sixColor P w h)
               (fun y x =>
                  let color :=
                    match P !! (x * h + (h - 1 - y)) with
                    | Some value =>
                        match List.find (fun c => (item_value c =? value)%Z) rgbPalette with
                        | Some c => c
                        | None => item_at rgbPalette 5
                        end
                    | None => item_at rgbPalette 5
                    end in (item_r color, item_g color, item_b color))
               _ (fun y x d' => decode_sixColor_eq P w h y x d')
               (length_new_array _) y x Hy Hx).
    rewrite lookup_ge_None_2 by exact Hpast. reflexivity.
Qed.

Lemma decodeProcessedData_past_the_end_witness :
  exists d,
    decodeProcessedData [] 5 3 threeColor = Some (mkImageData 5 3 d) /\
    pixel (mkImageData 5 3 d) 2 4 = Some (color_bytes (missing_color threeColor), 255%Z).
Proof. apply (decodeProcessedData_past_the_end [] 5 3 threeColor 2 4); cbn; lia. Defined.

(** ** The remaining commands *)

Section MoreCommands.

Variable Math_pow : float -> float -> float.

(** X24: [convertDithering] is [applyDither] with contrast 1.2,
    Floyd-Steinberg, strength 1 and the two-colour mode; on an opaque
    canvas with a context it leaves an opaque image of the same size in
    which every pixel shows a colour of the six-colour palette (the palette
    [findClosestColor] searches in the two-colour mode), not only black and
    white. *)
Theorem convertDithering_canvas (canvas : Canvas) :
  context2d canvas = true -> ImageData_wf (pixels canvas) -> opaque (pixels canvas) ->
  convertDithering Math_pow canvas =
    applyDither Math_pow canvas (mkCanvasState 1.2 floydSteinberg 1.0 blackWhiteColor) /\
  exists q,
    convertDithering Math_pow canvas = Some (mkCanvas true q) /\
    width q = width (pixels canvas) /\ height q = height (pixels canvas) /\
    forall y x, y < height q -> x < width q ->
      exists c, c ∈ rgbPalette /\
        pixel q y x =
          Some (ToUint8Clamp (item_r c), ToUint8Clamp (item_g c), ToUint8Clamp (item_b c), 255%Z).
Proof.
  intros Hctx Hwf Hop. split; [reflexivity|].
  change (convertDithering Math_pow canvas)
    with (applyDither Math_pow canvas (mkCanvasState 1.2 floydSteinberg 1.0 blackWhiteColor)).
  destruct (applyDither_result Math_pow canvas
              (mkCanvasState 1.2 floydSteinberg 1.0 blackWhiteColor) Hctx Hwf)
    as (q & Hrun & Hq & Hsame).
  exists q. split; [exact Hrun|].
  destruct Hsame as (Hqw & Hqh & _). split; [exact Hqw|]. split; [exact Hqh|].
  intros y x Hy Hx. rewrite Hqh in Hy. rewrite Hqw in Hx.
  pose proof (adjustContrast_same_alpha (pixels canvas) 1.2) as Hc.
  assert (Ha : has_alpha 255 (pixel (adjustContrast (pixels canvas) 1.2) y x)).
  { apply (has_alpha_same_alpha (pixels canvas)); [exact Hc|]. apply Hop; assumption. }
  destruct Hc as (Hcw & Hch & _).
  cbn [contrast dithering strength colorPalette] in Hq.
  destruct (ditherImage_paints Math_pow (adjustContrast (pixels canvas) 1.2) floydSteinberg
              1.0 blackWhiteColor y x 255 ltac:(discriminate)
              ltac:(rewrite Hch; exact Hy) ltac:(rewrite Hcw; exact Hx) Ha) as (c & Hin & Hp).
  exists c. split; [exact Hin|]. rewrite Hq. exact Hp.
Qed.

End MoreCommands.

Lemma convertDithering_canvas_witness :
  convertDithering Math_pow_ref (mkCanvas true six_sample) =
    applyDither Math_pow_ref (mkCanvas true six_sample)
      (mkCanvasState 1.2 floydSteinberg 1.0 blackWhiteColor) /\
  exists q,
    convertDithering Math_pow_ref (mkCanvas true six_sample) = Some (mkCanvas true q) /\
    width q = width (pixels (mkCanvas true six_sample)) /\
    height q = height (pixels (mkCanvas true six_sample)) /\
    forall y x, y < height q -> x < width q ->
      exists c, c ∈ rgbPalette /\
        pixel q y x =
          Some (ToUint8Clamp (item_r c), ToUint8Clamp (item_g c), ToUint8Clamp (item_b c), 255%Z).
Proof.
  apply (convertDithering_canvas Math_pow_ref (mkCanvas true six_sample)).
  - reflexivity.
  - repeat split; cbn; lia.
  - intros y x Hy Hx. cbn in Hy, Hx.
    destruct y as [|[|y]]; [| |lia]; destruct x as [|[|[|x]]]; try lia;
      eexists _, _, _; reflexivity.
Defined.

(** X25: [setDriver] always makes two writes, SET_PINS with the bytes of
    the pins text and then INIT with the bytes of the driver text, both
    with an acknowledgment requested; the INIT is attempted whatever became
    of the SET_PINS. *)
Theorem setDriver_two_writes (epdpins epddriver : JSString) (s : Session) :
  exists st1 st2,
    wire (setDriver epdpins epddriver s) =
      wire s ++ [mkWrite EpdCmd.SET_PINS (hex2bytes epdpins) true st1;
                 mkWrite EpdCmd.INIT (hex2bytes epddriver) true st2].
Proof.
  unfold setDriver.
  destruct (write_wire EpdCmd.SET_PINS (hex2bytes epdpins) true s) as [st1 H1].
  destruct (write EpdCmd.SET_PINS (hex2bytes epdpins) true s) as [s1 ok1]. cbn [fst] in H1.
  destruct (write_wire EpdCmd.INIT (hex2bytes epddriver) true s1) as [st2 H2].
  destruct (write EpdCmd.INIT (hex2bytes epddriver) true s1) as [s2 ok2]. cbn [fst] in H2.
  exists st1, st2. rewrite H2, H1, <- app_assoc. reflexivity.
Qed.

(** X26: when the commands hold back.  Without a connection [syncTime],
    [clearScreen] and [sendcmd] leave the session as it is, and not even a
    failed write is recorded; the same holds for [clearScreen] and for
    [syncTime] in mode 2 when the dialogue is declined, and for [sendcmd]
    on an empty text. *)
Theorem commands_hold_back (s : Session) (mode : Z) (confirmed : bool)
    (now timezoneOffset : float) (cmdTXT : JSString) :
  (connected s = false \/ epdCharacteristic s = false ->
   syncTime mode confirmed now timezoneOffset s = s /\
   clearScreen confirmed s = s /\ sendcmd cmdTXT s = s) /\
  clearScreen false s = s /\
  syncTime 2 false now timezoneOffset s = s /\
  sendcmd [] s = s.
Proof.
  unfold syncTime, clearScreen, sendcmd. split; [|split; [|split]].
  - intros [H|H]; rewrite H; cbn [negb orb]; rewrite ?orb_true_r; auto.
  - destruct (negb (connected s) || negb (epdCharacteristic s)); reflexivity.
  - destruct (negb (connected s) || negb (epdCharacteristic s)); reflexivity.
  - destruct (negb (connected s) || negb (epdCharacteristic s)); reflexivity.
Qed.
